(** * Hikvision biometric integration: device ingest, check-in reducer, daily report

    A shallow embedding of

    - [biometric_integration/employee_checkin_sync.py]
      ([get_geolocation], [sync_punches_to_employee_checkin]),
    - [.../doctype/biometric_integration_settings/biometric_integration_settings.py]
      ([_get_device_configs], [_sync_for_single_device], [sync_attendance],
      [sync_attendance_device_only], [sync_to_employee_checkin_only]),
    - [.../report/biometric_daily_report/biometric_daily_report.py]
      ([calculate_total_minutes], [format_minutes_to_hhmm],
      [format_timedelta_to_hhmm], [format_punch_with_type], and of [execute]
      the duration column, the row "Total" and the present and absent
      employees),

    together with the properties of the specification that concern them.

    The record store is modelled as explicit state: documents are records,
    tables are lists in storage order, and a Python exception is a result
    [Raise e] that carries the store as it was when the exception left the
    function (nothing in these functions rolls back). *)

From Stdlib Require Import ZArith List String Ascii Bool Lia Arith PeanoNat.
From Stdlib Require Import DecimalString Decimal.
Import ListNotations.

Set Implicit Arguments.

(* ===================================================================== *)
(** * Shared data *)
(* ===================================================================== *)

(** A [datetime.timedelta], in microseconds.  This is how the database
    driver returns a TIME column ([punch_time]). *)
Definition timedelta := Z.

(** Time of day [h:m:s] as a [timedelta]. *)
Definition hms (h m s : Z) : timedelta := (((h * 60 + m) * 60 + s) * 1000000)%Z.

(** [bool(td)]: a zero [timedelta] is falsy. *)
Definition td_truthy (td : timedelta) : bool := negb (td =? 0)%Z.

(** [int(td.total_seconds() / 60)]: [int] truncates toward zero.  The two
    float divisions are exact on the range of a TIME column, a quotient
    that is not an integer being at least [1/60000000] away from one. *)
Definition total_minutes_of (td : timedelta) : Z := Z.quot td 60000000.

(** A calendar date. *)
Record Date := mkDate { year : Z; month : Z; day : Z }.

Definition date_eqb (a b : Date) : bool :=
  ((year a =? year b) && (month a =? month b) && (day a =? day b))%Z.

(** The order of dates, as ORDER BY uses it. *)
Definition date_leb (a b : Date) : bool :=
  ((year a <? year b)
   || ((year a =? year b) && ((month a <? month b)
        || ((month a =? month b) && (day a <=? day b)))))%Z.

(** A [datetime.datetime]: a date and the time of day in it. *)
Definition DateTime := (Date * timedelta)%type.

Definition datetime_eqb (a b : DateTime) : bool :=
  date_eqb (fst a) (fst b) && (snd a =? snd b)%Z.

(** Python truthiness of an optional string: [None] and [""] are falsy. *)
Definition str_truthy (o : option string) : bool :=
  match o with
  | Some s => negb (String.eqb s "")
  | None => false
  end.

(** Equality of nullable strings as a dict key or a filter value. *)
Definition ostr_eqb (a b : option string) : bool :=
  match a, b with
  | Some x, Some y => String.eqb x y
  | None, None => true
  | _, _ => false
  end.

(** NULL sorts first in ascending order. *)
Definition opt_leb {A} (leb : A -> A -> bool) (a b : option A) : bool :=
  match a, b with
  | None, _ => true
  | Some _, None => false
  | Some x, Some y => leb x y
  end.

Definition opt_eqb {A} (eqb : A -> A -> bool) (a b : option A) : bool :=
  match a, b with
  | None, None => true
  | Some x, Some y => eqb x y
  | _, _ => false
  end.

(** Document names (primary keys).  The framework generates them; the model
    draws them from a counter kept in the store. *)
Definition Name := nat.

(* ===================================================================== *)
(** * Report aggregator: [biometric_daily_report.py] *)
(* ===================================================================== *)

Module Report.

Local Open Scope Z_scope.

(** A row of [SELECT at.punch_time, at.punch_type ... ORDER BY at.punch_time]. *)
Record PunchRow := mkPunchRow {
  punch_time : option timedelta;
  punch_type : option string
}.

(** [range(start, stop, step)] for a positive step. *)
Fixpoint range_from (fuel : nat) (i stop step : Z) : list Z :=
  match fuel with
  | O => []
  | S fuel' => if i <? stop then i :: range_from fuel' (i + step) stop step else []
  end.

Definition py_range (start stop step : Z) : list Z :=
  range_from (Z.to_nat (stop - start)) start stop step.

(** [punches[i]] for a non-negative index; [None] stands for IndexError. *)
Definition getitem (punches : list PunchRow) (i : Z) : option PunchRow :=
  if i <? 0 then None else nth_error punches (Z.to_nat i).

(** The body of the [for] loop of [calculate_total_minutes] over the
    remaining indices.  Every exception of the [try] block (a missing
    [punch_time] has no [total_seconds]) ends the function with [0]. *)
Fixpoint calculate_loop (punches : list PunchRow) (idxs : list Z) (total : Z) : Z :=
  match idxs with
  | [] => total
  | i :: rest =>
      match getitem punches i, getitem punches (i + 1) with
      | Some p_in, Some p_out =>
          match punch_time p_in, punch_time p_out with
          | Some t_in, Some t_out =>
              let diff := total_minutes_of t_out - total_minutes_of t_in in
              calculate_loop punches rest (total + diff)
          | _, _ => 0
          end
      | _, _ => 0
      end
  end.

Definition calculate_total_minutes (punches : list PunchRow) : Z :=
  calculate_loop punches (py_range 0 (Z.of_nat (List.length punches) - 1) 2) 0.

(** [str(n)] for an integer. *)
Definition str_of_Z (n : Z) : string := NilZero.string_of_int (Z.to_int n).

(** The format spec [02]: zero padded to width two (a sign counts). *)
Definition fmt02 (n : Z) : string :=
  let s := str_of_Z n in
  if (String.length s <? 2)%nat then String "0" s else s.

Definition format_minutes_to_hhmm (minutes : Z) : string :=
  let h := minutes / 60 in
  let m := minutes mod 60 in
  fmt02 h ++ ":" ++ fmt02 m.

(** The "Calculate durations" step of [execute] for the punches of one log. *)
Definition total_duration (punches : list PunchRow) : string :=
  if negb (Z.of_nat (List.length punches) mod 2 =? 0) then "Check"
  else format_minutes_to_hhmm (calculate_total_minutes punches).

(** The punch at an index, in whole minutes since midnight. *)
Definition minute_at (punches : list PunchRow) (i : nat) : Z :=
  match nth_error punches i with
  | Some p => match punch_time p with Some t => total_minutes_of t | None => 0 end
  | None => 0
  end.

(** The sum over the pairs (0,1),(2,3),... of the first [n] pairs, each
    punch taken in whole minutes. *)
Fixpoint pair_minutes_sum (punches : list PunchRow) (n : nat) : Z :=
  match n with
  | O => 0
  | S k => pair_minutes_sum punches k
           + (minute_at punches (2 * k + 1)%nat - minute_at punches (2 * k)%nat)
  end.

(** Every punch carries a time. *)
Definition all_timed (punches : list PunchRow) : Prop :=
  Forall (fun p => punch_time p <> None) punches.

(** The specification's reading, in its own words: the sum over the
    pairs (0,1),(2,3),... of [(punch[2k+1] - punch[2k])] in minutes, the
    elapsed time of each pair being taken in whole minutes. *)
Definition time_at (punches : list PunchRow) (i : nat) : timedelta :=
  match nth_error punches i with
  | Some p => match punch_time p with Some t => t | None => 0 end
  | None => 0
  end.

Fixpoint elapsed_minutes_sum (punches : list PunchRow) (n : nat) : Z :=
  match n with
  | O => 0
  | S k => elapsed_minutes_sum punches k
           + total_minutes_of (time_at punches (2 * k + 1)%nat - time_at punches (2 * k)%nat)
  end.

(** Every punch time is a whole number of minutes. *)
Definition whole_minutes (punches : list PunchRow) : Prop :=
  Forall (fun p => forall t, punch_time p = Some t -> t mod 60000000 = 0) punches.

(** A device punch at a time of day. *)
Definition at_time (t : timedelta) : PunchRow := mkPunchRow (Some t) (Some "Auto"%string).

(** [format_timedelta_to_hhmm]: a missing time and [timedelta(0)] are
    falsy and give [None]. *)
Definition format_timedelta_to_hhmm (td : option timedelta) : option string :=
  match td with
  | None => None
  | Some t =>
      if negb (td_truthy t) then None
      else
        let total := total_minutes_of t in
        let h := total / 60 in
        let m := total mod 60 in
        Some (fmt02 h ++ ":" ++ fmt02 m)%string
  end.

(** [not punch.get("punch_time")]. *)
Definition no_time (punch : PunchRow) : bool :=
  match punch_time punch with
  | None => true
  | Some t => negb (td_truthy t)
  end.

(** [format_punch_with_type]; the f-string renders [None] as "None". *)
Definition format_punch_with_type (punch : PunchRow) : option string :=
  if no_time punch then None
  else
    let time_str := format_timedelta_to_hhmm (punch_time punch) in
    if ostr_eqb (punch_type punch) (Some "Manual"%string)
    then Some (match time_str with Some s => s | None => "None" end ++ " (MA)")%string
    else time_str.

(** The "Calculate durations" step of [execute] for the punches of one
    log, with the list [valid_minutes] it adds to. *)
Definition duration_step (punches : list PunchRow) (valid_minutes : list Z)
  : string * list Z :=
  if negb (Z.of_nat (List.length punches) mod 2 =? 0) then ("Check"%string, valid_minutes)
  else
    let total_minutes := calculate_total_minutes punches in
    let total_duration := format_minutes_to_hhmm total_minutes in
    (total_duration,
     if negb (String.eqb total_duration "Check"%string)
     then valid_minutes ++ [total_minutes]
     else valid_minutes).

(** The step over the logs of the report, in their order: the cells of
    the column [total_duration] and [valid_minutes] at the end. *)
Fixpoint duration_loop (logs : list (list PunchRow)) (valid_minutes : list Z)
  : list string * list Z :=
  match logs with
  | [] => ([], valid_minutes)
  | punches :: rest =>
      let (total_duration, valid_minutes') := duration_step punches valid_minutes in
      let (cells, valid_minutes'') := duration_loop rest valid_minutes' in
      (total_duration :: cells, valid_minutes'')
  end.

(** The cell [total_duration] of the row "Total":
    [format_minutes_to_hhmm(sum(valid_minutes))]. *)
Definition total_row_duration (logs : list (list PunchRow)) : string :=
  format_minutes_to_hhmm (fold_left Z.add (snd (duration_loop logs [])) 0).

(** The punches are in the order of their times, as [ORDER BY
    at.punch_time] returns them. *)
Definition ascending (punches : list PunchRow) : Prop :=
  forall i j, (i <= j)%nat -> (j < List.length punches)%nat ->
    time_at punches i <= time_at punches j.

(** ** Present and absent employees *)

(** A row of [tabEmployee] and a row of [tabBiometric Attendance Log]
    as the queries of [execute] read them. *)
Record EmployeeRow := mkEmployeeRow {
  r_employee_name : option string;
  r_attendance_device_id : option string;
  r_status : option string
}.

Record LogRow := mkLogRow {
  r_employee_no : option string;
  r_event_date : Date
}.

(** A row of the query for the present employees. *)
Record PresentRow := mkPresentRow {
  employee_no : option string;
  employee_name : option string;
  attendance_device_id : option string
}.

(** What the report takes from outside the repository: the [=] of the
    database on text (it follows the collation of the column) and [int]
    on text, [None] when it raises ValueError. *)
Record ReportWorld := mkReportWorld {
  sql_eq : string -> string -> bool;
  py_int : string -> option Z
}.

(** [a = b] in SQL is not true when one side is NULL. *)
Definition sql_eq_opt (w : ReportWorld) (a b : option string) : bool :=
  match a, b with
  | Some x, Some y => sql_eq w x y
  | _, _ => false
  end.

(** [SELECT ... FROM tabEmployee WHERE status = 'Active'
     AND attendance_device_id IS NOT NULL AND attendance_device_id != '']. *)
Definition all_active_employees (w : ReportWorld) (employees : list EmployeeRow)
  : list EmployeeRow :=
  filter (fun e =>
            sql_eq_opt w (r_status e) (Some "Active"%string)
            && match r_attendance_device_id e with
               | Some id => negb (sql_eq w id ""%string)
               | None => false
               end)
         employees.

(** The rows of [bal LEFT JOIN e ON e.attendance_device_id =
    bal.employee_no] for one log. *)
Definition joined (w : ReportWorld) (employees : list EmployeeRow) (bal : LogRow)
  : list PresentRow :=
  match filter (fun e => sql_eq_opt w (r_attendance_device_id e) (r_employee_no bal))
               employees with
  | [] => [mkPresentRow (r_employee_no bal) None None]
  | matches =>
      map (fun e => mkPresentRow (r_employee_no bal) (r_employee_name e)
                                 (r_attendance_device_id e))
          matches
  end.

Definition ostr_eq_dec (a b : option string) : {a = b} + {a <> b}.
Proof. decide equality. apply string_dec. Defined.

Definition present_row_eq_dec (a b : PresentRow) : {a = b} + {a <> b}.
Proof. decide equality; apply ostr_eq_dec. Defined.

(** [SELECT DISTINCT ... WHERE bal.event_date = %(selected_date)s]. *)
Definition select_present (w : ReportWorld) (employees : list EmployeeRow)
           (logs : list LogRow) (selected_date : Date) : list PresentRow :=
  nodup present_row_eq_dec
    (flat_map (fun bal =>
                 if date_eqb (r_event_date bal) selected_date
                 then joined w employees bal else [])
              logs).

(** [natural_sort_key] on the value of [attendance_device_id]. *)
Definition natural_sort_key (w : ReportWorld) (value : option string) : Z :=
  if negb (str_truthy value) then 0
  else
    match value with
    | Some text => match py_int w text with Some n => n | None => 0 end
    | None => 0
    end.

(** [list.sort(key=...)]: a stable sort on the keys. *)
Fixpoint insert_by {A} (key : A -> Z) (x : A) (l : list A) : list A :=
  match l with
  | [] => [x]
  | y :: l' => if key x <=? key y then x :: l else y :: insert_by key x l'
  end.

Definition sort_by {A} (key : A -> Z) (l : list A) : list A :=
  fold_right (insert_by key) [] l.

(** [present_employees] after its sort. *)
Definition present_employees (w : ReportWorld) (employees : list EmployeeRow)
           (logs : list LogRow) (selected_date : Date) : list PresentRow :=
  sort_by (fun emp => natural_sort_key w (attendance_device_id emp))
          (select_present w employees logs selected_date).

(** [emp.attendance_device_id not in present_employee_ids]. *)
Definition not_present (present : list PresentRow) (emp : EmployeeRow) : bool :=
  negb (existsb (fun p => ostr_eqb (attendance_device_id p) (r_attendance_device_id emp))
                present).

(** [absent_employees] after its sort. *)
Definition absent_employees (w : ReportWorld) (employees : list EmployeeRow)
           (logs : list LogRow) (selected_date : Date) : list EmployeeRow :=
  sort_by (fun emp => natural_sort_key w (r_attendance_device_id emp))
          (filter (not_present (present_employees w employees logs selected_date))
                  (all_active_employees w employees)).

(** A list in the order of its keys. *)
Fixpoint by_key {A} (key : A -> Z) (l : list A) : Prop :=
  match l with
  | [] => True
  | x :: l' => (forall y, In y l' -> key x <= key y) /\ by_key key l'
  end.

End Report.

(* ===================================================================== *)
(** * The record store *)
(* ===================================================================== *)

(** A row of the child table `tabBiometric Attendance Punch Table` (the
    SQL alias [p]).  [synced_to_employee_checkin] is a nullable Check
    column: the queries read it through [COALESCE(…, 0)]. *)
Record Punch := mkPunch {
  p_name : Name;
  p_punch_time : option timedelta;
  p_punch_type : option string;
  p_device_id : option string;
  p_synced_to_employee_checkin : option bool;
  p_employee_checkin : option Name
}.

(** A `Biometric Attendance Log` document (the SQL alias [l]) with its
    child table: a punch's [parent] is the log that holds it. *)
Record AttendanceLog := mkLog {
  l_name : Name;
  l_employee_no : option string;
  l_event_date : Date;
  l_device_id : option string;
  punch_table : list Punch
}.

Record Employee := mkEmployee {
  e_name : string;
  attendance_device_id : option string;
  status : string
}.

Inductive LogType := IN | OUT.

(** A coordinate in units of [1e-7] degree. *)
Definition Coord := Z.

Record EmployeeCheckin := mkCheckin {
  c_name : Name;
  employee : string;
  time : DateTime;
  log_type : LogType;
  device_id : option string;
  latitude : option Coord;
  longitude : option Coord;
  geo_latitude : option Coord;
  geo_longitude : option Coord;
  biometric_log : option Name;
  biometric_punch : option Name
}.

Record Store := mkStore {
  logs : list AttendanceLog;
  employees : list Employee;
  checkins : list EmployeeCheckin;
  next_name : Name
}.

(** [COALESCE(p.synced_to_employee_checkin, 0)]. *)
Definition coalesce0 (b : option bool) : bool :=
  match b with Some v => v | None => false end.

Definition set_logs (st : Store) (ls : list AttendanceLog) : Store :=
  mkStore ls (employees st) (checkins st) (next_name st).

Definition all_punches (st : Store) : list Punch :=
  flat_map punch_table (logs st).

(** Python exceptions that leave the modelled functions. *)
Inductive exn :=
| TypeError          (* '<' between a str and a timedelta *)
| IndexError         (* [group_punches[0]] of an empty list *)
| ParserError        (* [get_datetime] on text that is no date and time *)
| InsertError        (* [checkin.insert] failed *)
| ValueError         (* [strptime] on a malformed timestamp *)
| JSONDecodeError    (* [response.json()] on a body that is no JSON *)
| DoesNotExistError  (* [frappe.get_doc] of a name that is not stored *)
| HTTPStatusError (label : string) (status_code : Z)
| TooManyRecords (label : string) (total_records : Z)
| Thrown (e : exn).  (* [frappe.throw] of the message of [e] *)

Inductive outcome (A : Type) :=
| Return (a : A)
| Raise (e : exn).
Arguments Return {A} a.
Arguments Raise {A} e.

(** ** State and exceptions

    A computation over a state [S] returns a value or raises; an exception
    keeps the state reached so far. *)
Definition M (S A : Type) : Type := S -> S * outcome A.

Definition ret {S A} (a : A) : M S A := fun s => (s, Return a).

Definition bind {S A B} (m : M S A) (k : A -> M S B) : M S B :=
  fun s =>
    match m s with
    | (s', Return a) => k a s'
    | (s', Raise e) => (s', Raise e)
    end.

Definition raise {S A} (e : exn) : M S A := fun s => (s, Raise e).

Definition gets {S A} (f : S -> A) : M S A := fun s => (s, Return (f s)).

Definition modify {S} (f : S -> S) : M S unit := fun s => (f s, Return tt).

Declare Scope run_scope.
Delimit Scope run_scope with run.
Notation "x <- m ;; k" := (bind m (fun x => k))
  (at level 61, m at next level, right associativity) : run_scope.
Notation "m ;;; k" := (bind m (fun _ => k))
  (at level 61, right associativity) : run_scope.

(** [for x in l: body(x)]. *)
Fixpoint for_each {S A} (body : A -> M S unit) (l : list A) : M S unit :=
  match l with
  | [] => ret tt
  | x :: l' => bind (body x) (fun _ => for_each body l')
  end.

(* ===================================================================== *)
(** * Checkin reducer: [employee_checkin_sync.py] *)
(* ===================================================================== *)

Module Reducer.

Definition DEFAULT_LAT : Coord := 314812872%Z.
Definition DEFAULT_LON : Coord := 742520218%Z.

(** [get_geolocation]: [ipinfo] is what the provider answered, [None] for
    every failure (status, missing [loc], timeout, exception). *)
Definition get_geolocation (ipinfo : option (Coord * Coord)) : Coord * Coord :=
  match ipinfo with
  | Some loc => loc
  | None => (DEFAULT_LAT, DEFAULT_LON)
  end.

(** The [frappe.db.has_column] answers read at the start of a run. *)
Record Columns := mkColumns {
  punch_has_employee_checkin : bool;
  checkin_has_biometric_log : bool;
  checkin_has_biometric_punch : bool;
  checkin_has_device_id : bool;
  checkin_has_latitude : bool;
  checkin_has_longitude : bool;
  checkin_has_geo_latitude : bool;
  checkin_has_geo_longitude : bool
}.

(** What a reducer run takes from outside the repository:
    - [columns]: the schema;
    - [ipinfo]: the geolocation provider's answer;
    - [get_datetime d t]: [frappe.utils.get_datetime] of the text
      [f"{d} {t}"], [None] when it raises;
    - [insert_ok st c]: whether [c.insert(ignore_permissions=True)] goes
      through on store [st] (validation, HRMS hooks, the database). *)
Record ReducerWorld := mkReducerWorld {
  columns : Columns;
  ipinfo : option (Coord * Coord);
  get_datetime : Date -> option timedelta -> option DateTime;
  insert_ok : Store -> EmployeeCheckin -> bool
}.

(** One row of the SELECT that joins unsynced punches with their logs. *)
Record Row := mkRow {
  punch_name : Name;
  punch_time : option timedelta;
  punch_type : option string;
  synced : bool;
  punch_device_id : option string;
  log_name : Name;
  employee_no : option string;
  event_date : Date;
  log_device_id : option string
}.

Definition join_row (l : AttendanceLog) (p : Punch) : Row :=
  mkRow (p_name p) (p_punch_time p) (p_punch_type p)
        (coalesce0 (p_synced_to_employee_checkin p)) (p_device_id p)
        (l_name l) (l_employee_no l) (l_event_date l) (l_device_id l).

(** [FROM p JOIN l ON l.name = p.parent WHERE COALESCE(p.synced…, 0) = 0]. *)
Definition unsynced_rows (st : Store) : list Row :=
  flat_map (fun l =>
    map (join_row l)
        (filter (fun p => negb (coalesce0 (p_synced_to_employee_checkin p)))
                (punch_table l)))
    (logs st).

(** [ORDER BY l.employee_no, l.event_date, p.punch_time]. *)
Definition row_leb (a b : Row) : bool :=
  if negb (opt_eqb String.eqb (employee_no a) (employee_no b))
  then opt_leb String.leb (employee_no a) (employee_no b)
  else if negb (date_eqb (event_date a) (event_date b))
  then date_leb (event_date a) (event_date b)
  else opt_leb Z.leb (punch_time a) (punch_time b).

(** A stable insertion sort: [x] goes in front of the first element that
    is not below it. *)
Fixpoint insert_sorted {A} (leb : A -> A -> bool) (x : A) (l : list A) : list A :=
  match l with
  | [] => [x]
  | y :: l' => if leb x y then x :: l else y :: insert_sorted leb x l'
  end.

Definition order_by {A} (leb : A -> A -> bool) (l : list A) : list A :=
  fold_right (insert_sorted leb) [] l.

Definition select_unsynced (st : Store) : list Row :=
  order_by row_leb (unsynced_rows st).

(** The dict key [(p["employee_no"], p["event_date"])]. *)
Abbreviation GroupKey := (option string * Date)%type (only parsing).

Definition key_eqb (a b : GroupKey) : bool :=
  ostr_eqb (fst a) (fst b) && date_eqb (snd a) (snd b).

(** [groups.setdefault(key, []).append(p)] on a dict in insertion order. *)
Fixpoint setdefault_append (key : GroupKey) (p : Row)
         (groups : list (GroupKey * list Row)) : list (GroupKey * list Row) :=
  match groups with
  | [] => [(key, [p])]
  | (k, ps) :: rest =>
      if key_eqb k key then (k, ps ++ [p]) :: rest
      else (k, ps) :: setdefault_append key p rest
  end.

Definition group_rows (punches : list Row) : list (GroupKey * list Row) :=
  fold_left (fun groups p => setdefault_append (employee_no p, event_date p) p groups)
            punches [].

(** The sort key [x["punch_time"] or ""]: a missing or zero [punch_time]
    is falsy and gives the empty string. *)
Inductive SortKey :=
| KStr (s : string)
| KTimedelta (t : timedelta).

Definition sort_key (x : Row) : SortKey :=
  match punch_time x with
  | Some t => if td_truthy t then KTimedelta t else KStr ""
  | None => KStr ""
  end.

(** [a < b] on keys; [None] is the TypeError of comparing a [str] with a
    [timedelta]. *)
Definition key_lt (a b : SortKey) : option bool :=
  match a, b with
  | KTimedelta x, KTimedelta y => Some (x <? y)%Z
  | KStr x, KStr y => Some (String.ltb x y)
  | _, _ => None
  end.

(** [list.sort(key=…)] is stable and only uses [<].  It is modelled by a
    stable insertion sort: every stable sort returns the same list, and
    any sort of keys of both kinds ends up comparing a [str] with a
    [timedelta]. *)
Fixpoint py_insert (x : Row) (l : list Row) : outcome (list Row) :=
  match l with
  | [] => Return [x]
  | y :: l' =>
      match key_lt (sort_key y) (sort_key x) with
      | None => Raise TypeError
      | Some true =>
          match py_insert x l' with
          | Return r => Return (y :: r)
          | Raise e => Raise e
          end
      | Some false => Return (x :: l)
      end
  end.

Fixpoint py_sort (l : list Row) : outcome (list Row) :=
  match l with
  | [] => Return []
  | x :: l' =>
      match py_sort l' with
      | Return r => py_insert x r
      | Raise e => Raise e
      end
  end.

(** ** The state of a run

    A run threads the store and the two counters [created] and
    [already_synced] (the [nonlocal] variables of the closure). *)
Record RState := mkRState {
  store : Store;
  created : nat;
  already_synced : nat
}.

(** ** Store primitives *)

(** [frappe.db.exists("Employee Checkin", {"employee": …, "time": …})]. *)
Definition checkin_exists (st : Store) (emp : string) (dt : DateTime) : bool :=
  existsb (fun c => String.eqb (employee c) emp && datetime_eqb (time c) dt)
          (checkins st).

(** An update of punch rows wherever they are stored. *)
Definition map_punches (g : Punch -> Punch) (ls : list AttendanceLog) : list AttendanceLog :=
  map (fun l => mkLog (l_name l) (l_employee_no l) (l_event_date l) (l_device_id l)
                      (map g (punch_table l)))
      ls.

(** [frappe.db.set_value("Biometric Attendance Punch Table", name, …)]:
    updates the rows of that name. *)
Definition update_punch (name : Name) (f : Punch -> Punch) (st : Store) : Store :=
  set_logs st
    (map_punches (fun p => if Nat.eqb (p_name p) name then f p else p) (logs st)).

Definition mark_synced (p : Punch) : Punch :=
  mkPunch (p_name p) (p_punch_time p) (p_punch_type p) (p_device_id p)
          (Some true) (p_employee_checkin p).

(** The dict [update_values] of [_create_checkin_for_punch]. *)
Definition mark_synced_linked (link : option Name) (p : Punch) : Punch :=
  mkPunch (p_name p) (p_punch_time p) (p_punch_type p) (p_device_id p)
          (Some true)
          (match link with Some c => Some c | None => p_employee_checkin p end).

(** [checkin.insert(...)] when it goes through: the document gets its
    name and is stored. *)
Definition insert_checkin (c : EmployeeCheckin) (st : Store) : Store :=
  mkStore (logs st) (employees st) (checkins st ++ [c]) (S (next_name st)).

(** [frappe.db.get_value("Employee", {"attendance_device_id": emp_no},
    ["name", "status"], as_dict=True)]. *)
Definition get_employee (st : Store) (emp_no : option string) : option Employee :=
  find (fun e => ostr_eqb (attendance_device_id e) emp_no) (employees st).

(** [a or b] on optional strings. *)
Definition str_or (a b : option string) : option string :=
  if str_truthy a then a else b.

Definition when {A} (b : bool) (a : A) : option A := if b then Some a else None.

(** ** [sync_punches_to_employee_checkin] *)

Section Run.

Variable w : ReducerWorld.

Local Open Scope run_scope.

(** The document built between [frappe.new_doc("Employee Checkin")] and
    [checkin.insert]. *)
Definition new_checkin (geo : Coord * Coord) (emp : string) (punch_dt : DateTime)
           (punch : Row) (lt : LogType) : EmployeeCheckin :=
  let cols := columns w in
  let device := str_or (punch_device_id punch) (log_device_id punch) in
  mkCheckin 0 emp punch_dt lt
    (if checkin_has_device_id cols && str_truthy device then device else None)
    (when (checkin_has_latitude cols) (fst geo))
    (when (checkin_has_longitude cols) (snd geo))
    (when (checkin_has_geo_latitude cols) (fst geo))
    (when (checkin_has_geo_longitude cols) (snd geo))
    (when (checkin_has_biometric_log cols) (log_name punch))
    (when (checkin_has_biometric_punch cols) (punch_name punch)).

Definition with_name (c : EmployeeCheckin) (n : Name) : EmployeeCheckin :=
  mkCheckin n (employee c) (time c) (log_type c) (device_id c)
            (latitude c) (longitude c) (geo_latitude c) (geo_longitude c)
            (biometric_log c) (biometric_punch c).

(** The closure [_create_checkin_for_punch(punch, log_type)]; [emp],
    [the_date] and [geo] are the captured [employee], [event_date] and
    [latitude, longitude]. *)
Definition _create_checkin_for_punch (geo : Coord * Coord) (emp : string)
           (the_date : Date) (punch : Row) (lt : LogType) : M RState unit :=
  match get_datetime w the_date (punch_time punch) with
  | None => raise ParserError
  | Some punch_dt =>
      exists_ <- gets (fun s => checkin_exists (store s) emp punch_dt) ;;
      if exists_ : bool then
        modify (fun s => mkRState (store s) (created s) (S (already_synced s))) ;;;
        modify (fun s => mkRState (update_punch (punch_name punch) mark_synced (store s))
                                  (created s) (already_synced s))
      else
        let checkin := new_checkin geo emp punch_dt punch lt in
        ok <- gets (fun s => insert_ok w (store s) checkin) ;;
        if ok : bool then
          name <- gets (fun s => next_name (store s)) ;;
          modify (fun s => mkRState (insert_checkin (with_name checkin name) (store s))
                                    (created s) (already_synced s)) ;;;
          modify (fun s => mkRState
                    (update_punch (punch_name punch)
                       (mark_synced_linked
                          (when (punch_has_employee_checkin (columns w)) name))
                       (store s))
                    (created s) (already_synced s)) ;;;
          modify (fun s => mkRState (store s) (S (created s)) (already_synced s))
        else raise InsertError
  end.

(** [[p for p in group_punches if p["punch_name"] not in {first, last}]]. *)
Definition middle_of (first last : Row) (group_punches : list Row) : list Row :=
  filter (fun p => negb (Nat.eqb (punch_name p) (punch_name first)
                         || Nat.eqb (punch_name p) (punch_name last)))
         group_punches.

(** The body of [for (emp_no, event_date), group_punches in groups.items()]. *)
Definition process_group (geo : Coord * Coord) (g : GroupKey * list Row) : M RState unit :=
  let '((emp_no, the_date), group_punches) := g in
  if negb (str_truthy emp_no) then ret tt
  else
    emp_row <- gets (fun s => get_employee (store s) emp_no) ;;
    match emp_row with
    | None => ret tt
    | Some row =>
        if negb (String.eqb (status row) "Active") then ret tt
        else
          let emp := e_name row in
          match py_sort group_punches with
          | Raise e => raise e
          | Return sorted =>
              match sorted with
              | [] => raise IndexError
              | first :: _ =>
                  let last := List.last sorted first in
                  _create_checkin_for_punch geo emp the_date first IN ;;;
                  (if negb (Nat.eqb (punch_name last) (punch_name first))
                   then _create_checkin_for_punch geo emp the_date last OUT
                   else ret tt) ;;;
                  for_each
                    (fun p => modify (fun s =>
                       mkRState (update_punch (punch_name p) mark_synced (store s))
                                (created s) (already_synced s)))
                    (middle_of first last sorted)
              end
          end
    end.

Definition sync_punches_to_employee_checkin (st : Store) : Store * outcome (nat * nat) :=
  let geo := get_geolocation (ipinfo w) in
  let punches := select_unsynced st in
  match punches with
  | [] => (st, Return (0, 0))
  | _ :: _ =>
      let groups := group_rows punches in
      match for_each (process_group geo) groups (mkRState st 0 0) with
      | (s, Return _) => (store s, Return (created s, already_synced s))
      | (s, Raise e) => (store s, Raise e)
      end
  end.

(** [sync_to_employee_checkin_only] of [biometric_integration_settings.py]:
    the message is returned, or the exception is logged and thrown again
    by [frappe.throw]. *)
Definition sync_to_employee_checkin_only (st : Store) : Store * outcome (nat * nat) :=
  match sync_punches_to_employee_checkin st with
  | (st', Return r) => (st', Return r)
  | (st', Raise e) => (st', Raise (Thrown e))
  end.

End Run.

(** ** Predicates of the statements *)

(** The group of device number [emp_no] is passed over: the number is
    falsy, no Employee carries it, or the Employee is not Active. *)
Definition skipped_group (st : Store) (emp_no : option string) : bool :=
  negb (str_truthy emp_no)
  || match get_employee st emp_no with
     | None => true
     | Some row => negb (String.eqb (status row) "Active")
     end.

(** Every stored punch of that name is marked as synced. *)
Definition synced_name (n : Name) (st : Store) : Prop :=
  forall l p, In l (logs st) -> In p (punch_table l) -> p_name p = n ->
    coalesce0 (p_synced_to_employee_checkin p) = true.

(** [g] keeps names, never unmarks a punch and leaves the punches whose
    name is outside [N] as they are. *)
Definition marks_only (N : Name -> Prop) (g : Punch -> Punch) : Prop :=
  forall p,
    p_name (g p) = p_name p
    /\ (coalesce0 (p_synced_to_employee_checkin p) = true ->
        coalesce0 (p_synced_to_employee_checkin (g p)) = true)
    /\ (~ N (p_name p) -> g p = p).

(** The idempotency key of a Checkin Event. *)
Definition checkin_key (c : EmployeeCheckin) : string * DateTime :=
  (employee c, time c).

(** At most one Checkin Event per (employee, time) pair. *)
Definition one_checkin_per_key (st : Store) : Prop :=
  NoDup (map checkin_key (checkins st)).

(** What a reducer step may do to the state: Employees stay, punches are
    only marked (those named in [N]), Checkin Events are only added, and
    the key invariant is kept. *)
Definition rstep (N : Name -> Prop) (s s' : RState) : Prop :=
  employees (store s') = employees (store s)
  /\ (exists g, marks_only N g /\ logs (store s') = map_punches g (logs (store s)))
  /\ (exists added, checkins (store s') = checkins (store s) ++ added)
  /\ (one_checkin_per_key (store s) -> one_checkin_per_key (store s')).

(** The punch time of a row, zero when it is missing. *)
Definition time_of (r : Row) : timedelta :=
  match punch_time r with Some t => t | None => 0%Z end.

(** The row has a punch time that is not midnight, so that its sort key is
    the time itself. *)
Definition timed (r : Row) : Prop :=
  exists t, punch_time r = Some t /\ t <> 0%Z.

(** The names of the punches of a group. *)
Definition names_of (rows : list Row) : Name -> Prop :=
  fun n => In n (map punch_name rows).

(** Every group of [setdefault_append] keeps its key and is not empty. *)
Definition keyed (groups : list (GroupKey * list Row)) : Prop :=
  forall k g, In (k, g) groups ->
    g <> [] /\ forall r, In r g -> (employee_no r, event_date r) = k.

(** A list sorted by punch time. *)
Definition by_time (l : list Row) : Prop :=
  forall i j, (i <= j)%nat -> forall a b,
    nth_error l i = Some a -> nth_error l j = Some b -> (time_of a <= time_of b)%Z.

(** The body of the loop for a group that is not passed over, once sorted
    into [first :: rest]. *)
Definition boundary_events (w : ReducerWorld) (geo : Coord * Coord) (emp : string)
           (d : Date) (first : Row) (rest : list Row) : M RState unit :=
  let last := List.last (first :: rest) first in
  bind (_create_checkin_for_punch w geo emp d first IN) (fun _ =>
  bind (if negb (Nat.eqb (punch_name last) (punch_name first))
        then _create_checkin_for_punch w geo emp d last OUT
        else ret tt) (fun _ =>
  for_each (fun p => modify (fun s =>
              mkRState (update_punch (punch_name p) mark_synced (store s))
                       (created s) (already_synced s)))
           (middle_of first last (first :: rest)))).

(** ** The writes of a run *)

(** The device number [emp_no] resolves to the Active Employee [row]. *)
Definition resolved (st : Store) (emp_no : option string) (row : Employee) : Prop :=
  str_truthy emp_no = true
  /\ get_employee st emp_no = Some row
  /\ status row = "Active"%string.

(** One write of the reducer.  [from emp_no d punch] says which punches
    (of which group) the writes may come from.
    - [write_already]: the Checkin Event of a boundary punch exists; the
      punch is marked and counted in [already_synced];
    - [write_created]: the event of a boundary punch is inserted, the
      punch is marked and linked, and [created] counts it;
    - [write_middle]: a punch between the boundaries is marked. *)
Inductive write (w : ReducerWorld) (geo : Coord * Coord)
          (from : option string -> Date -> Row -> Prop) : RState -> RState -> Prop :=
| write_already s emp_no row the_date punch dt :
    from emp_no the_date punch ->
    resolved (store s) emp_no row ->
    get_datetime w the_date (punch_time punch) = Some dt ->
    checkin_exists (store s) (e_name row) dt = true ->
    write w geo from s
      (mkRState (update_punch (punch_name punch) mark_synced (store s))
                (created s) (S (already_synced s)))
| write_created s emp_no row the_date punch lt dt :
    from emp_no the_date punch ->
    resolved (store s) emp_no row ->
    get_datetime w the_date (punch_time punch) = Some dt ->
    checkin_exists (store s) (e_name row) dt = false ->
    insert_ok w (store s) (new_checkin w geo (e_name row) dt punch lt) = true ->
    write w geo from s
      (mkRState
         (update_punch (punch_name punch)
            (mark_synced_linked
               (when (punch_has_employee_checkin (columns w)) (next_name (store s))))
            (insert_checkin
               (with_name (new_checkin w geo (e_name row) dt punch lt) (next_name (store s)))
               (store s)))
         (S (created s)) (already_synced s))
| write_middle s emp_no the_date punch :
    from emp_no the_date punch ->
    write w geo from s
      (mkRState (update_punch (punch_name punch) mark_synced (store s))
                (created s) (already_synced s)).

(** A sequence of writes. *)
Inductive writes (w : ReducerWorld) (geo : Coord * Coord)
          (from : option string -> Date -> Row -> Prop) : RState -> RState -> Prop :=
| writes_none s : writes w geo from s s
| writes_step s1 s2 s3 :
    write w geo from s1 s2 -> writes w geo from s2 s3 -> writes w geo from s1 s3.

(** The punches a run may write from: the rows it selected, each under the
    key of its group. *)
Definition selected (st : Store) (emp_no : option string) (d : Date) (punch : Row) : Prop :=
  In punch (select_unsynced st) /\ employee_no punch = emp_no /\ event_date punch = d.

(** A Checkin Event as the reducer builds it from the row [punch] of an
    Active Employee: employee, time, back-links and device id come from the
    row, the coordinates from [geo]. *)
Definition built_from (w : ReducerWorld) (geo : Coord * Coord) (st : Store)
           (punch : Row) (c : EmployeeCheckin) : Prop :=
  exists row lt n,
    resolved st (employee_no punch) row
    /\ get_datetime w (event_date punch) (punch_time punch) = Some (time c)
    /\ c = with_name (new_checkin w geo (e_name row) (time c) punch lt) n.

(** [g] changes nothing of a punch but its synced flag, which it can only
    set, and its link to a Checkin Event. *)
Definition flags_only (g : Punch -> Punch) : Prop :=
  forall p,
    p_name (g p) = p_name p
    /\ p_punch_time (g p) = p_punch_time p
    /\ p_punch_type (g p) = p_punch_type p
    /\ p_device_id (g p) = p_device_id p
    /\ (g p = p \/ p_synced_to_employee_checkin (g p) = Some true).

End Reducer.

(* ===================================================================== *)
(** * Attendance ingest: [_sync_for_single_device] *)
(* ===================================================================== *)

Module Ingest.

(** An entry of [InfoList]; [ev_time] is the key ["time"]. *)
Record Event := mkEvent {
  employeeNoString : option string;
  ev_time : option string
}.

(** The request body [{"AcsEventCond": {...}}]. *)
Record AcsEventCond := mkCond {
  searchID : string;
  searchResultPosition : nat;
  maxResults : nat;
  major : Z;
  minor : Z;
  startTime : string;
  endTime : string
}.

(** The object under ["AcsEvent"] of a response; a missing key is [None]. *)
Record AcsEvent := mkAcsEvent {
  totalMatches : option Z;
  InfoList : option (list Event)
}.

(** A response; [json] is [None] when the body does not decode. *)
Record Response := mkResponse {
  status_code : Z;
  json : option AcsEvent
}.

(** What a device sync takes from outside the repository:
    - the schema ([frappe.db.has_column]);
    - [post sent payload]: the device's answer to [requests.post] of
      [payload] after the requests [sent] (digest authentication and
      transport are the device's side);
    - [strptime text]: [datetime.strptime(text, "%Y-%m-%dT%H:%M:%S")],
      [None] when it raises ValueError;
    - [save_ok st doc]: whether [doc.save(ignore_permissions=True)] goes
      through on store [st]. *)
Record IngestWorld := mkIngestWorld {
  log_has_device_id : bool;
  punch_has_device_id : bool;
  post : list AcsEventCond -> AcsEventCond -> Response;
  strptime : string -> option DateTime;
  save_ok : Store -> AttendanceLog -> bool
}.

(** The store, the requests posted so far, and the two counters. *)
Record IState := mkIState {
  store : Store;
  sent : list AcsEventCond;
  count : nat;
  skipped : nat
}.

Definition batch_size : nat := 30.

(** [frappe.get_all("Biometric Attendance Log", filters={"employee_no": …,
    "event_date": …}, limit_page_length=1)]: one matching log, if any. *)
Definition get_all (st : Store) (emp_no : option string) (d : Date) : option AttendanceLog :=
  find (fun l => ostr_eqb (l_employee_no l) emp_no && date_eqb (l_event_date l) d)
       (logs st).

(** [frappe.get_doc("Biometric Attendance Log", name)]. *)
Definition get_doc (st : Store) (name : Name) : option AttendanceLog :=
  find (fun l => Nat.eqb (l_name l) name) (logs st).

(** [SELECT COUNT( * ) … WHERE parent = %(parent)s AND punch_time = %(punch_time)s]. *)
Definition count_punches (st : Store) (parent : Name) (t : timedelta) : nat :=
  List.length
    (flat_map (fun l =>
       if Nat.eqb (l_name l) parent
       then filter (fun p => opt_eqb Z.eqb (p_punch_time p) (Some t)) (punch_table l)
       else [])
     (logs st)).

(** The child row [doc.append("punch_table", punch_row)] makes. *)
Definition new_punch (w : IngestWorld) (ip : string) (name : Name) (t : timedelta) : Punch :=
  mkPunch name (Some t) (Some "Auto"%string)
          (if punch_has_device_id w then Some ip else None)
          (Some false) None.

Definition append_punch (doc : AttendanceLog) (p : Punch) : AttendanceLog :=
  mkLog (l_name doc) (l_employee_no doc) (l_event_date doc) (l_device_id doc)
        (punch_table doc ++ [p]).

Definition set_device_id (doc : AttendanceLog) (ip : string) : AttendanceLog :=
  mkLog (l_name doc) (l_employee_no doc) (l_event_date doc) (Some ip) (punch_table doc).

(** [doc.save] of a log that is in the store: the document replaces the
    stored one of its name; the new child row took the next name. *)
Definition save_existing (doc : AttendanceLog) (st : Store) : Store :=
  mkStore (map (fun l => if Nat.eqb (l_name l) (l_name doc) then doc else l) (logs st))
          (employees st) (checkins st) (S (next_name st)).

(** [doc.save] of a new log: the log and its child row are inserted. *)
Definition save_new (doc : AttendanceLog) (st : Store) : Store :=
  mkStore (logs st ++ [doc]) (employees st) (checkins st) (S (S (next_name st))).

Section Device.

Variable w : IngestWorld.
Variables label ip : string.

Local Open Scope run_scope.

Definition bump_count (s : IState) (st : Store) : IState :=
  mkIState st (sent s) (S (count s)) (skipped s).

(** The body of [for log in events]. *)
Definition process_event (log : Event) : M IState unit :=
  let emp_no := employeeNoString log in
  let event_timestamp := match ev_time log with Some t => t | None => ""%string end in
  if negb (str_truthy emp_no) || negb (str_truthy (Some event_timestamp)) then ret tt
  else
    match strptime w (substring 0 19 event_timestamp) with
    | None => raise ValueError
    | Some event_datetime =>
        let the_date := fst event_datetime in
        let the_time := snd event_datetime in
        st <- gets store ;;
        match get_all st emp_no the_date with
        | Some found =>
            match get_doc st (l_name found) with
            | None => raise DoesNotExistError
            | Some loaded =>
                let doc := if log_has_device_id w then set_device_id loaded ip else loaded in
                let existing_punch := (0 <? count_punches st (l_name doc) the_time)%nat in
                if negb existing_punch then
                  let doc' := append_punch doc (new_punch w ip (next_name st) the_time) in
                  if save_ok w st doc'
                  then modify (fun s => bump_count s (save_existing doc' st))
                  else ret tt
                else modify (fun s => mkIState (store s) (sent s) (count s) (S (skipped s)))
            end
        | None =>
            let name := next_name st in
            let doc := mkLog name emp_no the_date
                             (if log_has_device_id w then Some ip else None) [] in
            let doc' := append_punch doc (new_punch w ip (S name) the_time) in
            if save_ok w st doc'
            then modify (fun s => bump_count s (save_new doc' st))
            else ret tt
        end
    end.

Definition events_of (r : AcsEvent) : list Event :=
  match InfoList r with Some l => l | None => [] end.

Definition total_of (r : AcsEvent) : Z :=
  match totalMatches r with Some n => n | None => 0%Z end.

Definition page_request (payload : AcsEventCond) (position : nat) : AcsEventCond :=
  mkCond (searchID payload) position batch_size (major payload) (minor payload)
         (startTime payload) (endTime payload).

(** The [while True] loop; [fuel] bounds the number of pages and [None]
    means that it ran out. *)
Fixpoint page_loop (fuel : nat) (payload : AcsEventCond) (position : nat)
         (s : IState) : option (IState * outcome unit) :=
  match fuel with
  | O => None
  | S fuel' =>
      let payload' := page_request payload position in
      let response := post w (sent s) payload' in
      let s1 := mkIState (store s) (sent s ++ [payload']) (count s) (skipped s) in
      if negb (status_code response =? 200)%Z
      then Some (s1, Raise (Thrown (HTTPStatusError label (status_code response))))
      else
        match json response with
        | None => Some (s1, Raise JSONDecodeError)
        | Some data =>
            let events := events_of data in
            match events with
            | [] => Some (s1, Return tt)
            | _ :: _ =>
                match for_each process_event events s1 with
                | (s2, Raise e) => Some (s2, Raise e)
                | (s2, Return _) =>
                    let position' := (position + List.length events)%nat in
                    if (List.length events <? batch_size)%nat
                    then Some (s2, Return tt)
                    else page_loop fuel' payload' position' s2
                end
            end
        end
  end.

Definition initial_payload (start_time end_time : string) : AcsEventCond :=
  mkCond "123456789" 0 1 5 75 start_time end_time.

Definition _sync_for_single_device (fuel : nat) (start_time end_time : string)
           (st : Store) : option (IState * outcome (nat * nat)) :=
  let payload := initial_payload start_time end_time in
  let response := post w [] payload in
  let s0 := mkIState st [payload] 0 0 in
  if negb (status_code response =? 200)%Z
  then Some (s0, Raise (Thrown (HTTPStatusError label (status_code response))))
  else
    match json response with
    | None => Some (s0, Raise JSONDecodeError)
    | Some data =>
        let total_records := total_of data in
        if (total_records =? 0)%Z then Some (s0, Return (0, 0))
        else if (1500 <? total_records)%Z
        then Some (s0, Raise (Thrown (TooManyRecords label total_records)))
        else
          match page_loop fuel payload 0 s0 with
          | None => None
          | Some (s, Return _) => Some (s, Return (count s, skipped s))
          | Some (s, Raise e) => Some (s, Raise e)
          end
    end.

End Device.

(** ** Predicates of the statements *)

(** Log names are unique and below the name counter (they are primary
    keys drawn from it). *)
Definition ingest_wf (st : Store) : Prop :=
  NoDup (map l_name (logs st))
  /\ Forall (fun l => l_name l < next_name st) (logs st).

(** The dedup key of an event, when the event has an employee number and
    a timestamp that parses: employee number, date and time of day. *)
Definition event_key (w : IngestWorld) (log : Event)
  : option (option string * Date * timedelta) :=
  match ev_time log with
  | Some ts =>
      if str_truthy (employeeNoString log) && str_truthy (Some ts)
      then match strptime w (substring 0 19 ts) with
           | Some dt => Some (employeeNoString log, fst dt, snd dt)
           | None => None
           end
      else None
  | None => None
  end.

(** [existing_punch] as the loop computes it for a key on a store. *)
Definition existing_punch (st : Store) (emp_no : option string) (d : Date)
           (t : timedelta) : bool :=
  match get_all st emp_no d with
  | Some found =>
      match get_doc st (l_name found) with
      | Some loaded => (0 <? count_punches st (l_name loaded) t)%nat
      | None => false
      end
  | None => false
  end.

(** The document that [doc.save] is called on for a key that has no
    punch yet, and the store after a save that went through. *)
Definition built_doc (w : IngestWorld) (ip : string) (st : Store)
           (emp_no : option string) (d : Date) (t : timedelta) : AttendanceLog :=
  match get_all st emp_no d with
  | Some found =>
      append_punch (if log_has_device_id w then set_device_id found ip else found)
                   (new_punch w ip (next_name st) t)
  | None =>
      append_punch (mkLog (next_name st) emp_no d
                          (if log_has_device_id w then Some ip else None) [])
                   (new_punch w ip (S (next_name st)) t)
  end.

Definition saved (w : IngestWorld) (ip : string) (st : Store)
           (emp_no : option string) (d : Date) (t : timedelta) : Store :=
  match get_all st emp_no d with
  | Some _ => save_existing (built_doc w ip st emp_no d t) st
  | None => save_new (built_doc w ip st emp_no d t) st
  end.

(** Whether an outcome is a return. *)
Definition returned {A} (o : outcome A) : bool :=
  match o with Return _ => true | Raise _ => false end.

(** The keys of the stored punches. *)
Definition store_keys (st : Store) : list (option string * Date * timedelta) :=
  flat_map (fun l =>
    flat_map (fun p =>
      match p_punch_time p with
      | Some t => [(l_employee_no l, l_event_date l, t)]
      | None => []
      end) (punch_table l))
    (logs st).

(** Every event has a key; the keys differ from one another; no key has
    a punch in the store yet. *)
Definition well_formed (w : IngestWorld) (evs : list Event) : Prop :=
  Forall (fun ev => event_key w ev <> None) evs.

Definition distinct (w : IngestWorld) (evs : list Event) : Prop :=
  NoDup (map (event_key w) evs).

Definition fresh (w : IngestWorld) (evs : list Event) (st : Store) : Prop :=
  forall ev k, In ev evs -> event_key w ev = Some k -> ~ In k (store_keys st).

(** The punches stored since [s] are the ones counted since [s]. *)
Definition accounted (s s' : IState) : Prop :=
  ingest_wf (store s')
  /\ List.length (all_punches (store s')) + count s
     = List.length (all_punches (store s)) + count s'.

(** Two keys are the same. *)
Definition same_key (emp_no' : option string) (d' : Date) (t' : timedelta)
           (emp_no : option string) (d : Date) (t : timedelta) : bool :=
  ostr_eqb emp_no' emp_no && date_eqb d' d && (t' =? t)%Z.

(** The punches of a log that carry the time [t]. *)
Definition punches_at (t : timedelta) (l : AttendanceLog) : list Punch :=
  filter (fun p => opt_eqb Z.eqb (p_punch_time p) (Some t)) (punch_table l).

(** The device holds the events [evs] and answers every request with
    status 200, their number and the page asked for. *)
Definition serves (w : IngestWorld) (evs : list Event) : Prop :=
  forall sent payload,
    post w sent payload
    = mkResponse 200 (Some (mkAcsEvent
        (Some (Z.of_nat (List.length evs)))
        (Some (firstn (maxResults payload) (skipn (searchResultPosition payload) evs))))).

(** The events of the answer to [payload] after the requests [sent]. *)
Definition page_of (w : IngestWorld) (sent : list AcsEventCond) (payload : AcsEventCond)
  : option (list Event) :=
  let response := post w sent payload in
  if (status_code response =? 200)%Z
  then match json response with
       | Some data => Some (events_of data)
       | None => None
       end
  else None.

(** The page requests of a loop that starts at [position] after the
    requests [sent]: every request asks for [batch_size] events; a page of
    [batch_size] events or more is followed by the request at the position
    advanced by the number of events it returned; the loop returns
    ([true]) at the first page with fewer events, and not before. *)
Inductive paging (w : IngestWorld) (payload : AcsEventCond)
  : list AcsEventCond -> nat -> list AcsEventCond -> bool -> Prop :=
| paging_last sent position events :
    page_of w sent (page_request payload position) = Some events ->
    List.length events < batch_size ->
    paging w payload sent position [page_request payload position] true
| paging_more sent position events requests returned :
    page_of w sent (page_request payload position) = Some events ->
    batch_size <= List.length events ->
    paging w payload (sent ++ [page_request payload position])
           (position + List.length events) requests returned ->
    paging w payload sent position (page_request payload position :: requests) returned
| paging_raised sent position :
    paging w payload sent position [page_request payload position] false.

(** The saves of a device sync, one after the other: each appends, for
    a key that has no punch yet, the punch to the log of the key or to a
    new one. *)
Inductive saves (w : IngestWorld) (ip : string) : Store -> Store -> Prop :=
| saves_none st : saves w ip st st
| saves_step st emp_no d t st' :
    str_truthy emp_no = true ->
    existing_punch st emp_no d t = false ->
    save_ok w st (built_doc w ip st emp_no d t) = true ->
    saves w ip (saved w ip st emp_no d t) st' ->
    saves w ip st st'.

(** A punch as the ingest makes it: a device punch with a time, not yet
    synced and without a Checkin Event. *)
Definition ingest_punch (p : Punch) : Prop :=
  p_punch_type p = Some "Auto"%string
  /\ p_synced_to_employee_checkin p = Some false
  /\ p_employee_checkin p = None
  /\ p_punch_time p <> None.

(** The log [l'] is the log [l] with punches of the ingest appended. *)
Definition kept (l l' : AttendanceLog) : Prop :=
  l_name l' = l_name l
  /\ l_employee_no l' = l_employee_no l
  /\ l_event_date l' = l_event_date l
  /\ exists more, punch_table l' = punch_table l ++ more /\ Forall ingest_punch more.

(** The store [st'] is [st] with punches and logs of the ingest added:
    Employees and Checkin Events are the same, every log is kept in its
    place, and the logs after them hold ingest punches only. *)
Definition extends (st st' : Store) : Prop :=
  employees st' = employees st
  /\ checkins st' = checkins st
  /\ exists olds news,
       logs st' = olds ++ news
       /\ Forall2 kept (logs st) olds
       /\ Forall (fun l => str_truthy (l_employee_no l) = true
                           /\ Forall ingest_punch (punch_table l)) news.

(** At most one log per employee number and date; no log holds two
    punches of the same time. *)
Definition one_log_per_day (st : Store) : Prop :=
  NoDup (map (fun l => (l_employee_no l, l_event_date l)) (logs st)).

Definition no_repeated_time (st : Store) : Prop :=
  Forall (fun l => NoDup (map p_punch_time (punch_table l))) (logs st).

(** The state [s] with the requests [snt] as its trace. *)
Definition with_sent (s : IState) (snt : list AcsEventCond) : IState :=
  mkIState (store s) snt (count s) (skipped s).

(** An event that has an employee number and a timestamp of which the
    first 19 characters do not parse. *)
Definition unparsable (w : IngestWorld) (log : Event) : Prop :=
  str_truthy (employeeNoString log) = true
  /\ exists ts, ev_time log = Some ts /\ str_truthy (Some ts) = true
                /\ strptime w (substring 0 19 ts) = None.

(** The key of every event has a punch in the store. *)
Definition all_stored (w : IngestWorld) (evs : list Event) (st : Store) : Prop :=
  forall ev emp_no d t, In ev evs -> event_key w ev = Some (emp_no, d, t) ->
    existing_punch st emp_no d t = true.

End Ingest.

(* ===================================================================== *)
(** * Device pass: [_get_device_configs], [sync_attendance_device_only],
      [sync_attendance] *)
(* ===================================================================== *)

Module DevicePass.

Import Ingest.

(** A row of the child table [devices] of the settings;
    [is_active] is the truth value of [getattr(d, "is_active", 0)]. *)
Record DeviceRow := mkDeviceRow {
  device : option string;
  ip_address : option string;
  row_username : option string;
  is_active : bool
}.

(** The single document `Biometric Integration Settings`. *)
Record SettingsDoc := mkSettings {
  devices : list DeviceRow;
  ip : option string;
  username : option string;
  start_date_and_time : option string;
  end_date_and_time : option string
}.

(** [(label, ip, username, password)]. *)
Record Config := mkConfig {
  cfg_label : string;
  cfg_ip : string;
  cfg_username : option string;
  cfg_password : string
}.

(** What leaves the functions of the device pass: [get_password] or
    the conversion of a date raised, [frappe.throw] of "No device
    configured", or an exception of a device sync or of the reducer. *)
Inductive failure :=
| PasswordError
| DateError
| NoDeviceConfigured
| Raised (e : exn).

Inductive result (A : Type) :=
| Ok (a : A)
| Err (f : failure).
Arguments Ok {A} a.
Arguments Err {A} f.

(** What the device pass takes from outside the repository:
    - the schema, [strptime] and [doc.save] as for one device;
    - [request ip username password sent payload]: the answer of the
      device at [ip] to [requests.post] of [payload] with these
      credentials, after the requests [sent] of the same sync;
    - [row_password d] and [main_password]: [get_password("password")] of
      a row and of the settings, [None] when it raises;
    - [to_device_time text]:
      [datetime.strptime(text, "%Y-%m-%d %H:%M:%S").strftime("%Y-%m-%dT%H:%M:%S+08:00")],
      [None] when it raises. *)
Record PassWorld := mkPassWorld {
  pw_log_has_device_id : bool;
  pw_punch_has_device_id : bool;
  request : string -> option string -> string
            -> list AcsEventCond -> AcsEventCond -> Response;
  pw_strptime : string -> option DateTime;
  pw_save_ok : Store -> AttendanceLog -> bool;
  row_password : DeviceRow -> option string;
  main_password : option string;
  to_device_time : option string -> option string
}.

(** The text of a string that may be [None]. *)
Definition text (o : option string) : string :=
  match o with Some s => s | None => ""%string end.

(** The loop over [settings.devices], [devices] being the list built so
    far. *)
Fixpoint device_rows (pw : PassWorld) (settings : SettingsDoc) (rows : list DeviceRow)
         (devices : list Config) : result (list Config) :=
  match rows with
  | [] => Ok devices
  | d :: rest =>
      if is_active d then
        let ip := ip_address d in
        let username := Reducer.str_or (row_username d) (username settings) in
        match row_password pw d with
        | None => Err PasswordError
        | Some pwd =>
            if str_truthy ip
            then device_rows pw settings rest
                   (devices ++ [mkConfig (text (Reducer.str_or (device d) ip)) (text ip)
                                         username pwd])
            else device_rows pw settings rest devices
        end
      else device_rows pw settings rest devices
  end.

Definition _get_device_configs (pw : PassWorld) (settings : SettingsDoc)
  : result (list Config) :=
  match device_rows pw settings (DevicePass.devices settings) [] with
  | Err f => Err f
  | Ok devices =>
      match devices with
      | [] =>
          if str_truthy (ip settings) then
            match main_password pw with
            | None => Err PasswordError
            | Some pwd =>
                Ok (devices ++ [mkConfig "Main Device" (text (ip settings))
                                         (username settings) pwd])
            end
          else Ok devices
      | _ :: _ => Ok devices
      end
  end.

(** The world of the sync of one device. *)
Definition device_world (pw : PassWorld) (cfg : Config) : IngestWorld :=
  mkIngestWorld (pw_log_has_device_id pw) (pw_punch_has_device_id pw)
                (request pw (cfg_ip cfg) (cfg_username cfg) (cfg_password cfg))
                (pw_strptime pw) (pw_save_ok pw).

(** The loop over the device configurations; an exception of a device
    sync leaves the loop.  [fuel] bounds the pages of one device. *)
Fixpoint sync_devices (pw : PassWorld) (fuel : nat) (start_time end_time : string)
         (device_configs : list Config) (st : Store) (total_count total_skipped : nat)
  : option (Store * result (nat * nat)) :=
  match device_configs with
  | [] => Some (st, Ok (total_count, total_skipped))
  | cfg :: rest =>
      match _sync_for_single_device (device_world pw cfg) (cfg_label cfg) (cfg_ip cfg)
                                    fuel start_time end_time st with
      | None => None
      | Some (s, Raise e) => Some (store s, Err (Raised e))
      | Some (s, Return (c, k)) =>
          sync_devices pw fuel start_time end_time rest (store s)
                       (total_count + c) (total_skipped + k)
      end
  end.

(** [sync_attendance_device_only]; the message it returns is made of
    the two totals, which the model returns. *)
Definition sync_attendance_device_only (pw : PassWorld) (fuel : nat)
           (settings : SettingsDoc) (st : Store) : option (Store * result (nat * nat)) :=
  match to_device_time pw (start_date_and_time settings) with
  | None => Some (st, Err DateError)
  | Some start_time =>
      match to_device_time pw (end_date_and_time settings) with
      | None => Some (st, Err DateError)
      | Some end_time =>
          match _get_device_configs pw settings with
          | Err f => Some (st, Err f)
          | Ok [] => Some (st, Err NoDeviceConfigured)
          | Ok device_configs =>
              sync_devices pw fuel start_time end_time device_configs st 0 0
          end
      end
  end.

(** [sync_attendance]: the device pass and then the reducer; the
    message is made of the totals of the one and the counters of the
    other. *)
Definition sync_attendance (rw : Reducer.ReducerWorld) (pw : PassWorld) (fuel : nat)
           (settings : SettingsDoc) (st : Store)
  : option (Store * result ((nat * nat) * (nat * nat))) :=
  match sync_attendance_device_only pw fuel settings st with
  | None => None
  | Some (st1, Err f) => Some (st1, Err f)
  | Some (st1, Ok totals) =>
      match Reducer.sync_punches_to_employee_checkin rw st1 with
      | (st2, Return counters) => Some (st2, Ok (totals, counters))
      | (st2, Raise e) => Some (st2, Err (Raised e))
      end
  end.

(** ** Predicates of the statements *)

(** The rows of the table that give a configuration. *)
Definition configured (d : DeviceRow) : bool :=
  is_active d && str_truthy (ip_address d).

(** The configuration of a row of the table. *)
Definition config_of (pw : PassWorld) (settings : SettingsDoc) (d : DeviceRow)
           (cfg : Config) : Prop :=
  cfg_label cfg = text (if str_truthy (device d) then device d else ip_address d)
  /\ Some (cfg_ip cfg) = ip_address d
  /\ cfg_username cfg = (if str_truthy (row_username d) then row_username d
                         else username settings)
  /\ row_password pw d = Some (cfg_password cfg).

End DevicePass.

(* ===================================================================== *)
(** * Sample data for the examples *)
(* ===================================================================== *)

Module Sample.

Import Reducer.

(** A schema with every optional column. *)
Definition all_columns : Columns := mkColumns true true true true true true true true.

(** [get_datetime] on a date and a time of day: the date and time it
    denotes, and a parse error when the time is missing. *)
Definition combine (d : Date) (t : option timedelta) : option DateTime :=
  match t with
  | Some us => if ((0 <=? us) && (us <? 86400000000))%Z then Some (d, us) else None
  | None => None
  end.

(** A world whose geolocation provider is down and whose inserts go through. *)
Definition world : ReducerWorld := mkReducerWorld all_columns None combine (fun _ _ => true).

(** A world in which the Checkin Events of HR-EMP-2 are refused. *)
Definition world_refusing : ReducerWorld :=
  mkReducerWorld all_columns None combine
    (fun _ c => negb (String.eqb (employee c) "HR-EMP-2")).

Definition jan15 : Date := mkDate 2024 1 15.

Definition punch_at (n : Name) (t : timedelta) : Punch :=
  mkPunch n (Some t) (Some "Auto"%string) (Some "10.0.0.1"%string) (Some false) None.

Definition staff : list Employee :=
  [mkEmployee "HR-EMP-1" (Some "7"%string) "Active";
   mkEmployee "HR-EMP-2" (Some "8"%string) "Active";
   mkEmployee "HR-EMP-3" (Some "9"%string) "Left";
   mkEmployee "HR-EMP-4" (Some "85"%string) "Active"].

(** Employee 7 punched at 12:00, 08:00, 17:30 and 13:00 (in the order the
    device reported them). *)
Definition four_punches : Store :=
  mkStore
    [mkLog 1 (Some "7"%string) jan15 None
       [punch_at 2 (hms 12 0 0); punch_at 3 (hms 8 0 0);
        punch_at 4 (hms 17 30 0); punch_at 5 (hms 13 0 0)]]
    staff [] 6.

(** The same day when a Checkin Event at 08:00 is already there. *)
Definition four_punches_one_checkin : Store :=
  mkStore (logs four_punches) staff
    [mkCheckin 6 "HR-EMP-1" (jan15, hms 8 0 0) IN None None None None None None None]
    7.

(** One punch each for the employees 7, 8, 9, for the unknown number 99
    and for employee 85. *)
Definition four_employees : Store :=
  mkStore
    [mkLog 1 (Some "7"%string) jan15 None [punch_at 2 (hms 8 0 0)];
     mkLog 3 (Some "8"%string) jan15 None [punch_at 4 (hms 8 5 0)];
     mkLog 5 (Some "9"%string) jan15 None [punch_at 6 (hms 8 10 0)];
     mkLog 7 (Some "99"%string) jan15 None [punch_at 8 (hms 8 15 0)];
     mkLog 9 (Some "85"%string) jan15 None [punch_at 10 (hms 8 20 0)]]
    staff [] 11.

(** A midnight punch and a morning punch of employee 7. *)
Definition midnight_punch : Store :=
  mkStore
    [mkLog 1 (Some "7"%string) jan15 None
       [punch_at 2 (hms 0 0 0); punch_at 3 (hms 8 0 0)]]
    staff [] 4.

(** *** Devices *)

Import Ingest.

Definition digit (c : ascii) : option Z :=
  let n := Z.of_nat (nat_of_ascii c) in
  if ((48 <=? n) && (n <=? 57))%Z then Some (n - 48)%Z else None.

Definition two_digits (s : string) (i : nat) : option Z :=
  match String.get i s, String.get (S i) s with
  | Some a, Some b =>
      match digit a, digit b with
      | Some x, Some y => Some (10 * x + y)%Z
      | _, _ => None
      end
  | _, _ => None
  end.

(** [strptime(text, "%Y-%m-%dT%H:%M:%S")] on the fixed-width form
    [YYYY-MM-DDTHH:MM:SS] that the devices send (for a valid date and
    time); other texts are refused. *)
Definition parse19 (s : string) : option DateTime :=
  if negb (String.length s =? 19)%nat then None
  else
    match two_digits s 0, two_digits s 2, two_digits s 5, two_digits s 8,
          two_digits s 11, two_digits s 14, two_digits s 17 with
    | Some c, Some y, Some m, Some d, Some h, Some mi, Some se =>
        if String.eqb (substring 4 1 s) "-" && String.eqb (substring 7 1 s) "-"
           && String.eqb (substring 10 1 s) "T" && String.eqb (substring 13 1 s) ":"
           && String.eqb (substring 16 1 s) ":"
        then Some (mkDate (100 * c + y) m d, hms h mi se)
        else None
    | _, _, _, _, _, _, _ => None
    end.

(** A device that holds the events [evs]. *)
Definition device_of (evs : list Event) (sent : list AcsEventCond) (payload : AcsEventCond)
  : Response :=
  mkResponse 200
    (Some (mkAcsEvent (Some (Z.of_nat (List.length evs)))
                      (Some (firstn (maxResults payload)
                                    (skipn (searchResultPosition payload) evs))))).

(** A device that reports [n] matches. *)
Definition device_reporting (n : Z) (sent : list AcsEventCond) (payload : AcsEventCond)
  : Response :=
  mkResponse 200 (Some (mkAcsEvent (Some n) (Some []))).

Definition event_at (emp_no ts : string) : Event := mkEvent (Some emp_no) (Some ts).

(** Employee 7 at 08:00:00.100, at 08:00:00.900 and at 08:00:01. *)
Definition close_events : list Event :=
  [event_at "7" "2024-01-15T08:00:00.100+05:00";
   event_at "7" "2024-01-15T08:00:00.900+05:00";
   event_at "7" "2024-01-15T08:00:01+05:00"].

(** Employees 7, 8 and 7 again. *)
Definition three_events : list Event :=
  [event_at "7" "2024-01-15T08:00:00+05:00";
   event_at "8" "2024-01-15T08:05:00+05:00";
   event_at "7" "2024-01-15T17:30:00+05:00"].

(** The [i]-th of a run of events of employee 7, one second apart, from
    00:10:10 on ([i] below 3000). *)
Definition event_no (i : nat) : Event :=
  event_at "7"
    ("2024-01-15T00:" ++ NilZero.string_of_uint (Nat.to_uint (10 + i / 50))
     ++ ":" ++ NilZero.string_of_uint (Nat.to_uint (10 + i mod 50)) ++ "+05:00").

(** A world with the device [dev] whose saves go through. *)
Definition ingest_world (dev : list AcsEventCond -> AcsEventCond -> Response) : IngestWorld :=
  mkIngestWorld true true dev parse19 (fun _ _ => true).

(** A world in which the logs of employee 8 cannot be saved. *)
Definition ingest_world_failing (dev : list AcsEventCond -> AcsEventCond -> Response)
  : IngestWorld :=
  mkIngestWorld true true dev parse19
    (fun _ doc => negb (ostr_eqb (l_employee_no doc) (Some "8"%string))).

Definition empty_store : Store := mkStore [] [] [] 0.

(** Employee 7 at 08:00, employee 8 with a timestamp that is no date,
    employee 7 at 17:30. *)
Definition events_with_garbage : list Event :=
  [event_at "7" "2024-01-15T08:00:00+05:00";
   event_at "8" "yesterday";
   event_at "7" "2024-01-15T17:30:00+05:00"].

(** ** Devices *)

(** The device at 10.0.0.1 holds [three_events] and asks for the
    password "pw-entrance"; every other request is answered with status 401.
    The row "Spare" has no password stored. *)
Definition pass_world : DevicePass.PassWorld :=
  DevicePass.mkPassWorld true true
    (fun ip _ password =>
       if String.eqb ip "10.0.0.1" && String.eqb password "pw-entrance"
       then device_of three_events
       else fun _ _ => Ingest.mkResponse 401 None)
    parse19 (fun _ _ => true)
    (fun d =>
       if String.eqb (DevicePass.text (DevicePass.device d)) "Spare" then None
       else if ostr_eqb (DevicePass.ip_address d) (Some "10.0.0.1"%string)
            then Some "pw-entrance"%string else Some "pw-2"%string)
    (Some "pw-main"%string)
    (fun o =>
       match o with
       | Some s =>
           if (String.length s =? 19)%nat
           then Some (substring 0 10 s ++ "T" ++ substring 11 8 s ++ "+08:00")%string
           else None
       | None => None
       end).

Definition entrance : DevicePass.DeviceRow :=
  DevicePass.mkDeviceRow (Some "Entrance"%string) (Some "10.0.0.1"%string) None true.

Definition settings_with (rows : list DevicePass.DeviceRow) (ip : option string)
  : DevicePass.SettingsDoc :=
  DevicePass.mkSettings rows ip (Some "admin"%string)
    (Some "2024-01-15 00:00:00"%string) (Some "2024-01-15 23:59:59"%string).

(** Two active rows with an IP and a row that is not active. *)
Definition two_devices : DevicePass.SettingsDoc :=
  settings_with
    [entrance;
     DevicePass.mkDeviceRow None (Some "10.0.0.2"%string) (Some "guard"%string) true;
     DevicePass.mkDeviceRow (Some "Old"%string) (Some "10.0.0.3"%string) None false]
    (Some "10.0.0.9"%string).

(** The active row "Spare" has neither an IP nor a password. *)
Definition row_without_ip : DevicePass.SettingsDoc :=
  settings_with [entrance; DevicePass.mkDeviceRow (Some "Spare"%string) None None true]
                (Some "10.0.0.9"%string).

Definition one_device : DevicePass.SettingsDoc := settings_with [entrance] None.

(** An active row without IP and no IP in the settings. *)
Definition no_device : DevicePass.SettingsDoc :=
  settings_with [DevicePass.mkDeviceRow (Some "Desk"%string) None None true] None.

(** The device pass over [one_device] from the empty store. *)
Definition after_entrance : Store * DevicePass.result (nat * nat) :=
  match DevicePass.sync_attendance_device_only pass_world 5 one_device empty_store with
  | Some r => r
  | None => (empty_store, DevicePass.Err DevicePass.DateError)
  end.

(** A device with two pages: thirty events one second apart, then the
    first of them once more and one event more. *)
Definition first_page : list Event := map event_no (seq 0 30).

Definition second_page : list Event := [event_no 0; event_no 30].

(** The store that holds the Employees [staff] and nothing else. *)
Definition staff_store : Store := mkStore [] staff [] 0.

End Sample.

(* ===================================================================== *)
(** * Properties *)
(* ===================================================================== *)

Module StoreFacts.

(** ** Boolean equalities *)

Lemma date_eqb_eq (a b : Date) : date_eqb a b = true <-> a = b.
Proof.
  unfold date_eqb. destruct a as [y m d], b as [y' m' d']; cbn.
  rewrite !andb_true_iff, !Z.eqb_eq. split.
  - intros [[-> ->] ->]. reflexivity.
  - intros H. injection H as -> -> ->. auto.
Qed.

Lemma datetime_eqb_eq (a b : DateTime) : datetime_eqb a b = true <-> a = b.
Proof.
  unfold datetime_eqb. destruct a as [d t], b as [d' t']; cbn.
  rewrite andb_true_iff, date_eqb_eq, Z.eqb_eq. split.
  - intros [-> ->]. reflexivity.
  - intros H. injection H as -> ->. auto.
Qed.

Lemma ostr_eqb_eq (a b : option string) : ostr_eqb a b = true <-> a = b.
Proof.
  destruct a as [x|], b as [y|]; cbn; try (split; congruence).
  rewrite String.eqb_eq. split; congruence.
Qed.

Lemma NoDup_snoc {A} (l : list A) (x : A) :
  NoDup l -> ~ In x l -> NoDup (l ++ [x]).
Proof.
  induction l as [|y l IH]; intros Hl Hx; cbn.
  - constructor; [intros []|constructor].
  - inversion Hl as [|? ? Hy Hl']; subst. constructor.
    + intros H. apply in_app_or in H. destruct H as [H|[H|[]]]; [contradiction|].
      subst. apply Hx. now left.
    + apply IH; auto. intros H. apply Hx. now right.
Qed.

Lemma NoDup_app_disjoint {A} (l1 l2 : list A) (x : A) :
  NoDup (l1 ++ l2) -> In x l1 -> In x l2 -> False.
Proof.
  induction l1 as [|y l1 IH]; cbn; intros Hnd H1 H2; [contradiction|].
  inversion Hnd as [|? ? Hy Hnd']; subst. destruct H1 as [->|H1].
  - apply Hy. apply in_or_app. now right.
  - now apply IH.
Qed.

End StoreFacts.

Module ReportFacts.
Import Report.
Local Open Scope Z_scope.

Lemma range_from_pairs (m : nat) : forall (fuel k : nat) (n : nat),
  (m <= fuel)%nat -> (k + m = n)%nat ->
  range_from fuel (2 * Z.of_nat k) (2 * Z.of_nat n - 1) 2
  = map (fun j => Z.of_nat (2 * j)) (seq k m).
Proof.
  induction m as [|m IH]; intros fuel k n Hfuel Hn.
  - cbn [seq map]. destruct fuel as [|fuel]; [reflexivity|]. cbn [range_from].
    destruct (Z.ltb_spec (2 * Z.of_nat k) (2 * Z.of_nat n - 1)); [lia|reflexivity].
  - destruct fuel as [|fuel]; [lia|]. cbn [range_from].
    destruct (Z.ltb_spec (2 * Z.of_nat k) (2 * Z.of_nat n - 1)); [|lia].
    cbn [seq map]. f_equal.
    + lia.
    + replace (2 * Z.of_nat k + 2) with (2 * Z.of_nat (S k)) by lia.
      apply IH; lia.
Qed.

Lemma py_range_pairs (n : nat) :
  py_range 0 (Z.of_nat (2 * n) - 1) 2 = map (fun j => Z.of_nat (2 * j)) (seq 0 n).
Proof.
  unfold py_range.
  replace (Z.of_nat (2 * n) - 1) with (2 * Z.of_nat n - 1) by lia.
  change 0 with (2 * Z.of_nat 0) at 2.
  apply range_from_pairs; lia.
Qed.

Lemma getitem_nat (punches : list PunchRow) (i : nat) :
  getitem punches (Z.of_nat i) = nth_error punches i.
Proof.
  unfold getitem. destruct (Z.ltb_spec (Z.of_nat i) 0); [lia|].
  now rewrite Nat2Z.id.
Qed.

Lemma timed_nth (punches : list PunchRow) (i : nat) :
  all_timed punches -> (i < List.length punches)%nat ->
  exists p t, nth_error punches i = Some p /\ punch_time p = Some t
              /\ minute_at punches i = total_minutes_of t.
Proof.
  intros Ht Hi.
  destruct (nth_error punches i) as [p|] eqn:E.
  - assert (Hin : In p punches) by (eapply nth_error_In; eauto).
    unfold all_timed in Ht. rewrite Forall_forall in Ht. specialize (Ht p Hin).
    destruct (punch_time p) as [t|] eqn:Et; [|congruence].
    exists p, t. repeat split; auto.
    unfold minute_at. now rewrite E, Et.
  - apply nth_error_None in E. lia.
Qed.

Lemma calculate_loop_pairs (punches : list PunchRow) (Ht : all_timed punches) (m : nat) :
  forall (k : nat) (total : Z),
  (2 * (k + m) <= List.length punches)%nat ->
  calculate_loop punches (map (fun j => Z.of_nat (2 * j)) (seq k m)) total
  = total + (pair_minutes_sum punches (k + m) - pair_minutes_sum punches k).
Proof.
  induction m as [|m IH]; intros k total Hlen.
  - cbn [seq map calculate_loop]. rewrite Nat.add_0_r. lia.
  - cbn [seq map calculate_loop].
    replace (Z.of_nat (2 * k) + 1) with (Z.of_nat (2 * k + 1)) by lia.
    rewrite !getitem_nat.
    destruct (timed_nth (i := 2 * k) Ht) as (p_in & t_in & E_in & T_in & M_in); [lia|].
    destruct (timed_nth (i := 2 * k + 1) Ht) as (p_out & t_out & E_out & T_out & M_out); [lia|].
    rewrite E_in, E_out, T_in, T_out. cbv zeta.
    rewrite IH by lia.
    replace (k + S m)%nat with (S k + m)%nat by lia.
    cbn [pair_minutes_sum]. rewrite M_in, M_out. lia.
Qed.

Lemma whole_minute_at (punches : list PunchRow) (i : nat) :
  whole_minutes punches -> time_at punches i = 60000000 * minute_at punches i.
Proof.
  intros Hw. unfold time_at, minute_at.
  destruct (nth_error punches i) as [p|] eqn:E; [|reflexivity].
  destruct (punch_time p) as [t|] eqn:Et; [|reflexivity].
  unfold whole_minutes in Hw. rewrite Forall_forall in Hw.
  specialize (Hw p (nth_error_In _ _ E) t Et).
  unfold total_minutes_of.
  apply Z.mod_divide in Hw; [|lia]. destruct Hw as [q Hq]. subst t.
  rewrite Z.quot_mul by lia. lia.
Qed.

Lemma whole_minutes_sum (punches : list PunchRow) (n : nat) :
  whole_minutes punches ->
  pair_minutes_sum punches n = elapsed_minutes_sum punches n.
Proof.
  intros Hw. induction n as [|n IH]; [reflexivity|].
  cbn [pair_minutes_sum elapsed_minutes_sum]. rewrite IH. f_equal.
  rewrite !(whole_minute_at _ Hw). unfold total_minutes_of.
  replace (60000000 * minute_at punches (2 * n + 1) - 60000000 * minute_at punches (2 * n))
    with ((minute_at punches (2 * n + 1) - minute_at punches (2 * n)) * 60000000) by lia.
  now rewrite Z.quot_mul by lia.
Qed.

Lemma even_length_double (n : nat) :
  Nat.even n = true -> n = (2 * Nat.div2 n)%nat.
Proof.
  intros H. apply Nat.even_spec in H.
  rewrite (Nat.div2_odd n) at 1.
  assert (Nat.odd n = false) as ->.
  { unfold Nat.odd. apply Nat.even_spec in H. now rewrite H. }
  simpl. lia.
Qed.

Lemma parity_of_length (n : nat) :
  (Z.of_nat n mod 2 =? 0) = Nat.even n.
Proof.
  destruct (Nat.even n) eqn:E.
  - apply even_length_double in E. apply Z.eqb_eq. rewrite E.
    rewrite Nat2Z.inj_mul. rewrite Z.mul_comm. apply Z.mod_mul. lia.
  - apply Z.eqb_neq. intros H.
    assert (Hodd : Nat.odd n = true) by (unfold Nat.odd; now rewrite E).
    apply Nat.odd_spec in Hodd. destruct Hodd as [k Hk]. subst n.
    rewrite Nat2Z.inj_add, Nat2Z.inj_mul in H.
    rewrite Z.add_comm, Z.mul_comm, Z.mod_add in H by lia. discriminate.
Qed.

Lemma calculate_total_minutes_pairs (punches : list PunchRow) :
  Nat.even (List.length punches) = true -> all_timed punches ->
  calculate_total_minutes punches
  = pair_minutes_sum punches (Nat.div2 (List.length punches)).
Proof.
  intros Hev Ht. unfold calculate_total_minutes.
  pose proof (even_length_double _ Hev) as Hlen.
  rewrite Hlen at 1. rewrite py_range_pairs.
  rewrite calculate_loop_pairs by (auto; lia).
  cbn [pair_minutes_sum Nat.add]. lia.
Qed.

(** C8 (as amended): an odd number of punches gives the sentinel "Check";
    an even number of punches that all carry a time gives, formatted
    HH:MM, the sum over the pairs (0,1),(2,3),... of the later punch in
    whole minutes minus the earlier punch in whole minutes (each punch is
    truncated to the minute before the subtraction).  For punches on whole
    minutes this is the elapsed time of each pair in minutes. *)
Theorem total_duration_pairs (punches : list PunchRow) :
  (Nat.even (List.length punches) = false ->
     total_duration punches = "Check"%string)
  /\ (Nat.even (List.length punches) = true -> all_timed punches ->
        calculate_total_minutes punches
          = pair_minutes_sum punches (Nat.div2 (List.length punches))
        /\ total_duration punches
          = format_minutes_to_hhmm
              (pair_minutes_sum punches (Nat.div2 (List.length punches)))
        /\ (whole_minutes punches ->
              calculate_total_minutes punches
              = elapsed_minutes_sum punches (Nat.div2 (List.length punches)))).
Proof.
  unfold total_duration. rewrite parity_of_length. split.
  - intros ->. reflexivity.
  - intros Hev Ht. rewrite Hev. cbn [negb].
    pose proof (calculate_total_minutes_pairs Hev Ht) as Hsum.
    repeat split.
    + exact Hsum.
    + now rewrite Hsum.
    + intros Hw. rewrite Hsum. now apply whole_minutes_sum.
Qed.

(** Punches at 09:00 and 17:00 yield the total duration 08:00. *)
Lemma total_duration_pairs_witness :
  total_duration [at_time (hms 9 0 0); at_time (hms 17 0 0)] = "08:00"%string
  /\ calculate_total_minutes [at_time (hms 9 0 0); at_time (hms 17 0 0)]
     = elapsed_minutes_sum [at_time (hms 9 0 0); at_time (hms 17 0 0)] 1.
Proof.
  destruct (total_duration_pairs [at_time (hms 9 0 0); at_time (hms 17 0 0)])
    as [_ Heven].
  destruct Heven as (_ & Hfmt & Hwhole).
  - reflexivity.
  - repeat constructor; discriminate.
  - split.
    + rewrite Hfmt. vm_compute. reflexivity.
    + apply Hwhole. repeat constructor; cbn [punch_time at_time];
        intros t Ht; injection Ht as <-; vm_compute; reflexivity.
Defined.

(** C8 as stated fails: punches one second apart (09:00:59, 09:01:00)
    report one minute, and punches 59 seconds apart (09:00:00, 09:00:59)
    report none, so the reported total is not the elapsed time of the pair
    in minutes, whether that is rounded down, up or to the nearest minute. *)
Lemma total_duration_not_elapsed :
  calculate_total_minutes [at_time (hms 9 0 59); at_time (hms 9 1 0)] = 1
  /\ total_duration [at_time (hms 9 0 59); at_time (hms 9 1 0)] = "00:01"%string
  /\ calculate_total_minutes [at_time (hms 9 0 0); at_time (hms 9 0 59)] = 0
  /\ ~ (forall punches : list PunchRow,
          Nat.even (List.length punches) = true -> all_timed punches ->
          calculate_total_minutes punches
          = elapsed_minutes_sum punches (Nat.div2 (List.length punches))).
Proof.
  repeat split; try (vm_compute; reflexivity).
  intros H.
  specialize (H [at_time (hms 9 0 59); at_time (hms 9 1 0)]).
  assert (Ht : all_timed [at_time (hms 9 0 59); at_time (hms 9 1 0)])
    by (repeat constructor; discriminate).
  specialize (H eq_refl Ht). vm_compute in H. discriminate.
Qed.

(** ** The cell of a punch *)

(** X17: the cell of a punch.  A punch without a time and a punch at
    midnight give no cell, whatever their type; every other punch gives the
    text [format_minutes_to_hhmm] has for its whole minutes (the seconds
    are dropped), followed by " (MA)" when the punch is Manual. *)
Theorem punch_cell (punch : PunchRow) :
  (format_punch_with_type punch = None
   <-> punch_time punch = None \/ punch_time punch = Some 0)
  /\ forall t, punch_time punch = Some t -> t <> 0 ->
       format_punch_with_type punch
       = Some (format_minutes_to_hhmm (total_minutes_of t)
               ++ (if ostr_eqb (punch_type punch) (Some "Manual"%string)
                   then " (MA)" else ""))%string.
Proof.
  unfold format_punch_with_type, no_time, format_timedelta_to_hhmm, td_truthy,
    format_minutes_to_hhmm.
  destruct (punch_time punch) as [t|].
  - destruct (Z.eqb_spec t 0) as [->|Hne]; cbn [negb].
    + split; [split; auto|]. intros t [= <-] H. congruence.
    + split.
      * split.
        -- destruct (ostr_eqb _ _); discriminate.
        -- intros [H|[= H]]; [discriminate|congruence].
      * intros t' [= <-] _. destruct (ostr_eqb _ _); [reflexivity|].
        f_equal. clear.
        generalize (fmt02 (total_minutes_of t / 60) ++ ":"
                    ++ fmt02 (total_minutes_of t mod 60))%string.
        intros s. induction s as [|c s IH]; [reflexivity|]. cbn. now rewrite <- IH.
  - split; [split; auto|]. discriminate.
Qed.

Lemma punch_cell_witness :
  format_punch_with_type (mkPunchRow (Some (hms 9 5 30)) (Some "Manual"%string))
  = Some "09:05 (MA)"%string
  /\ format_punch_with_type (mkPunchRow (Some (hms 0 0 0)) (Some "Manual"%string)) = None.
Proof.
  split.
  - destruct (punch_cell (mkPunchRow (Some (hms 9 5 30)) (Some "Manual"%string)))
      as [_ H].
    apply (H (hms 9 5 30)); [reflexivity|discriminate].
  - destruct (punch_cell (mkPunchRow (Some (hms 0 0 0)) (Some "Manual"%string)))
      as [[_ H] _].
    apply H. right. reflexivity.
Defined.

(** ** The rows that count *)

Lemma not_check (a b : string) : (a ++ ":" ++ b)%string <> "Check"%string.
Proof.
  intros H.
  do 5 (destruct a as [|? a]; cbn in H; [discriminate|injection H as _ H]).
  destruct a; discriminate.
Qed.

Lemma duration_step_even (punches : list PunchRow) (valid_minutes : list Z) :
  duration_step punches valid_minutes
  = (total_duration punches,
     if Nat.even (List.length punches)
     then valid_minutes ++ [calculate_total_minutes punches]
     else valid_minutes).
Proof.
  unfold duration_step, total_duration. rewrite parity_of_length.
  destruct (Nat.even (List.length punches)); cbn [negb]; [|reflexivity].
  f_equal. unfold format_minutes_to_hhmm.
  destruct (String.eqb_spec
              (fmt02 (calculate_total_minutes punches / 60) ++ ":"
               ++ fmt02 (calculate_total_minutes punches mod 60)) "Check") as [E|_];
    [|reflexivity].
  now apply not_check in E.
Qed.

Lemma duration_loop_even (logs : list (list PunchRow)) : forall valid_minutes,
  duration_loop logs valid_minutes
  = (map total_duration logs,
     valid_minutes
     ++ map calculate_total_minutes
            (filter (fun punches => Nat.even (List.length punches)) logs)).
Proof.
  induction logs as [|punches logs IH]; intros valid; cbn [duration_loop map filter].
  - now rewrite app_nil_r.
  - rewrite duration_step_even, IH.
    destruct (Nat.even (List.length punches)); [|reflexivity].
    cbn [map]. now rewrite <- app_assoc.
Qed.

(** X18: the test [total_duration != "Check"] never holds a row back.
    A log with an even number of punches is never shown as "Check", and its
    minutes, also the [0] of a calculation that failed, are among
    [valid_minutes]: the row "Total" is the sum of
    [calculate_total_minutes] over the logs with an even number of punches,
    and the cells of the column are those of [total_duration]. *)
Theorem even_rows_all_count (logs : list (list PunchRow)) :
  (forall punches, Nat.even (List.length punches) = true ->
     total_duration punches <> "Check"%string)
  /\ duration_loop logs []
     = (map total_duration logs,
        map calculate_total_minutes
            (filter (fun punches => Nat.even (List.length punches)) logs))
  /\ total_row_duration logs
     = format_minutes_to_hhmm
         (fold_left Z.add
            (map calculate_total_minutes
                 (filter (fun punches => Nat.even (List.length punches)) logs)) 0).
Proof.
  split; [|split].
  - intros punches He. unfold total_duration. rewrite parity_of_length, He.
    cbn [negb]. apply not_check.
  - now rewrite duration_loop_even.
  - unfold total_row_duration. now rewrite duration_loop_even.
Qed.

Lemma even_rows_all_count_witness :
  let logs := [[at_time (hms 9 0 0); at_time (hms 17 0 0)];
               [at_time (hms 8 0 0)];
               [mkPunchRow None (Some "Manual"%string); at_time (hms 10 0 0)]] in
  total_duration [at_time (hms 9 0 0); at_time (hms 17 0 0)] <> "Check"%string
  /\ duration_loop logs [] = (["08:00"; "Check"; "00:00"]%string, [480; 0])
  /\ total_row_duration logs = "08:00"%string.
Proof.
  intros logs. destruct (even_rows_all_count logs) as (H1 & H2 & H3).
  split; [apply H1; reflexivity|]. split; [exact H2|exact H3].
Defined.

(** ** A punch without a time *)

Lemma calculate_loop_missing (punches : list PunchRow) (m : nat) :
  forall (k : nat) (total : Z) (i : nat) (p : PunchRow),
  (2 * (k + m) <= List.length punches)%nat ->
  (2 * k <= i < 2 * (k + m))%nat ->
  nth_error punches i = Some p -> punch_time p = None ->
  calculate_loop punches (map (fun j => Z.of_nat (2 * j)) (seq k m)) total = 0.
Proof.
  induction m as [|m IH]; intros k total i p Hlen Hi Hp Ht; [lia|].
  cbn [seq map calculate_loop].
  replace (Z.of_nat (2 * k) + 1) with (Z.of_nat (2 * k + 1)) by lia.
  rewrite !getitem_nat.
  destruct (nth_error punches (2 * k)) as [p_in|] eqn:E_in; [|reflexivity].
  destruct (nth_error punches (2 * k + 1)) as [p_out|] eqn:E_out; [|reflexivity].
  destruct (punch_time p_in) as [t_in|] eqn:T_in; [|reflexivity].
  destruct (punch_time p_out) as [t_out|] eqn:T_out; [|reflexivity].
  cbv zeta. apply (IH (S k) _ i p); auto; try lia.
  assert (i <> 2 * k)%nat by (intros ->; congruence).
  assert (i <> 2 * k + 1)%nat by (intros ->; congruence).
  lia.
Qed.

(** X19: one punch without a time empties the total.  In a log with an
    even number of punches of which one has no time, the exception of the
    calculation is swallowed: the total is [0] whatever the other punches
    are, and the cell reads "00:00". *)
Theorem missing_time_gives_zero (punches : list PunchRow) (p : PunchRow) :
  Nat.even (List.length punches) = true ->
  In p punches -> punch_time p = None ->
  calculate_total_minutes punches = 0
  /\ total_duration punches = "00:00"%string.
Proof.
  intros He Hin Ht.
  assert (H0 : calculate_total_minutes punches = 0).
  { unfold calculate_total_minutes.
    pose proof (even_length_double _ He) as Hd.
    apply In_nth_error in Hin. destruct Hin as [i Hi].
    assert (i < List.length punches)%nat by (apply nth_error_Some; congruence).
    rewrite Hd at 1. rewrite py_range_pairs.
    apply (@calculate_loop_missing punches _ 0 0 i p); auto; lia. }
  split; [exact H0|].
  unfold total_duration. rewrite parity_of_length, He. cbn [negb]. now rewrite H0.
Qed.

Lemma missing_time_gives_zero_witness :
  calculate_total_minutes
    [at_time (hms 8 0 0); mkPunchRow None (Some "Manual"%string);
     at_time (hms 13 0 0); at_time (hms 17 0 0)] = 0
  /\ total_duration
       [at_time (hms 8 0 0); mkPunchRow None (Some "Manual"%string);
        at_time (hms 13 0 0); at_time (hms 17 0 0)] = "00:00"%string.
Proof.
  apply (@missing_time_gives_zero
           [at_time (hms 8 0 0); mkPunchRow None (Some "Manual"%string);
            at_time (hms 13 0 0); at_time (hms 17 0 0)]
           (mkPunchRow None (Some "Manual"%string))).
  - reflexivity.
  - right. left. reflexivity.
  - reflexivity.
Defined.

(** ** Bounds of the total *)

Lemma minute_of_time (punches : list PunchRow) (i : nat) :
  minute_at punches i = total_minutes_of (time_at punches i).
Proof.
  unfold minute_at, time_at.
  destruct (nth_error punches i) as [p|]; [|reflexivity].
  now destruct (punch_time p).
Qed.

Lemma minute_at_mono (punches : list PunchRow) (i j : nat) :
  ascending punches -> (i <= j)%nat -> (j < List.length punches)%nat ->
  minute_at punches i <= minute_at punches j.
Proof.
  intros Ha Hij Hj. rewrite !minute_of_time. unfold total_minutes_of.
  apply Z.quot_le_mono; [lia|]. now apply Ha.
Qed.

Lemma pair_minutes_sum_bounds (punches : list PunchRow) (n : nat) :
  ascending punches -> (2 * S n <= List.length punches)%nat ->
  0 <= pair_minutes_sum punches (S n)
  <= minute_at punches (2 * n + 1) - minute_at punches 0.
Proof.
  intros Ha. induction n as [|n IH]; intros Hlen.
  - cbn [pair_minutes_sum]. cbn [Nat.mul Nat.add].
    pose proof (@minute_at_mono punches 0 1 Ha ltac:(lia) ltac:(lia)). lia.
  - specialize (IH ltac:(lia)).
    change (pair_minutes_sum punches (S (S n)))
      with (pair_minutes_sum punches (S n)
            + (minute_at punches (2 * S n + 1) - minute_at punches (2 * S n))).
    pose proof (@minute_at_mono punches (2 * n + 1) (2 * S n) Ha ltac:(lia) ltac:(lia)).
    pose proof (@minute_at_mono punches (2 * S n) (2 * S n + 1) Ha ltac:(lia) ltac:(lia)).
    lia.
Qed.

(** X20: for an even number of punches in the order of their times,
    each with a time, the total is not negative and not more than the
    whole minutes of the last punch less those of the first. *)
Theorem total_within_span (punches : list PunchRow) :
  Nat.even (List.length punches) = true -> all_timed punches -> ascending punches ->
  0 <= calculate_total_minutes punches
  <= minute_at punches (List.length punches - 1) - minute_at punches 0.
Proof.
  intros He Ht Ha. rewrite (calculate_total_minutes_pairs He Ht).
  pose proof (even_length_double _ He) as Hd.
  destruct (Nat.div2 (List.length punches)) as [|n] eqn:Hn.
  - cbn [pair_minutes_sum]. destruct punches; [cbn; lia|cbn in Hd; lia].
  - replace (List.length punches - 1)%nat with (2 * n + 1)%nat by lia.
    apply pair_minutes_sum_bounds; [exact Ha|lia].
Qed.

Lemma total_within_span_witness :
  let punches := [at_time (hms 8 0 0); at_time (hms 12 0 30);
                  at_time (hms 13 0 0); at_time (hms 17 30 0)] in
  0 <= calculate_total_minutes punches
  <= minute_at punches (List.length punches - 1) - minute_at punches 0.
Proof.
  intros punches. apply (@total_within_span punches).
  - reflexivity.
  - repeat constructor; discriminate.
  - intros i j Hij Hj. cbn in Hj.
    destruct j as [|[|[|[|j]]]]; [| | | |lia];
      (destruct i as [|[|[|[|i]]]]; [| | | |lia]; try lia; vm_compute; discriminate).
Defined.

(** ** Present and absent employees *)

Lemma insert_by_in {A} (key : A -> Z) (x y : A) (l : list A) :
  In y (insert_by key x l) <-> y = x \/ In y l.
Proof.
  induction l as [|z l IH]; cbn [insert_by].
  - cbn. intuition.
  - destruct (key x <=? key z); cbn [In]; [intuition|]. rewrite IH. intuition.
Qed.

Lemma sort_by_in {A} (key : A -> Z) (y : A) (l : list A) :
  In y (sort_by key l) <-> In y l.
Proof.
  induction l as [|x l IH]; [reflexivity|].
  unfold sort_by in *. cbn [fold_right In]. rewrite insert_by_in, IH. intuition.
Qed.

Lemma insert_by_sorted {A} (key : A -> Z) (x : A) (l : list A) :
  by_key key l -> by_key key (insert_by key x l).
Proof.
  induction l as [|z l IH]; intros H; cbn [insert_by].
  - cbn. split; [intros y []|exact I].
  - destruct H as [Hz Hl].
    destruct (Z.leb_spec (key x) (key z)) as [Hle|Hgt].
    + split; [|split; assumption].
      intros y [<-|Hy]; [exact Hle|]. specialize (Hz y Hy). lia.
    + split; [|now apply IH].
      intros y Hy. apply insert_by_in in Hy. destruct Hy as [->|Hy]; [lia|now apply Hz].
Qed.

Lemma sort_by_sorted {A} (key : A -> Z) (l : list A) : by_key key (sort_by key l).
Proof.
  induction l as [|x l IH]; [exact I|].
  unfold sort_by in *. cbn [fold_right]. now apply insert_by_sorted.
Qed.

Lemma present_in (w : ReportWorld) (employees : list EmployeeRow) (logs : list LogRow)
      (d : Date) (p : PresentRow) :
  In p (present_employees w employees logs d)
  <-> exists bal, In bal logs /\ r_event_date bal = d /\ In p (joined w employees bal).
Proof.
  unfold present_employees, select_present. rewrite sort_by_in, nodup_In, in_flat_map.
  split.
  - intros (bal & Hbal & Hp).
    destruct (date_eqb (r_event_date bal) d) eqn:E; [|destruct Hp].
    apply StoreFacts.date_eqb_eq in E. now exists bal.
  - intros (bal & Hbal & E & Hp). exists bal. split; [exact Hbal|].
    apply StoreFacts.date_eqb_eq in E. now rewrite E.
Qed.

Lemma joined_id (w : ReportWorld) (employees : list EmployeeRow) (bal : LogRow)
      (id : string) :
  (exists p, In p (joined w employees bal) /\ attendance_device_id p = Some id)
  <-> exists e, In e employees /\ r_attendance_device_id e = Some id
                /\ sql_eq_opt w (Some id) (r_employee_no bal) = true.
Proof.
  unfold joined.
  set (f := fun e => sql_eq_opt w (r_attendance_device_id e) (r_employee_no bal)).
  split.
  - intros (p & Hp & Hid).
    destruct (filter f employees) as [|e0 ms] eqn:Hm.
    + destruct Hp as [<-|[]]. discriminate.
    + apply in_map_iff in Hp. destruct Hp as (e & <- & He). cbn in Hid.
      rewrite <- Hm in He. apply filter_In in He. destruct He as [He Hf].
      exists e. split; [exact He|]. split; [exact Hid|]. unfold f in Hf. now rewrite Hid in Hf.
  - intros (e & He & Hid & Hs).
    assert (Hin : In e (filter f employees)).
    { apply filter_In. split; [exact He|]. unfold f. now rewrite Hid. }
    destruct (filter f employees) as [|e0 ms]; [destruct Hin|].
    exists (mkPresentRow (r_employee_no bal) (r_employee_name e) (r_attendance_device_id e)).
    split; [|exact Hid]. apply in_map_iff. now exists e.
Qed.

(** X22: the absent employees.  An employee is listed as absent
    exactly when it is among the Active employees that have a device id and
    no log of the selected date carries an employee number the database
    takes for equal to that id; the list is in the order of
    [natural_sort_key]. *)
Theorem absent_have_no_log (w : ReportWorld) (employees : list EmployeeRow)
        (logs : list LogRow) (selected_date : Date) :
  (forall emp,
     In emp (absent_employees w employees logs selected_date)
     <-> In emp (all_active_employees w employees)
         /\ forall bal, In bal logs -> r_event_date bal = selected_date ->
              sql_eq_opt w (r_attendance_device_id emp) (r_employee_no bal) = false)
  /\ by_key (fun emp => natural_sort_key w (r_attendance_device_id emp))
            (absent_employees w employees logs selected_date).
Proof.
  split; [|apply sort_by_sorted].
  intros emp. unfold absent_employees. rewrite sort_by_in, filter_In.
  assert (Hid : In emp (all_active_employees w employees) ->
                In emp employees /\ exists id, r_attendance_device_id emp = Some id).
  { unfold all_active_employees. intros H. apply filter_In in H. destruct H as [He Hf].
    split; [exact He|]. apply andb_true_iff in Hf. destruct Hf as [_ Hf].
    destruct (r_attendance_device_id emp) as [id|]; [now exists id|discriminate]. }
  split.
  - intros [Hact Hnp]. split; [exact Hact|]. intros bal Hbal Hd.
    destruct (Hid Hact) as (He & id & Eid).
    destruct (sql_eq_opt w (r_attendance_device_id emp) (r_employee_no bal)) eqn:Hs;
      [|reflexivity].
    exfalso. unfold not_present in Hnp. apply negb_true_iff in Hnp.
    rewrite Eid in Hs.
    assert (Hj : exists p, In p (joined w employees bal)
                           /\ attendance_device_id p = Some id)
      by (apply joined_id; now exists emp).
    destruct Hj as (p & Hp & Hpid).
    assert (Hex : existsb (fun p0 => ostr_eqb (attendance_device_id p0)
                                              (r_attendance_device_id emp))
                          (present_employees w employees logs selected_date) = true).
    { apply existsb_exists. exists p. split.
      - apply present_in. now exists bal.
      - apply StoreFacts.ostr_eqb_eq. congruence. }
    congruence.
  - intros [Hact Hno]. split; [exact Hact|].
    destruct (Hid Hact) as (He & id & Eid).
    unfold not_present. apply negb_true_iff.
    destruct (existsb _ _) eqn:Hex; [|reflexivity]. exfalso.
    apply existsb_exists in Hex. destruct Hex as (p & Hp & Heq).
    apply StoreFacts.ostr_eqb_eq in Heq. rewrite Eid in Heq.
    apply present_in in Hp. destruct Hp as (bal & Hbal & Hd & Hp).
    assert (Hj : exists e, In e employees /\ r_attendance_device_id e = Some id
                           /\ sql_eq_opt w (Some id) (r_employee_no bal) = true)
      by (apply joined_id; now exists p).
    destruct Hj as (e & _ & _ & Hs).
    specialize (Hno bal Hbal Hd). rewrite Eid in Hno. congruence.
Qed.

Lemma absent_have_no_log_witness :
  let w := mkReportWorld String.eqb (fun _ => None) in
  let employees :=
    [mkEmployeeRow (Some "Amna"%string) (Some "7"%string) (Some "Active"%string);
     mkEmployeeRow (Some "Bilal"%string) (Some "8"%string) (Some "Active"%string);
     mkEmployeeRow (Some "Sana"%string) (Some "9"%string) (Some "Left"%string)] in
  let logs := [mkLogRow (Some "7"%string) (mkDate 2024 1 15);
               mkLogRow (Some "8"%string) (mkDate 2024 1 14)] in
  In (mkEmployeeRow (Some "Bilal"%string) (Some "8"%string) (Some "Active"%string))
     (absent_employees w employees logs (mkDate 2024 1 15)).
Proof.
  intros w employees logs.
  destruct (absent_have_no_log w employees logs (mkDate 2024 1 15)) as [H _].
  apply H. split.
  - vm_compute. auto.
  - intros bal [<-|[<-|[]]] Hd; [reflexivity|discriminate].
Defined.

End ReportFacts.

Module ReducerFacts.
Import Reducer StoreFacts.

(** ** Rows, ordering and grouping *)

Lemma key_eqb_eq (a b : GroupKey) : key_eqb a b = true <-> a = b.
Proof.
  unfold key_eqb. destruct a, b; cbn.
  rewrite andb_true_iff, ostr_eqb_eq, date_eqb_eq. split.
  - intros [-> ->]. reflexivity.
  - intros H. injection H as -> ->. auto.
Qed.

Lemma insert_sorted_in {A} (leb : A -> A -> bool) (x y : A) (l : list A) :
  In y (insert_sorted leb x l) <-> y = x \/ In y l.
Proof.
  induction l as [|z l IH]; cbn.
  - intuition.
  - destruct (leb x z); cbn; [intuition|]. rewrite IH. intuition.
Qed.

Lemma order_by_in {A} (leb : A -> A -> bool) (y : A) (l : list A) :
  In y (order_by leb l) <-> In y l.
Proof.
  induction l as [|x l IH]; cbn; [tauto|].
  rewrite insert_sorted_in, IH. intuition.
Qed.

Lemma unsynced_rows_in (st : Store) (r : Row) :
  In r (unsynced_rows st) <->
  exists l p, In l (logs st) /\ In p (punch_table l)
              /\ coalesce0 (p_synced_to_employee_checkin p) = false
              /\ r = join_row l p.
Proof.
  unfold unsynced_rows. rewrite in_flat_map. split.
  - intros (l & Hl & Hr). apply in_map_iff in Hr. destruct Hr as (p & <- & Hp).
    apply filter_In in Hp. destruct Hp as [Hp Hs].
    exists l, p. repeat split; auto. now apply negb_true_iff in Hs.
  - intros (l & p & Hl & Hp & Hs & ->). exists l. split; auto.
    apply in_map. apply filter_In. split; auto. now rewrite Hs.
Qed.

Lemma select_unsynced_in (st : Store) (r : Row) :
  In r (select_unsynced st) <-> In r (unsynced_rows st).
Proof. apply order_by_in. Qed.

Lemma setdefault_append_keyed groups (p : Row) :
  keyed groups -> keyed (setdefault_append (employee_no p, event_date p) p groups).
Proof.
  induction groups as [|[k ps] rest IH]; intros Hk k' g' Hin; cbn in Hin.
  - destruct Hin as [Hin|[]]. injection Hin as <- <-. split; [discriminate|].
    intros r [<-|[]]. reflexivity.
  - destruct (key_eqb k (employee_no p, event_date p)) eqn:E.
    + destruct Hin as [Hin|Hin].
      * injection Hin as <- <-. apply key_eqb_eq in E.
        destruct (Hk k ps (or_introl eq_refl)) as [_ Hall]. split.
        -- destruct ps; discriminate.
        -- intros r Hr. apply in_app_or in Hr. destruct Hr as [Hr|[<-|[]]]; auto.
      * apply Hk. now right.
    + destruct Hin as [Hin|Hin].
      * injection Hin as <- <-. apply Hk. now left.
      * apply IH; auto. intros k0 g0 H0. apply Hk. now right.
Qed.

Lemma setdefault_append_in groups (key : GroupKey) (p r : Row) :
  (r = p \/ exists k g, In (k, g) groups /\ In r g) ->
  exists k g, In (k, g) (setdefault_append key p groups) /\ In r g.
Proof.
  induction groups as [|[k ps] rest IH]; intros H; cbn.
  - destruct H as [->|(k & g & [] & _)]. exists key, [p]. cbn. auto.
  - destruct (key_eqb k key) eqn:E.
    + destruct H as [->|(k0 & g0 & [Hin|Hin] & Hr)].
      * exists k, (ps ++ [p]). split; [now left|]. apply in_or_app. right. now left.
      * injection Hin as <- <-. exists k, (ps ++ [p]). split; [now left|].
        apply in_or_app. now left.
      * exists k0, g0. split; auto. now right.
    + destruct H as [->|(k0 & g0 & [Hin|Hin] & Hr)].
      * destruct IH as (k1 & g1 & H1 & H2); [now left|].
        exists k1, g1. split; auto. now right.
      * injection Hin as <- <-. exists k, ps. split; auto. now left.
      * destruct IH as (k1 & g1 & H1 & H2); [right; eauto|].
        exists k1, g1. split; auto. now right.
Qed.

Lemma group_rows_spec (punches : list Row) :
  keyed (group_rows punches)
  /\ forall r, In r punches -> exists k g, In (k, g) (group_rows punches) /\ In r g.
Proof.
  unfold group_rows.
  assert (G : forall rows groups,
    keyed groups ->
    keyed (fold_left (fun gs p => setdefault_append (employee_no p, event_date p) p gs) rows groups)
    /\ forall r, (In r rows \/ exists k g, In (k, g) groups /\ In r g) ->
         exists k g,
           In (k, g) (fold_left (fun gs p => setdefault_append (employee_no p, event_date p) p gs) rows groups)
           /\ In r g).
  { induction rows as [|p rows IH]; intros groups Hk; cbn.
    - split; auto. intros r [[]|H]; auto.
    - destruct (IH _ (setdefault_append_keyed p Hk)) as [K I]. split; auto.
      intros r Hr. apply I.
      destruct Hr as [[<-|Hr]|Hr]; auto; right; apply setdefault_append_in; auto. }
  destruct (G punches [] ) as [K I].
  - intros k g [].
  - split; auto.
Qed.

(** Every row of a group lies among the grouped rows. *)
Lemma setdefault_append_from groups (key : GroupKey) (p : Row) k g r :
  In (k, g) (setdefault_append key p groups) -> In r g ->
  r = p \/ exists k' g', In (k', g') groups /\ In r g'.
Proof.
  induction groups as [|[k0 ps] rest IH]; cbn; intros Hin Hr.
  - destruct Hin as [Hin|[]]. injection Hin as <- <-. destruct Hr as [<-|[]]. now left.
  - destruct (key_eqb k0 key).
    + destruct Hin as [Hin|Hin].
      * injection Hin as <- <-. apply in_app_or in Hr. destruct Hr as [Hr|[<-|[]]]; auto.
        right. exists k0, ps. auto.
      * right. exists k, g. auto.
    + destruct Hin as [Hin|Hin].
      * injection Hin as <- <-. right. exists k0, ps. auto.
      * destruct (IH Hin Hr) as [->|(k' & g' & H1 & H2)]; auto.
        right. exists k', g'. auto.
Qed.

Lemma group_rows_from (punches : list Row) k g r :
  In (k, g) (group_rows punches) -> In r g -> In r punches.
Proof.
  unfold group_rows.
  assert (G : forall rows groups,
    In (k, g) (fold_left (fun gs p => setdefault_append (employee_no p, event_date p) p gs) rows groups) ->
    In r g -> In r rows \/ exists k' g', In (k', g') groups /\ In r g').
  { induction rows as [|p rows IH]; intros groups Hin Hr; cbn in Hin.
    - right. eauto.
    - destruct (IH _ Hin Hr) as [H|(k' & g' & H1 & H2)]; [left; now right|].
      destruct (@setdefault_append_from groups _ p k' g' r H1 H2) as [->|H]; [left; now left|now right]. }
  intros Hin Hr. destruct (G punches [] Hin Hr) as [H|(k' & g' & [] & _)]. exact H.
Qed.

(** ** The sort of a group *)

Lemma py_insert_in (x : Row) (l l' : list Row) :
  py_insert x l = Return l' -> forall r, In r l' <-> r = x \/ In r l.
Proof.
  revert l'. induction l as [|y l IH]; intros l' H r; cbn in H.
  - injection H as <-. cbn. intuition.
  - destruct (key_lt (sort_key y) (sort_key x)) as [[|]|]; try discriminate.
    + destruct (py_insert x l) as [l0|] eqn:E; [|discriminate].
      injection H as <-. cbn. rewrite (IH l0 eq_refl). intuition.
    + injection H as <-. cbn. intuition.
Qed.

Lemma py_sort_in (l l' : list Row) :
  py_sort l = Return l' -> forall r, In r l' <-> In r l.
Proof.
  revert l'. induction l as [|x l IH]; intros l' H r; cbn in H.
  - injection H as <-. tauto.
  - destruct (py_sort l) as [l0|] eqn:E; [|discriminate].
    rewrite (py_insert_in _ _ H). cbn. rewrite (IH l0 eq_refl). intuition.
Qed.

Lemma py_insert_length (x : Row) (l l' : list Row) :
  py_insert x l = Return l' -> List.length l' = S (List.length l).
Proof.
  revert l'. induction l as [|y l IH]; intros l' H; cbn in H.
  - now injection H as <-.
  - destruct (key_lt (sort_key y) (sort_key x)) as [[|]|]; try discriminate.
    + destruct (py_insert x l) as [l0|] eqn:E; [|discriminate].
      injection H as <-. cbn. now rewrite (IH l0 eq_refl).
    + now injection H as <-.
Qed.

Lemma py_sort_length (l l' : list Row) :
  py_sort l = Return l' -> List.length l' = List.length l.
Proof.
  revert l'. induction l as [|x l IH]; intros l' H; cbn in H.
  - now injection H as <-.
  - destruct (py_sort l) as [l0|] eqn:E; [|discriminate].
    rewrite (py_insert_length _ _ H). cbn. now rewrite (IH l0 eq_refl).
Qed.

Lemma timed_key (r : Row) : timed r -> sort_key r = KTimedelta (time_of r).
Proof.
  intros (t & Ht & Hnz). unfold sort_key, time_of, td_truthy. rewrite Ht.
  destruct (Z.eqb_spec t 0); [contradiction|reflexivity].
Qed.

Lemma by_time_cons (x : Row) (l : list Row) :
  (forall r, In r l -> (time_of x <= time_of r)%Z) -> by_time l -> by_time (x :: l).
Proof.
  intros Hx Hl i j Hij a b Ha Hb.
  destruct i as [|i], j as [|j]; cbn in Ha, Hb.
  - injection Ha as <-. injection Hb as <-. lia.
  - injection Ha as <-. apply Hx. eapply nth_error_In; eauto.
  - lia.
  - eapply Hl; [|eauto|eauto]. lia.
Qed.

Lemma by_time_tail (x : Row) (l : list Row) :
  by_time (x :: l) -> by_time l /\ forall r, In r l -> (time_of x <= time_of r)%Z.
Proof.
  intros H. split.
  - intros i j Hij a b Ha Hb. apply (H (S i) (S j)); auto. lia.
  - intros r Hr. apply In_nth_error in Hr. destruct Hr as [n Hn].
    apply (H 0%nat (S n)); auto. lia.
Qed.

Lemma py_insert_timed (x : Row) (l : list Row) :
  timed x -> Forall timed l -> by_time l ->
  exists l', py_insert x l = Return l' /\ by_time l'.
Proof.
  intros Hx. induction l as [|y l IH]; intros Hl Hs; cbn.
  - exists [x]. split; auto. apply by_time_cons; [intros r []|].
    intros i j _ a b Ha. destruct i; discriminate.
  - inversion Hl as [|? ? Hy Hl']; subst.
    rewrite (timed_key Hy), (timed_key Hx). cbn.
    destruct (by_time_tail Hs) as [Hs' Hy_min].
    destruct (Z.ltb_spec (time_of y) (time_of x)) as [Hlt|Hge].
    + destruct (IH Hl' Hs') as (l' & E & Hs''). rewrite E.
      exists (y :: l'). split; auto. apply by_time_cons; auto.
      intros r Hr. apply (py_insert_in _ _ E) in Hr. destruct Hr as [->|Hr]; [lia|auto].
    + exists (x :: y :: l). split; auto. apply by_time_cons; auto.
      intros r [<-|Hr]; [lia|]. specialize (Hy_min r Hr). lia.
Qed.

Lemma py_sort_timed (l : list Row) :
  Forall timed l -> exists l', py_sort l = Return l' /\ by_time l'.
Proof.
  induction l as [|x l IH]; intros Hl; cbn.
  - exists []. split; auto. intros i j _ a b Ha. destruct i; discriminate.
  - inversion Hl as [|? ? Hx Hl']; subst.
    destruct (IH Hl') as (l0 & E & Hs). rewrite E.
    apply py_insert_timed; auto.
    apply Forall_forall. intros r Hr. apply (py_sort_in _ E) in Hr.
    rewrite Forall_forall in Hl'. auto.
Qed.

Lemma last_cons_default {A} (l : list A) (x d : A) :
  List.last (x :: l) d = List.last l x.
Proof.
  revert x d. induction l as [|y l IH]; intros x d; [reflexivity|].
  change (List.last (x :: y :: l) d) with (List.last (y :: l) d).
  rewrite IH. symmetry. apply IH.
Qed.

Lemma last_nth_error {A} (l : list A) (d : A) :
  nth_error (d :: l) (List.length l) = Some (List.last l d).
Proof.
  revert d. induction l as [|x l IH]; intros d; [reflexivity|].
  cbn [List.length nth_error]. rewrite IH. now rewrite last_cons_default.
Qed.

Lemma last_in {A} (l : list A) (d : A) : In (List.last l d) (d :: l).
Proof. eapply nth_error_In. apply last_nth_error. Qed.

(** In a list sorted by time the head is the earliest and the last
    element the latest. *)
Lemma by_time_bounds (first : Row) (rest : list Row) (r : Row) :
  by_time (first :: rest) -> In r (first :: rest) ->
  (time_of first <= time_of r <= time_of (List.last rest first))%Z.
Proof.
  intros Hs Hr. apply In_nth_error in Hr. destruct Hr as [n Hn]. split.
  - apply (Hs 0%nat n); auto. lia.
  - apply (Hs n (List.length rest)); auto using last_nth_error.
    assert (n < List.length (first :: rest))%nat by (apply nth_error_Some; congruence).
    cbn in H. lia.
Qed.

(** ** Steps of the store *)

Lemma map_punches_in (g : Punch -> Punch) (ls : list AttendanceLog) l' p' :
  In l' (map_punches g ls) -> In p' (punch_table l') ->
  exists l p, In l ls /\ In p (punch_table l) /\ p' = g p
              /\ l_name l' = l_name l /\ l_employee_no l' = l_employee_no l
              /\ l_event_date l' = l_event_date l.
Proof.
  unfold map_punches. intros Hl Hp. apply in_map_iff in Hl.
  destruct Hl as (l & <- & Hl). cbn in Hp. apply in_map_iff in Hp.
  destruct Hp as (p & <- & Hp). exists l, p. cbn. auto 10.
Qed.

Lemma map_punches_in_fwd (g : Punch -> Punch) (ls : list AttendanceLog) l p :
  In l ls -> In p (punch_table l) ->
  exists l', In l' (map_punches g ls) /\ In (g p) (punch_table l')
             /\ l_name l' = l_name l /\ l_employee_no l' = l_employee_no l
             /\ l_event_date l' = l_event_date l.
Proof.
  intros Hl Hp.
  exists (mkLog (l_name l) (l_employee_no l) (l_event_date l) (l_device_id l)
                (map g (punch_table l))).
  cbn. repeat split; auto.
  - unfold map_punches. apply in_map_iff. exists l. auto.
  - now apply in_map.
Qed.

Lemma map_punches_compose (g1 g2 : Punch -> Punch) (ls : list AttendanceLog) :
  map_punches g2 (map_punches g1 ls) = map_punches (fun p => g2 (g1 p)) ls.
Proof.
  unfold map_punches. rewrite map_map. apply map_ext. intros l. cbn.
  now rewrite map_map.
Qed.

Lemma map_punches_id (ls : list AttendanceLog) : map_punches (fun p => p) ls = ls.
Proof.
  unfold map_punches. rewrite <- (map_id ls) at 2. apply map_ext.
  intros [n e d dev ps]. cbn. now rewrite map_id.
Qed.

Lemma rstep_refl (N : Name -> Prop) (s : RState) : rstep N s s.
Proof.
  unfold rstep. split; [reflexivity|]. split; [|split; [|auto]].
  - exists (fun p => p). split; [|now rewrite map_punches_id].
    intros p. auto.
  - exists []. now rewrite app_nil_r.
Qed.

Lemma rstep_trans (N : Name -> Prop) (s1 s2 s3 : RState) :
  rstep N s1 s2 -> rstep N s2 s3 -> rstep N s1 s3.
Proof.
  intros (E1 & (g1 & G1 & L1) & (a1 & C1) & K1) (E2 & (g2 & G2 & L2) & (a2 & C2) & K2).
  unfold rstep. split; [congruence|]. split; [|split; [|auto]].
  - exists (fun p => g2 (g1 p)). split.
    + intros p. destruct (G1 p) as (n1 & m1 & o1), (G2 (g1 p)) as (n2 & m2 & o2).
      split; [congruence|]. split; [auto|].
      intros H. rewrite (o1 H) in *. auto.
    + now rewrite L2, L1, map_punches_compose.
  - exists (a1 ++ a2). now rewrite C2, C1, app_assoc.
Qed.

Lemma rstep_weaken (N N' : Name -> Prop) (s s' : RState) :
  (forall n, N n -> N' n) -> rstep N s s' -> rstep N' s s'.
Proof.
  intros HN (E & (g & G & L) & C & K).
  split; [exact E|]. split; [|split; [exact C|exact K]].
  exists g. split; [|exact L]. intros p. destruct (G p) as (a & b & c).
  split; [exact a|]. split; [exact b|].
  intros H. apply c. intros H'. apply H. auto.
Qed.

Lemma rstep_counters (N : Name -> Prop) (s : RState) (c a : nat) :
  rstep N s (mkRState (store s) c a).
Proof. exact (rstep_refl N s). Qed.

(** Marking the punches of one name. *)
Lemma rstep_update (N : Name -> Prop) (s : RState) (n : Name) (f : Punch -> Punch)
      (c a : nat) :
  N n ->
  (forall p, p_name (f p) = p_name p
             /\ coalesce0 (p_synced_to_employee_checkin (f p)) = true) ->
  rstep N s (mkRState (update_punch n f (store s)) c a).
Proof.
  intros Hn Hf. unfold rstep. cbn.
  split; [reflexivity|]. split; [|split; [|auto]].
  - eexists. split; [|reflexivity]. intros p.
    destruct (Nat.eqb_spec (p_name p) n) as [Heq|Hne].
    + destruct (Hf p) as [Hf1 Hf2]. split; [exact Hf1|].
      split; [auto|]. intros Hc. rewrite Heq in Hc. contradiction.
    + auto.
  - exists []. now rewrite app_nil_r.
Qed.

Lemma mark_synced_ok (p : Punch) :
  p_name (mark_synced p) = p_name p
  /\ coalesce0 (p_synced_to_employee_checkin (mark_synced p)) = true.
Proof. split; reflexivity. Qed.

Lemma mark_synced_linked_ok (link : option Name) (p : Punch) :
  p_name (mark_synced_linked link p) = p_name p
  /\ coalesce0 (p_synced_to_employee_checkin (mark_synced_linked link p)) = true.
Proof. split; reflexivity. Qed.

Lemma update_punch_synced (n : Name) (f : Punch -> Punch) (st : Store) :
  (forall p, p_name (f p) = p_name p
             /\ coalesce0 (p_synced_to_employee_checkin (f p)) = true) ->
  synced_name n (update_punch n f st).
Proof.
  intros Hf l' p' Hl Hp Hname. cbn in Hl.
  destruct (map_punches_in _ _ _ _ Hl Hp) as (l & p & _ & _ & -> & _).
  destruct (Nat.eqb_spec (p_name p) n) as [E|E].
  - apply Hf.
  - contradiction.
Qed.

Lemma rstep_synced (N : Name -> Prop) (s s' : RState) (n : Name) :
  rstep N s s' -> synced_name n (store s) -> synced_name n (store s').
Proof.
  intros (_ & (g & G & L) & _) Hs l' p' Hl Hp Hname. rewrite L in Hl.
  destruct (map_punches_in _ _ _ _ Hl Hp) as (l & p & Hl0 & Hp0 & -> & _).
  destruct (G p) as (Gn & Gm & _). apply Gm. apply (Hs l p); auto. congruence.
Qed.

(** ** The key of a Checkin Event *)

Lemma checkin_exists_key (st : Store) (emp : string) (dt : DateTime) :
  checkin_exists st emp dt = true <-> In (emp, dt) (map checkin_key (checkins st)).
Proof.
  unfold checkin_exists. rewrite existsb_exists, in_map_iff. split.
  - intros (c & Hc & H). apply andb_true_iff in H. destruct H as [He Ht].
    apply String.eqb_eq in He. apply datetime_eqb_eq in Ht.
    exists c. split; auto. unfold checkin_key. congruence.
  - intros (c & Hk & Hc). exists c. split; auto. unfold checkin_key in Hk.
    injection Hk as <- <-. rewrite String.eqb_refl. cbn. now apply datetime_eqb_eq.
Qed.

Lemma insert_keeps_key (st : Store) (c : EmployeeCheckin) :
  checkin_exists st (employee c) (time c) = false ->
  one_checkin_per_key st -> one_checkin_per_key (insert_checkin c st).
Proof.
  intros Hex Hk. unfold one_checkin_per_key, insert_checkin. cbn.
  rewrite map_app. cbn. apply NoDup_snoc; auto.
  intros H. apply checkin_exists_key in H. congruence.
Qed.

(** ** [_create_checkin_for_punch], case by case *)

Section Create.

Variable w : ReducerWorld.
Variable geo : Coord * Coord.
Variable emp : string.
Variable the_date : Date.
Variable punch : Row.
Variable lt : LogType.

Lemma create_parse_fails (s : RState) :
  get_datetime w the_date (punch_time punch) = None ->
  _create_checkin_for_punch w geo emp the_date punch lt s = (s, Raise ParserError).
Proof. intros H. unfold _create_checkin_for_punch. now rewrite H. Qed.

Lemma create_exists (s : RState) (dt : DateTime) :
  get_datetime w the_date (punch_time punch) = Some dt ->
  checkin_exists (store s) emp dt = true ->
  _create_checkin_for_punch w geo emp the_date punch lt s
  = (mkRState (update_punch (punch_name punch) mark_synced (store s))
              (created s) (S (already_synced s)),
     Return tt).
Proof.
  intros Hdt Hex. unfold _create_checkin_for_punch. rewrite Hdt.
  unfold bind, gets, modify. cbn. now rewrite Hex.
Qed.

Lemma create_insert_fails (s : RState) (dt : DateTime) :
  get_datetime w the_date (punch_time punch) = Some dt ->
  checkin_exists (store s) emp dt = false ->
  insert_ok w (store s) (new_checkin w geo emp dt punch lt) = false ->
  _create_checkin_for_punch w geo emp the_date punch lt s = (s, Raise InsertError).
Proof.
  intros Hdt Hex Hok. unfold _create_checkin_for_punch. rewrite Hdt.
  unfold bind, gets, modify, raise. cbn. rewrite Hex. cbn. now rewrite Hok.
Qed.

Lemma create_inserts (s : RState) (dt : DateTime) :
  get_datetime w the_date (punch_time punch) = Some dt ->
  checkin_exists (store s) emp dt = false ->
  insert_ok w (store s) (new_checkin w geo emp dt punch lt) = true ->
  _create_checkin_for_punch w geo emp the_date punch lt s
  = (mkRState
       (update_punch (punch_name punch)
          (mark_synced_linked
             (when (punch_has_employee_checkin (columns w)) (next_name (store s))))
          (insert_checkin
             (with_name (new_checkin w geo emp dt punch lt) (next_name (store s)))
             (store s)))
       (S (created s)) (already_synced s),
     Return tt).
Proof.
  intros Hdt Hex Hok. unfold _create_checkin_for_punch. rewrite Hdt.
  unfold bind, gets, modify, raise. cbn. rewrite Hex. cbn. now rewrite Hok.
Qed.

Lemma rstep_insert (N : Name -> Prop) (s : RState) (c : EmployeeCheckin) (cr al : nat) :
  checkin_exists (store s) (employee c) (time c) = false ->
  rstep N s (mkRState (insert_checkin c (store s)) cr al).
Proof.
  intros Hex. unfold rstep. cbn.
  split; [reflexivity|]. split; [|split].
  - exists (fun p => p). split; [|now rewrite map_punches_id]. intros p. auto.
  - now exists [c].
  - now apply insert_keeps_key.
Qed.

(** Whatever the call does, it only marks the punch it was given, only
    adds Checkin Events and keeps their key; when it returns, the punch is
    marked. *)
Lemma create_step (s s' : RState) (o : outcome unit) :
  _create_checkin_for_punch w geo emp the_date punch lt s = (s', o) ->
  rstep (eq (punch_name punch)) s s'
  /\ (o = Return tt -> synced_name (punch_name punch) (store s')).
Proof.
  intros H.
  destruct (get_datetime w the_date (punch_time punch)) as [dt|] eqn:Hdt.
  2:{ rewrite (create_parse_fails _ Hdt) in H. injection H as <- <-.
      split; [apply rstep_refl|discriminate]. }
  destruct (checkin_exists (store s) emp dt) eqn:Hex.
  { rewrite (create_exists _ Hdt Hex) in H. injection H as <- <-. split.
    - apply rstep_update; auto using mark_synced_ok.
    - intros _. cbn. apply update_punch_synced. apply mark_synced_ok. }
  destruct (insert_ok w (store s) (new_checkin w geo emp dt punch lt)) eqn:Hok.
  2:{ rewrite (create_insert_fails _ Hdt Hex Hok) in H. injection H as <- <-.
      split; [apply rstep_refl|discriminate]. }
  rewrite (create_inserts _ Hdt Hex Hok) in H. injection H as <- <-. split.
  - eapply rstep_trans.
    + apply (rstep_insert (eq (punch_name punch)) s
               (with_name (new_checkin w geo emp dt punch lt) (next_name (store s)))
               (created s) (already_synced s)).
      exact Hex.
    + apply (@rstep_update (eq (punch_name punch))
               (mkRState (insert_checkin
                            (with_name (new_checkin w geo emp dt punch lt)
                                       (next_name (store s)))
                            (store s))
                         (created s) (already_synced s))
               (punch_name punch)); auto using mark_synced_linked_ok.
  - intros _. cbn. apply update_punch_synced. intros p. apply mark_synced_linked_ok.
Qed.

End Create.

(** The loop that marks the middle punches. *)
Lemma mark_middle (mids : list Row) : forall s : RState,
  exists s',
    for_each (fun p => modify (fun s =>
                 mkRState (update_punch (punch_name p) mark_synced (store s))
                          (created s) (already_synced s))) mids s
    = (s', Return tt)
    /\ rstep (names_of mids) s s'
    /\ (forall r, In r mids -> synced_name (punch_name r) (store s'))
    /\ created s' = created s /\ already_synced s' = already_synced s
    /\ checkins (store s') = checkins (store s)
    /\ next_name (store s') = next_name (store s).
Proof.
  induction mids as [|p mids IH]; intros s.
  - exists s. cbn. unfold ret. split; [reflexivity|]. split; [apply rstep_refl|].
    split; [intros r []|auto].
  - cbn [for_each]. unfold bind at 1. unfold modify at 1.
    destruct (IH (mkRState (update_punch (punch_name p) mark_synced (store s))
                           (created s) (already_synced s)))
      as (s' & E & R & Sy & C & A & K & Nx).
    exists s'. rewrite E. split; [reflexivity|].
    assert (R0 : rstep (names_of (p :: mids)) s
                   (mkRState (update_punch (punch_name p) mark_synced (store s))
                             (created s) (already_synced s))).
    { apply rstep_update; [now left|apply mark_synced_ok]. }
    split; [|split; [|auto]].
    + eapply rstep_trans; [exact R0|].
      eapply rstep_weaken; [|exact R]. intros n Hn. now right.
    + intros r [<-|Hr]; [|auto].
      eapply rstep_synced; [exact R|]. cbn.
      apply update_punch_synced. apply mark_synced_ok.
Qed.

(** ** One group *)

Section Groups.

Variable w : ReducerWorld.
Variable geo : Coord * Coord.

Lemma process_group_skipped (s : RState) (emp_no : option string) (d : Date)
      (rows : list Row) :
  skipped_group (store s) emp_no = true ->
  process_group w geo ((emp_no, d), rows) s = (s, Return tt).
Proof.
  unfold skipped_group, process_group. intros H.
  destruct (str_truthy emp_no); cbn in *; [|reflexivity].
  unfold bind, gets. cbn.
  destruct (get_employee (store s) emp_no) as [row|]; [|reflexivity].
  now rewrite H.
Qed.

Lemma process_group_active (s : RState) (emp_no : option string) (d : Date)
      (rows : list Row) (row : Employee) :
  str_truthy emp_no = true ->
  get_employee (store s) emp_no = Some row ->
  status row = "Active"%string ->
  process_group w geo ((emp_no, d), rows) s
  = match py_sort rows with
    | Raise e => (s, Raise e)
    | Return [] => (s, Raise IndexError)
    | Return (first :: rest) => boundary_events w geo (e_name row) d first rest s
    end.
Proof.
  intros Ht He Hs. unfold process_group. rewrite Ht. cbn [negb].
  unfold bind at 1. unfold gets at 1. rewrite He, Hs. cbn [String.eqb negb].
  change (("Active" =? "Active")%string) with true. cbn [negb].
  destruct (py_sort rows) as [[|first rest]|e]; reflexivity.
Qed.

Lemma skipped_or_active (st : Store) (emp_no : option string) :
  skipped_group st emp_no = false ->
  str_truthy emp_no = true
  /\ exists row, get_employee st emp_no = Some row /\ status row = "Active"%string.
Proof.
  unfold skipped_group. intros H. apply orb_false_iff in H. destruct H as [H1 H2].
  apply negb_false_iff in H1. split; auto.
  destruct (get_employee st emp_no) as [row|]; [|discriminate].
  exists row. split; auto. apply negb_false_iff in H2. now apply String.eqb_eq.
Qed.

Lemma middle_of_in (first last r : Row) (l : list Row) :
  In r l ->
  punch_name r = punch_name first \/ punch_name r = punch_name last
  \/ In r (middle_of first last l).
Proof.
  intros Hr. unfold middle_of.
  destruct (Nat.eqb_spec (punch_name r) (punch_name first)) as [E1|E1]; auto.
  destruct (Nat.eqb_spec (punch_name r) (punch_name last)) as [E2|E2]; auto.
  right. right. apply filter_In. split; auto.
  apply Nat.eqb_neq in E1, E2. now rewrite E1, E2.
Qed.

Lemma middle_of_sub (first last : Row) (l : list Row) (n : Name) :
  names_of (middle_of first last l) n -> names_of l n.
Proof.
  unfold names_of, middle_of. rewrite !in_map_iff.
  intros (r & E & Hr). apply filter_In in Hr. exists r. tauto.
Qed.

Lemma boundary_events_step (emp : string) (d : Date) (first : Row) (rest : list Row)
      (s s' : RState) (o : outcome unit) :
  boundary_events w geo emp d first rest s = (s', o) ->
  rstep (names_of (first :: rest)) s s'
  /\ (o = Return tt -> forall r, In r (first :: rest) -> synced_name (punch_name r) (store s')).
Proof.
  unfold boundary_events. set (last := List.last (first :: rest) first).
  assert (Hlast : In last (first :: rest)).
  { unfold last. rewrite last_cons_default. apply last_in. }
  assert (Nfirst : forall n, punch_name first = n -> names_of (first :: rest) n).
  { intros n <-. unfold names_of. apply in_map. now left. }
  assert (Nlast : forall n, punch_name last = n -> names_of (first :: rest) n).
  { intros n <-. unfold names_of. now apply in_map. }
  unfold bind at 1.
  destruct (_create_checkin_for_punch w geo emp d first IN s) as [s1 o1] eqn:E1.
  destruct (@create_step _ _ _ _ _ _ _ _ _ E1) as [R1 S1].
  apply (@rstep_weaken _ _ _ _ Nfirst) in R1.
  destruct o1 as [[]|e1].
  2:{ intros H. injection H as <- <-. split; [exact R1|discriminate]. }
  specialize (S1 eq_refl).
  unfold bind at 1.
  destruct ((if negb (Nat.eqb (punch_name last) (punch_name first))
             then _create_checkin_for_punch w geo emp d last OUT
             else ret tt) s1) as [s2 o2] eqn:E2.
  assert (R2 : rstep (names_of (first :: rest)) s1 s2
               /\ (o2 = Return tt -> synced_name (punch_name last) (store s2))).
  { destruct (Nat.eqb_spec (punch_name last) (punch_name first)) as [En|En]; cbn in E2.
    - unfold ret in E2. injection E2 as <- <-. split; [apply rstep_refl|].
      intros _. now rewrite En.
    - destruct (@create_step _ _ _ _ _ _ _ _ _ E2) as [R S2].
      split; [exact (@rstep_weaken _ _ _ _ Nlast R)|exact S2]. }
  destruct R2 as [R2 S2].
  destruct o2 as [[]|e2].
  2:{ intros H. injection H as <- <-. split; [|discriminate].
      eapply rstep_trans; eauto. }
  specialize (S2 eq_refl).
  destruct (mark_middle (middle_of first last (first :: rest)) s2)
    as (s3 & E3 & R3 & S3 & _).
  rewrite E3. intros H. injection H as <- <-.
  apply (@rstep_weaken _ _ _ _ (@middle_of_sub first last (first :: rest))) in R3.
  split.
  - eapply rstep_trans; [exact R1|]. eapply rstep_trans; [exact R2|exact R3].
  - intros _ r Hr.
    destruct (@middle_of_in first last r _ Hr) as [E|[E|Hm]].
    + rewrite E. eapply rstep_synced; [exact R3|].
      eapply rstep_synced; [exact R2|exact S1].
    + rewrite E. eapply rstep_synced; [exact R3|exact S2].
    + now apply S3.
Qed.

(** A group only marks its own punches, and only when it is not passed
    over; when its processing returns, all its punches are marked. *)
Lemma process_group_step (k : GroupKey) (rows : list Row) (s s' : RState)
      (o : outcome unit) :
  process_group w geo (k, rows) s = (s', o) ->
  rstep (fun n => skipped_group (store s) (fst k) = false /\ names_of rows n) s s'
  /\ (skipped_group (store s) (fst k) = false -> o = Return tt ->
      forall r, In r rows -> synced_name (punch_name r) (store s')).
Proof.
  destruct k as [emp_no d]. cbn [fst]. intros H.
  destruct (skipped_group (store s) emp_no) eqn:Hsk.
  - rewrite (@process_group_skipped s emp_no d rows Hsk) in H. injection H as <- <-.
    split; [apply rstep_refl|discriminate].
  - destruct (@skipped_or_active _ _ Hsk) as (Ht & row & He & Hs).
    rewrite (@process_group_active s emp_no d rows row Ht He Hs) in H.
    destruct (py_sort rows) as [[|first rest]|e] eqn:Hsort.
    + injection H as <- <-. split; [apply rstep_refl|discriminate].
    + destruct (@boundary_events_step _ _ _ _ _ _ _ H) as [R S]. split.
      * eapply rstep_weaken; [|exact R]. intros n Hn. split; [reflexivity|].
        unfold names_of in *. apply in_map_iff in Hn. destruct Hn as (r & <- & Hr).
        apply in_map. now apply (py_sort_in _ Hsort).
      * intros _ Ho r Hr. apply S; auto. now apply (py_sort_in _ Hsort).
    + injection H as <- <-. split; [apply rstep_refl|discriminate].
Qed.

Lemma skipped_group_employees (st st' : Store) (emp_no : option string) :
  employees st' = employees st ->
  skipped_group st' emp_no = skipped_group st emp_no.
Proof. intros H. unfold skipped_group, get_employee. now rewrite H. Qed.

(** ** The loop over the groups *)

Lemma run_groups_step (groups : list (GroupKey * list Row)) : forall (s s' : RState)
      (o : outcome unit),
  for_each (process_group w geo) groups s = (s', o) ->
  rstep (fun n => exists k rows, In (k, rows) groups
                    /\ skipped_group (store s) (fst k) = false /\ names_of rows n) s s'
  /\ (o = Return tt -> forall k rows, In (k, rows) groups ->
      skipped_group (store s) (fst k) = false ->
      forall r, In r rows -> synced_name (punch_name r) (store s')).
Proof.
  induction groups as [|[k rows] groups IH]; intros s s' o H.
  - cbn in H. unfold ret in H. injection H as <- <-.
    split; [apply rstep_refl|]. intros _ k rows [].
  - cbn [for_each] in H. unfold bind at 1 in H.
    destruct (process_group w geo (k, rows) s) as [s1 o1] eqn:E1.
    destruct (@process_group_step _ _ _ _ _ E1) as [R1 S1].
    assert (R1' : rstep (fun n => exists k0 rows0, In (k0, rows0) ((k, rows) :: groups)
                    /\ skipped_group (store s) (fst k0) = false /\ names_of rows0 n) s s1).
    { eapply rstep_weaken; [|exact R1]. intros n [Hs Hn]. exists k, rows.
      split; [now left|auto]. }
    destruct o1 as [[]|e1].
    2:{ injection H as <- <-. split; [exact R1'|discriminate]. }
    destruct (IH _ _ _ H) as [R2 S2].
    assert (Hemp : employees (store s1) = employees (store s)) by apply R1.
    split.
    + eapply rstep_trans; [exact R1'|].
      eapply rstep_weaken; [|exact R2]. intros n (k0 & rows0 & Hin & Hs & Hn).
      exists k0, rows0. split; [now right|]. split; auto.
      now rewrite <- (@skipped_group_employees _ _ _ Hemp).
    + intros Ho k0 rows0 [Hin|Hin] Hs r Hr.
      * injection Hin as <- <-. eapply rstep_synced; [exact R2|]. now apply S1.
      * apply (S2 Ho k0 rows0); auto.
        now rewrite (@skipped_group_employees _ _ _ Hemp).
Qed.

End Groups.

(** ** Running the reducer twice *)

Section Twice.

Variable w : ReducerWorld.

Lemma run_all_skipped (geo : Coord * Coord) (groups : list (GroupKey * list Row))
      (s : RState) :
  (forall k rows, In (k, rows) groups -> skipped_group (store s) (fst k) = true) ->
  for_each (process_group w geo) groups s = (s, Return tt).
Proof.
  induction groups as [|[[emp_no d] rows] groups IH]; intros H; [reflexivity|].
  cbn [for_each]. unfold bind.
  rewrite (@process_group_skipped w geo s emp_no d rows).
  - apply IH. intros k rows0 Hin. apply (H k rows0). now right.
  - apply (H (emp_no, d) rows). now left.
Qed.

(** After a run that returned, every punch that is still unsynced belongs
    to a group that the reducer passes over. *)
Lemma leftovers_skipped (st st1 : Store) (r : nat * nat) :
  sync_punches_to_employee_checkin w st = (st1, Return r) ->
  forall row, In row (unsynced_rows st1) ->
    skipped_group st1 (employee_no row) = true.
Proof.
  unfold sync_punches_to_employee_checkin. intros H row Hrow.
  destruct (select_unsynced st) as [|r0 rs] eqn:Hsel.
  { injection H as <- <-. apply select_unsynced_in in Hrow.
    rewrite Hsel in Hrow. destruct Hrow. }
  rewrite <- Hsel in H.
  destruct (for_each (process_group w (get_geolocation (ipinfo w)))
                     (group_rows (select_unsynced st)) (mkRState st 0 0))
    as [s o] eqn:Hrun.
  destruct o as [[]|e]; [|discriminate]. injection H as <- _.
  destruct (@run_groups_step w _ _ _ _ _ Hrun) as [(Hemp & (g & G & L) & _) Hsync].
  cbn [store] in Hemp, L, Hsync.
  apply unsynced_rows_in in Hrow.
  destruct Hrow as (l1 & p1 & Hl1 & Hp1 & Hun & ->).
  rewrite L in Hl1.
  destruct (map_punches_in _ _ _ _ Hl1 Hp1) as (l & p & Hl & Hp & -> & _ & Hno & Hdate).
  destruct (G p) as (Gn & Gm & _).
  cbn [employee_no join_row]. rewrite Hno.
  rewrite (@skipped_group_employees _ _ _ Hemp).
  destruct (skipped_group st (l_employee_no l)) eqn:Hsk; [reflexivity|exfalso].
  assert (Hp_un : coalesce0 (p_synced_to_employee_checkin p) = false).
  { destruct (coalesce0 (p_synced_to_employee_checkin p)) eqn:E; [|reflexivity].
    rewrite (Gm eq_refl) in Hun. discriminate. }
  assert (Hrow0 : In (join_row l p) (select_unsynced st)).
  { apply select_unsynced_in. apply unsynced_rows_in. exists l, p. auto. }
  destruct (group_rows_spec (select_unsynced st)) as [Hkeyed Hcover].
  destruct (Hcover _ Hrow0) as (k & rows & Hin & Hr).
  destruct (Hkeyed _ _ Hin) as [_ Hkey]. specialize (Hkey _ Hr). cbn in Hkey.
  assert (Hs : synced_name (p_name p) (store s)).
  { apply (Hsync eq_refl k rows Hin) with (r := join_row l p); auto.
    rewrite <- Hkey. exact Hsk. }
  rewrite <- L in Hl1. rewrite (Hs _ _ Hl1 Hp1 Gn) in Hun. discriminate.
Qed.

(** C1 (as amended): a run of the reducer right after a run that
    returned finds nothing to do: it creates nothing, counts nothing as
    already synced and leaves the store as it is, because the first run
    marked every punch of every group it processed and the groups it
    passed over are passed over again. *)
Theorem second_run_idle (st st1 : Store) (c1 a1 : nat) :
  sync_punches_to_employee_checkin w st = (st1, Return (c1, a1)) ->
  sync_punches_to_employee_checkin w st1 = (st1, Return (0, 0)).
Proof.
  intros H. pose proof (leftovers_skipped _ H) as Hleft.
  unfold sync_punches_to_employee_checkin.
  destruct (select_unsynced st1) as [|r0 rs] eqn:Hsel; [reflexivity|].
  rewrite <- Hsel.
  rewrite run_all_skipped; [reflexivity|].
  intros k rows Hin. cbn [store].
  destruct (group_rows_spec (select_unsynced st1)) as [Hkeyed _].
  destruct (Hkeyed _ _ Hin) as [Hne Hkey].
  destruct rows as [|r rows]; [congruence|].
  rewrite <- (Hkey r (or_introl eq_refl)). cbn [fst].
  apply Hleft. apply select_unsynced_in.
  eapply group_rows_from; [exact Hin|now left].
Qed.

End Twice.

(** The four punches of the sample day: the first run creates two Checkin
    Events, the second run reports (0, 0). *)
Lemma second_run_idle_witness :
  snd (sync_punches_to_employee_checkin Sample.world Sample.four_punches) = Return (2, 0)
  /\ snd (sync_punches_to_employee_checkin Sample.world
            (fst (sync_punches_to_employee_checkin Sample.world Sample.four_punches)))
     = Return (0, 0).
Proof.
  split; [vm_compute; reflexivity|].
  rewrite (@second_run_idle Sample.world Sample.four_punches
             (fst (sync_punches_to_employee_checkin Sample.world Sample.four_punches)) 2 0).
  - reflexivity.
  - vm_compute. reflexivity.
Defined.

(** C1 as stated fails: on the sample day the first run creates two
    Checkin Events and the second run counts none as already synced. *)
Lemma second_run_counts_nothing :
  ~ (forall (w : ReducerWorld) (st st1 st2 : Store) (c1 a1 c2 a2 : nat),
       sync_punches_to_employee_checkin w st = (st1, Return (c1, a1)) ->
       sync_punches_to_employee_checkin w st1 = (st2, Return (c2, a2)) ->
       c2 = 0 /\ a2 = c1).
Proof.
  intros H.
  pose (st1 := fst (sync_punches_to_employee_checkin Sample.world Sample.four_punches)).
  assert (E1 : sync_punches_to_employee_checkin Sample.world Sample.four_punches
               = (st1, Return (2, 0))) by (vm_compute; reflexivity).
  assert (E2 : sync_punches_to_employee_checkin Sample.world st1
               = (st1, Return (0, 0))) by (vm_compute; reflexivity).
  destruct (H _ _ _ _ _ _ _ _ E1 E2) as [_ Ha]. discriminate.
Qed.

(** ** The key of the Checkin Events is kept *)

Lemma run_step (w : ReducerWorld) (st st' : Store) (o : outcome (nat * nat)) :
  sync_punches_to_employee_checkin w st = (st', o) ->
  exists c a,
    rstep (fun n => exists k rows, In (k, rows) (group_rows (select_unsynced st))
                      /\ skipped_group st (fst k) = false /\ names_of rows n)
          (mkRState st 0 0) (mkRState st' c a).
Proof.
  unfold sync_punches_to_employee_checkin. intros H.
  remember (select_unsynced st) as sel eqn:Hsel in H.
  destruct sel as [|r0 rs].
  { injection H as <- <-. exists 0, 0. apply rstep_refl. }
  rewrite Hsel in H.
  destruct (for_each (process_group w (get_geolocation (ipinfo w)))
                     (group_rows (select_unsynced st)) (mkRState st 0 0))
    as [s o'] eqn:Hrun.
  destruct (@run_groups_step w _ _ _ _ _ Hrun) as [R _]. cbn [store] in R.
  exists (created s), (already_synced s).
  assert (Hst : st' = store s) by (destruct o'; now injection H as <- _).
  subst st'. destruct s as [st1 c1 a1]. exact R.
Qed.

(** C6: right before it creates an event, [_create_checkin_for_punch]
    looks for a Checkin Event of the same employee and time; when there is
    one it counts the punch as already synced, marks it, and creates
    nothing.  So a run of the reducer, however it ends, keeps the store at
    one Checkin Event at most per (employee, time). *)
Theorem one_checkin_per_key_kept (w : ReducerWorld) :
  (forall (geo : Coord * Coord) (emp : string) (d : Date) (punch : Row) (lt : LogType)
          (s : RState) (dt : DateTime),
      get_datetime w d (punch_time punch) = Some dt ->
      checkin_exists (store s) emp dt = true ->
      exists s',
        _create_checkin_for_punch w geo emp d punch lt s = (s', Return tt)
        /\ checkins (store s') = checkins (store s)
        /\ created s' = created s
        /\ already_synced s' = S (already_synced s)
        /\ synced_name (punch_name punch) (store s'))
  /\ (forall (st st' : Store) (o : outcome (nat * nat)),
      sync_punches_to_employee_checkin w st = (st', o) ->
      one_checkin_per_key st -> one_checkin_per_key st').
Proof.
  split.
  - intros geo emp d punch lt s dt Hdt Hex.
    eexists. split; [apply (create_exists w geo emp d punch lt s Hdt Hex)|].
    cbn. repeat split. apply update_punch_synced. apply mark_synced_ok.
  - intros st st' o H Hk.
    destruct (run_step _ _ H) as (c & a & _ & _ & _ & K). exact (K Hk).
Qed.

(** On the sample day with a Checkin Event at 08:00 already there, the run
    counts the 08:00 punch as already synced, creates the 17:30 event only
    and keeps one event per key. *)
Lemma one_checkin_per_key_kept_witness :
  one_checkin_per_key Sample.four_punches_one_checkin
  /\ snd (sync_punches_to_employee_checkin Sample.world Sample.four_punches_one_checkin)
     = Return (1, 1)
  /\ one_checkin_per_key
       (fst (sync_punches_to_employee_checkin Sample.world Sample.four_punches_one_checkin)).
Proof.
  assert (K : one_checkin_per_key Sample.four_punches_one_checkin).
  { unfold one_checkin_per_key. cbn. constructor; [intros []|constructor]. }
  split; [exact K|]. split; [vm_compute; reflexivity|].
  destruct (one_checkin_per_key_kept Sample.world) as [_ Hrun].
  apply (Hrun Sample.four_punches_one_checkin _
           (snd (sync_punches_to_employee_checkin Sample.world
                   Sample.four_punches_one_checkin))).
  - now destruct (sync_punches_to_employee_checkin Sample.world
                    Sample.four_punches_one_checkin).
  - exact K.
Defined.

(** ** Groups that are passed over *)

Lemma punch_names_locate (ls : list AttendanceLog) (l l2 : AttendanceLog)
      (p p2 : Punch) :
  NoDup (map p_name (flat_map punch_table ls)) ->
  In l ls -> In p (punch_table l) -> In l2 ls -> In p2 (punch_table l2) ->
  p_name p = p_name p2 -> l_employee_no l2 = l_employee_no l.
Proof.
  induction ls as [|l0 ls IH]; cbn; intros Hnd Hl Hp Hl2 Hp2 Hn; [contradiction|].
  rewrite map_app in Hnd.
  assert (Hcross : forall la lb pa pb, la = l0 -> In lb ls ->
            In pa (punch_table la) -> In pb (punch_table lb) ->
            p_name pa = p_name pb -> False).
  { intros la lb pa pb -> Hlb Hpa Hpb E.
    apply (NoDup_app_disjoint _ _ (p_name pa) Hnd).
    - now apply in_map.
    - rewrite E. apply in_map. apply in_flat_map. eauto. }
  destruct Hl as [Hl|Hl], Hl2 as [Hl2|Hl2].
  - congruence.
  - exfalso. symmetry in Hl. eapply (Hcross l l2 p p2); eauto.
  - exfalso. symmetry in Hl2. eapply (Hcross l2 l p2 p); eauto.
  - apply IH; auto. now apply NoDup_app_remove_l in Hnd.
Qed.

(** C7: a group whose device number is falsy, is carried by no
    Employee, or belongs to an Employee that is not Active is passed over:
    its processing returns without an exception and changes neither the
    store nor the counters, so it creates no Checkin Event.  After a whole
    run, however it ends, the punches of such a group are stored as they
    were (unsynced punches stay unsynced), punch names being unique. *)
Theorem skipped_group_untouched (w : ReducerWorld) :
  (forall (geo : Coord * Coord) (s : RState) (emp_no : option string) (d : Date)
          (rows : list Row),
      skipped_group (store s) emp_no = true ->
      process_group w geo ((emp_no, d), rows) s = (s, Return tt))
  /\ (forall (st st' : Store) (o : outcome (nat * nat)) (l : AttendanceLog) (p : Punch),
      sync_punches_to_employee_checkin w st = (st', o) ->
      NoDup (map p_name (all_punches st)) ->
      In l (logs st) -> In p (punch_table l) ->
      skipped_group st (l_employee_no l) = true ->
      exists l', In l' (logs st') /\ In p (punch_table l')
                 /\ l_name l' = l_name l /\ l_employee_no l' = l_employee_no l
                 /\ l_event_date l' = l_event_date l).
Proof.
  split.
  - intros geo s emp_no d rows. apply process_group_skipped.
  - intros st st' o l p H Hnd Hl Hp Hsk.
    destruct (run_step _ _ H) as (c & a & _ & (g & G & L) & _). cbn [store] in L.
    destruct (G p) as (_ & _ & Gid).
    assert (Hid : g p = p).
    { apply Gid. intros (k & rows & Hin & Hnsk & Hn).
      unfold names_of in Hn. apply in_map_iff in Hn. destruct Hn as (r & Hname & Hr).
      destruct (group_rows_spec (select_unsynced st)) as [Hkeyed _].
      destruct (Hkeyed _ _ Hin) as [_ Hkey]. specialize (Hkey _ Hr).
      pose proof (@group_rows_from _ _ _ _ Hin Hr) as Hsel.
      apply select_unsynced_in in Hsel. apply unsynced_rows_in in Hsel.
      destruct Hsel as (l2 & p2 & Hl2 & Hp2 & _ & ->). cbn in Hname, Hkey.
      assert (E : l_employee_no l2 = l_employee_no l).
      { eapply punch_names_locate; eauto. }
      rewrite <- Hkey in Hnsk. cbn [fst] in Hnsk. congruence. }
    destruct (map_punches_in_fwd g (logs st) l p Hl Hp) as (l' & Hl' & Hp' & E1 & E2 & E3).
    exists l'. rewrite L. rewrite Hid in Hp'. auto.
Qed.

(** Employee 9 has left and number 99 is unknown: their punches are still
    stored, unsynced, after the run. *)
Lemma skipped_group_untouched_witness :
  exists l', In l' (logs (fst (sync_punches_to_employee_checkin
                                  Sample.world Sample.four_employees)))
             /\ In (Sample.punch_at 8 (hms 8 15 0)) (punch_table l')
             /\ l_name l' = 7
             /\ l_employee_no l' = Some "99"%string
             /\ l_event_date l' = Sample.jan15.
Proof.
  destruct (skipped_group_untouched Sample.world) as [_ Hrun].
  apply (Hrun Sample.four_employees _
           (snd (sync_punches_to_employee_checkin Sample.world Sample.four_employees))
           (mkLog 7 (Some "99"%string) Sample.jan15 None [Sample.punch_at 8 (hms 8 15 0)])).
  - now destruct (sync_punches_to_employee_checkin Sample.world Sample.four_employees).
  - cbn. repeat constructor; cbn; intuition discriminate.
  - cbn. auto.
  - cbn. auto.
  - reflexivity.
Defined.

(** ** A failed insert ends the run *)

Lemma for_each_raise {S A} (body : A -> M S unit) (done later : list A) (x : A)
      (s s1 s2 : S) (e : exn) :
  for_each body done s = (s1, Return tt) ->
  body x s1 = (s2, Raise e) ->
  for_each body (done ++ x :: later) s = (s2, Raise e).
Proof.
  revert s. induction done as [|y done IH]; intros s Hdone Hx; cbn in *.
  - unfold ret in Hdone. injection Hdone as <-. unfold bind. now rewrite Hx.
  - unfold bind in *. destruct (body y s) as [s0 [[]|e0]]; [|discriminate].
    now apply IH.
Qed.

(** C10: when the insert of a Checkin Event fails,
    [_create_checkin_for_punch] raises with the state as it was; the
    exception of a boundary event leaves [process_group], the groups after
    the failing one are not processed, and neither
    [sync_punches_to_employee_checkin] nor [sync_to_employee_checkin_only]
    returns a pair of counters. *)
Theorem insert_failure_aborts (w : ReducerWorld) :
  (forall (geo : Coord * Coord) (emp : string) (d : Date) (punch : Row) (lt : LogType)
          (s : RState) (dt : DateTime),
      get_datetime w d (punch_time punch) = Some dt ->
      checkin_exists (store s) emp dt = false ->
      insert_ok w (store s) (new_checkin w geo emp dt punch lt) = false ->
      _create_checkin_for_punch w geo emp d punch lt s = (s, Raise InsertError))
  /\ (forall (geo : Coord * Coord) (s s' : RState) (emp_no : option string) (d : Date)
             (rows : list Row) (row : Employee) (first : Row) (rest : list Row) (e : exn),
      str_truthy emp_no = true ->
      get_employee (store s) emp_no = Some row ->
      status row = "Active"%string ->
      py_sort rows = Return (first :: rest) ->
      (_create_checkin_for_punch w geo (e_name row) d first IN s = (s', Raise e)
       \/ exists s1,
            _create_checkin_for_punch w geo (e_name row) d first IN s = (s1, Return tt)
            /\ punch_name (List.last rest first) <> punch_name first
            /\ _create_checkin_for_punch w geo (e_name row) d (List.last rest first) OUT s1
               = (s', Raise e)) ->
      process_group w geo ((emp_no, d), rows) s = (s', Raise e))
  /\ (forall (st : Store) (done later : list (GroupKey * list Row))
             (g : GroupKey * list Row) (s1 s2 : RState) (e : exn),
      group_rows (select_unsynced st) = done ++ g :: later ->
      for_each (process_group w (get_geolocation (ipinfo w))) done (mkRState st 0 0)
        = (s1, Return tt) ->
      process_group w (get_geolocation (ipinfo w)) g s1 = (s2, Raise e) ->
      sync_punches_to_employee_checkin w st = (store s2, Raise e)
      /\ sync_to_employee_checkin_only w st = (store s2, Raise (Thrown e))).
Proof.
  split; [|split].
  - intros geo emp d punch lt s dt. apply create_insert_fails.
  - intros geo s s' emp_no d rows row first rest e Ht He Hs Hsort Hfail.
    rewrite (@process_group_active w geo s emp_no d rows row Ht He Hs), Hsort.
    unfold boundary_events. rewrite last_cons_default. unfold bind at 1.
    destruct Hfail as [H1|(s1 & H1 & Hne & H2)]; rewrite H1; [reflexivity|].
    unfold bind at 1. apply Nat.eqb_neq in Hne. rewrite Hne. cbn [negb].
    now rewrite H2.
  - intros st done later g s1 s2 e Hgroups Hdone Hg.
    assert (Hsync : sync_punches_to_employee_checkin w st = (store s2, Raise e)).
    { unfold sync_punches_to_employee_checkin.
      destruct (select_unsynced st) as [|r0 rs] eqn:Hsel.
      { cbn in Hgroups. destruct done; discriminate. }
      rewrite Hgroups. now rewrite (@for_each_raise _ _ _ done later g _ s1 s2 e Hdone Hg). }
    split; [exact Hsync|].
    unfold sync_to_employee_checkin_only. now rewrite Hsync.
Qed.

(** The Checkin Events of HR-EMP-2 are refused: the group of employee 7 is
    processed, the group of employee 8 raises, and employee 85, whose group
    comes later, gets no Checkin Event. *)
Lemma insert_failure_aborts_witness :
  snd (sync_punches_to_employee_checkin Sample.world_refusing Sample.four_employees)
    = Raise InsertError
  /\ snd (sync_to_employee_checkin_only Sample.world_refusing Sample.four_employees)
    = Raise (Thrown InsertError)
  /\ map employee
         (checkins (fst (sync_punches_to_employee_checkin
                           Sample.world_refusing Sample.four_employees)))
     = ["HR-EMP-1"%string].
Proof.
  destruct (insert_failure_aborts Sample.world_refusing) as (_ & _ & Hrun).
  pose (groups := group_rows (select_unsynced Sample.four_employees)).
  pose (s1 := fst (for_each
                     (process_group Sample.world_refusing
                        (get_geolocation (ipinfo Sample.world_refusing)))
                     (firstn 1 groups) (mkRState Sample.four_employees 0 0))).
  destruct (Hrun Sample.four_employees (firstn 1 groups) (skipn 2 groups)
              (nth 1 groups ((None, Sample.jan15), [])) s1 s1 InsertError)
    as [H1 H2].
  - vm_compute. reflexivity.
  - vm_compute. reflexivity.
  - vm_compute. reflexivity.
  - rewrite H1, H2. split; [reflexivity|]. split; [reflexivity|].
    vm_compute. reflexivity.
Defined.

(** ** The boundary events of a group *)

Lemma sorted_names_nodup (rows sorted : list Row) :
  py_sort rows = Return sorted ->
  NoDup (map punch_name rows) -> NoDup (map punch_name sorted).
Proof.
  intros Hsort Hnd. apply (NoDup_incl_NoDup Hnd).
  - rewrite !length_map. rewrite (py_sort_length _ Hsort). lia.
  - intros n Hn. apply in_map_iff in Hn. destruct Hn as (r & <- & Hr).
    apply in_map. now apply (py_sort_in _ Hsort).
Qed.

Lemma exists_after_insert (st : Store) (c : EmployeeCheckin) (n : Name)
      (f : Punch -> Punch) (emp : string) (dt : DateTime) :
  checkin_exists (update_punch n f (insert_checkin c st)) emp dt
  = checkin_exists st emp dt
    || (String.eqb (employee c) emp && datetime_eqb (time c) dt).
Proof.
  unfold checkin_exists. cbn. rewrite existsb_app. cbn. now rewrite orb_false_r.
Qed.

(** C5 (as amended): take a group whose employee resolves and is Active,
    whose punches all carry a time other than midnight and have distinct
    names, in a run whose inserts go through.  The sort returns the group
    ordered by time of day; when no Checkin Event exists yet at the
    (employee, timestamp) of the earliest and of the latest punch, and
    these two timestamps differ, the reducer creates exactly one IN event
    from the earliest punch and, unless the group has a single punch,
    exactly one OUT event from the latest; it counts them in [created],
    counts nothing as already synced, and marks every punch of the group,
    the ones in between without an event. *)
Theorem first_in_last_out (w : ReducerWorld) (geo : Coord * Coord) (s : RState)
        (emp_no : option string) (d : Date) (rows : list Row) (row : Employee) :
  str_truthy emp_no = true ->
  get_employee (store s) emp_no = Some row ->
  status row = "Active"%string ->
  rows <> [] ->
  Forall timed rows ->
  NoDup (map punch_name rows) ->
  (forall st c, insert_ok w st c = true) ->
  (exists first rest, py_sort rows = Return (first :: rest))
  /\ forall (first : Row) (rest : list Row) (dt_in dt_out : DateTime),
       py_sort rows = Return (first :: rest) ->
       get_datetime w d (punch_time first) = Some dt_in ->
       get_datetime w d (punch_time (List.last rest first)) = Some dt_out ->
       checkin_exists (store s) (e_name row) dt_in = false ->
       checkin_exists (store s) (e_name row) dt_out = false ->
       (rest <> [] -> dt_in <> dt_out) ->
       let last := List.last rest first in
       let n := next_name (store s) in
       let c_in := with_name (new_checkin w geo (e_name row) dt_in first IN) n in
       let c_out := with_name (new_checkin w geo (e_name row) dt_out last OUT) (S n) in
       (forall r, In r rows -> (time_of first <= time_of r <= time_of last)%Z)
       /\ exists s',
            process_group w geo ((emp_no, d), rows) s = (s', Return tt)
            /\ checkins (store s')
               = checkins (store s)
                 ++ match rest with [] => [c_in] | _ :: _ => [c_in; c_out] end
            /\ created s' = created s + match rest with [] => 1 | _ :: _ => 2 end
            /\ already_synced s' = already_synced s
            /\ forall r, In r rows -> synced_name (punch_name r) (store s').
Proof.
  intros Ht He Hs Hne Htimed Hnd Hok.
  destruct (py_sort_timed Htimed) as (sorted & Hsorted & Hby).
  split.
  { destruct sorted as [|first rest]; [|eauto].
    apply py_sort_length in Hsorted. destruct rows; [congruence|discriminate]. }
  intros first rest dt_in dt_out Hsort Hdt_in Hdt_out Hex_in Hex_out Hdiff last n c_in c_out.
  rewrite Hsort in Hsorted. injection Hsorted as <-.
  split.
  { intros r Hr. apply by_time_bounds; auto. now apply (py_sort_in _ Hsort). }
  pose proof (@process_group_active w geo s emp_no d rows row Ht He Hs) as Hpg.
  rewrite Hsort in Hpg.
  destruct (boundary_events w geo (e_name row) d first rest s) as [s' o] eqn:Hb.
  pose proof Hb as Hrun.
  unfold boundary_events in Hb. rewrite last_cons_default in Hb. fold last in Hb.
  unfold bind at 1 in Hb.
  rewrite (create_inserts w geo (e_name row) d first IN s Hdt_in Hex_in (Hok _ _)) in Hb.
  fold n in Hb. fold c_in in Hb.
  set (s1 := mkRState _ (S (created s)) (already_synced s)) in Hb.
  unfold bind at 1 in Hb.
  assert (Hresult :
    o = Return tt
    /\ checkins (store s')
       = checkins (store s) ++ match rest with [] => [c_in] | _ :: _ => [c_in; c_out] end
    /\ created s' = created s + match rest with [] => 1 | _ :: _ => 2 end
    /\ already_synced s' = already_synced s).
  { destruct rest as [|r1 rest'].
    - cbn in last. subst last. rewrite Nat.eqb_refl in Hb. cbn [negb] in Hb.
      unfold ret at 1 in Hb. unfold middle_of in Hb. cbn [filter] in Hb.
      rewrite Nat.eqb_refl in Hb. cbn in Hb. unfold ret in Hb.
      injection Hb as <- <-. cbn. repeat split; lia.
    - assert (Hnames : punch_name last <> punch_name first).
      { pose proof (@sorted_names_nodup _ _ Hsort Hnd) as Hnd'. cbn [map] in Hnd'.
        inversion Hnd' as [|? ? Hfirst _]; subst. intros E. apply Hfirst.
        rewrite <- E. change (In (punch_name last) (map punch_name (r1 :: rest'))).
        apply in_map. unfold last. rewrite last_cons_default. apply last_in. }
      apply Nat.eqb_neq in Hnames. rewrite Hnames in Hb. cbn [negb] in Hb.
      assert (Hex_out' : checkin_exists (store s1) (e_name row) dt_out = false).
      { unfold s1. cbn [store]. rewrite exists_after_insert, Hex_out. cbn.
        rewrite String.eqb_refl. cbn.
        destruct (datetime_eqb dt_in dt_out) eqn:E; [|reflexivity].
        apply datetime_eqb_eq in E. exfalso. apply Hdiff; [discriminate|exact E]. }
      rewrite (create_inserts w geo (e_name row) d last OUT s1 Hdt_out Hex_out' (Hok _ _))
        in Hb.
      match type of Hb with
      | for_each _ ?mids ?s2 = _ =>
          destruct (mark_middle mids s2) as (s3 & E3 & _ & _ & C3 & A3 & K3 & _)
      end.
      rewrite E3 in Hb. injection Hb as <- <-.
      rewrite K3, C3, A3. cbn. rewrite <- app_assoc. cbn. repeat split; lia. }
  destruct Hresult as (-> & Hck & Hcr & Hal).
  exists s'. rewrite Hpg. split; [reflexivity|]. split; [exact Hck|].
  split; [exact Hcr|]. split; [exact Hal|].
  intros r Hr. destruct (@boundary_events_step w geo _ _ _ _ _ _ _ Hrun) as [_ Hsy].
  apply Hsy; auto. now apply (py_sort_in _ Hsort).
Qed.

(** Punches at 08:00, 12:00, 13:00 and 17:30 for one employee and date
    yield exactly IN at 08:00 and OUT at 17:30, and the four punches are
    all marked. *)
Lemma first_in_last_out_witness :
  let rows := select_unsynced Sample.four_punches in
  exists s',
    process_group Sample.world (get_geolocation None)
                  ((Some "7"%string, Sample.jan15), rows)
                  (mkRState Sample.four_punches 0 0)
    = (s', Return tt)
    /\ map (fun c => (log_type c, time c)) (checkins (store s'))
       = [(IN, (Sample.jan15, hms 8 0 0)); (OUT, (Sample.jan15, hms 17 30 0))]
    /\ created s' = 2 /\ already_synced s' = 0
    /\ forall r, In r rows -> synced_name (punch_name r) (store s').
Proof.
  intros rows.
  destruct (@first_in_last_out Sample.world (get_geolocation None)
              (mkRState Sample.four_punches 0 0) (Some "7"%string) Sample.jan15 rows
              (mkEmployee "HR-EMP-1" (Some "7"%string) "Active"))
    as [_ Hgroup].
  - reflexivity.
  - reflexivity.
  - reflexivity.
  - vm_compute. discriminate.
  - vm_compute. repeat constructor; eexists; (split; [reflexivity|discriminate]).
  - vm_compute. repeat constructor; cbn; intuition discriminate.
  - reflexivity.
  - pose (log := mkLog 1 (Some "7"%string) Sample.jan15 None
                      (punch_table (nth 0 (logs Sample.four_punches)
                                        (mkLog 0 None Sample.jan15 None [])))).
    destruct (Hgroup (join_row log (Sample.punch_at 3 (hms 8 0 0)))
                     [join_row log (Sample.punch_at 2 (hms 12 0 0));
                      join_row log (Sample.punch_at 5 (hms 13 0 0));
                      join_row log (Sample.punch_at 4 (hms 17 30 0))]
                     (Sample.jan15, hms 8 0 0) (Sample.jan15, hms 17 30 0))
      as [_ (s' & Hrun & Hck & Hcr & Hal & Hsy)].
    + vm_compute. reflexivity.
    + vm_compute. reflexivity.
    + vm_compute. reflexivity.
    + reflexivity.
    + reflexivity.
    + intros _ E. vm_compute in E. discriminate.
    + exists s'. split; [exact Hrun|]. split; [|split; [|split]].
      * rewrite Hck. vm_compute. reflexivity.
      * rewrite Hcr. reflexivity.
      * rewrite Hal. reflexivity.
      * exact Hsy.
Defined.

(** C5 as stated fails: on the sample day with a Checkin Event at 08:00
    already there, the group of the Active employee 7 yields the OUT event
    only (no IN event is created from the earliest punch). *)
Lemma existing_event_no_in :
  ~ (forall (w : ReducerWorld) (geo : Coord * Coord) (s : RState)
            (emp_no : option string) (d : Date) (rows : list Row) (row : Employee),
       str_truthy emp_no = true ->
       get_employee (store s) emp_no = Some row ->
       status row = "Active"%string ->
       (2 <= List.length rows)%nat ->
       NoDup (map punch_name rows) ->
       (forall st c, insert_ok w st c = true) ->
       exists s' c_in c_out,
         process_group w geo ((emp_no, d), rows) s = (s', Return tt)
         /\ checkins (store s') = checkins (store s) ++ [c_in; c_out]
         /\ log_type c_in = IN /\ log_type c_out = OUT).
Proof.
  intros H.
  destruct (H Sample.world (get_geolocation None)
              (mkRState Sample.four_punches_one_checkin 0 0)
              (Some "7"%string) Sample.jan15
              (select_unsynced Sample.four_punches_one_checkin)
              (mkEmployee "HR-EMP-1" (Some "7"%string) "Active"))
    as (s' & c_in & c_out & Hrun & Hck & _).
  - reflexivity.
  - reflexivity.
  - reflexivity.
  - vm_compute. lia.
  - vm_compute. repeat constructor; cbn; intuition discriminate.
  - reflexivity.
  - apply (f_equal (fun r => List.length (checkins (store (fst r))))) in Hrun.
    apply (f_equal (@List.length _)) in Hck. rewrite length_app in Hck.
    cbn [fst] in Hrun. rewrite <- Hrun in Hck. vm_compute in Hck. discriminate.
Qed.

(** A group with a punch at midnight and another punch cannot be sorted:
    the key of the midnight punch is the empty string. *)
Example midnight_sort_raises :
  snd (sync_punches_to_employee_checkin Sample.world Sample.midnight_punch)
  = Raise TypeError.
Proof. vm_compute. reflexivity. Qed.

(** ** A run as a sequence of writes *)

Section Writes.

Variable w : ReducerWorld.
Variable geo : Coord * Coord.

Lemma write_employees from (s s' : RState) :
  write w geo from s s' -> employees (store s') = employees (store s).
Proof. intros H. destruct H; reflexivity. Qed.

Lemma writes_employees from (s s' : RState) :
  writes w geo from s s' -> employees (store s') = employees (store s).
Proof.
  induction 1 as [s|s1 s2 s3 H1 _ IH]; [reflexivity|].
  rewrite IH. eapply write_employees; eauto.
Qed.

Lemma writes_trans from (s1 s2 s3 : RState) :
  writes w geo from s1 s2 -> writes w geo from s2 s3 -> writes w geo from s1 s3.
Proof.
  induction 1 as [s|a b c H1 _ IH]; intros H; [exact H|].
  eapply writes_step; [exact H1|]. now apply IH.
Qed.

Lemma writes_one from (s s' : RState) : write w geo from s s' -> writes w geo from s s'.
Proof. intros H. eapply writes_step; [exact H|apply writes_none]. Qed.

Lemma writes_weaken (from from' : option string -> Date -> Row -> Prop) (s s' : RState) :
  (forall e d p, from e d p -> from' e d p) ->
  writes w geo from s s' -> writes w geo from' s s'.
Proof.
  intros Hsub. induction 1 as [s|s1 s2 s3 H1 _ IH]; [apply writes_none|].
  eapply writes_step; [|exact IH].
  destruct H1 as [s e row d p dt Hf Hr Hdt Hex|s e row d p lt dt Hf Hr Hdt Hex Hok|s e d p Hf].
  - eapply write_already; eauto.
  - eapply write_created; eauto.
  - eapply write_middle; eauto.
Qed.

Lemma resolved_employees (st st' : Store) (emp_no : option string) (row : Employee) :
  employees st' = employees st -> resolved st emp_no row -> resolved st' emp_no row.
Proof.
  intros E (H1 & H2 & H3). unfold resolved, get_employee in *. rewrite E. auto.
Qed.

Lemma create_writes from (emp_no : option string) (row : Employee) (d : Date)
      (punch : Row) (lt : LogType) (s s' : RState) (o : outcome unit) :
  from emp_no d punch ->
  resolved (store s) emp_no row ->
  _create_checkin_for_punch w geo (e_name row) d punch lt s = (s', o) ->
  writes w geo from s s'.
Proof.
  intros Hf Hr H.
  destruct (get_datetime w d (punch_time punch)) as [dt|] eqn:Hdt.
  2:{ rewrite (create_parse_fails _ _ _ _ _ _ _ Hdt) in H. injection H as <- _.
      apply writes_none. }
  destruct (checkin_exists (store s) (e_name row) dt) eqn:Hex.
  { rewrite (create_exists _ _ _ _ _ _ _ Hdt Hex) in H. injection H as <- _.
    apply writes_one. eapply write_already; eauto. }
  destruct (insert_ok w (store s) (new_checkin w geo (e_name row) dt punch lt)) eqn:Hok.
  2:{ rewrite (create_insert_fails _ _ _ _ _ _ _ Hdt Hex Hok) in H. injection H as <- _.
      apply writes_none. }
  rewrite (create_inserts _ _ _ _ _ _ _ Hdt Hex Hok) in H. injection H as <- _.
  apply writes_one. eapply write_created; eauto.
Qed.

Lemma middle_writes from (emp_no : option string) (d : Date) (mids : list Row) :
  forall (s s' : RState) (o : outcome unit),
  (forall p, In p mids -> from emp_no d p) ->
  for_each (fun p => modify (fun s =>
              mkRState (update_punch (punch_name p) mark_synced (store s))
                       (created s) (already_synced s))) mids s = (s', o) ->
  writes w geo from s s'.
Proof.
  induction mids as [|p mids IH]; intros s s' o Hf H; cbn in H.
  - unfold ret in H. injection H as <- _. apply writes_none.
  - unfold bind, modify in H. cbn in H.
    eapply writes_step.
    + eapply write_middle. apply Hf. now left.
    + eapply IH; [|exact H]. intros q Hq. apply Hf. now right.
Qed.

Lemma boundary_writes from (emp_no : option string) (row : Employee) (d : Date)
      (first : Row) (rest : list Row) (s s' : RState) (o : outcome unit) :
  resolved (store s) emp_no row ->
  (forall p, In p (first :: rest) -> from emp_no d p) ->
  boundary_events w geo (e_name row) d first rest s = (s', o) ->
  writes w geo from s s'.
Proof.
  intros Hr Hf. unfold boundary_events.
  set (last := List.last (first :: rest) first).
  assert (Hlast : In last (first :: rest)).
  { unfold last. rewrite last_cons_default. apply last_in. }
  unfold bind at 1.
  destruct (_create_checkin_for_punch w geo (e_name row) d first IN s) as [s1 o1] eqn:E1.
  assert (W1 : writes w geo from s s1).
  { eapply create_writes; [|exact Hr|exact E1]. apply Hf. now left. }
  destruct o1 as [[]|e1]; [|intros H; injection H as <- _; exact W1].
  assert (Hr1 : resolved (store s1) emp_no row).
  { eapply resolved_employees; [|exact Hr]. eapply writes_employees; eauto. }
  unfold bind at 1.
  destruct ((if negb (Nat.eqb (punch_name last) (punch_name first))
             then _create_checkin_for_punch w geo (e_name row) d last OUT
             else ret tt) s1) as [s2 o2] eqn:E2.
  assert (W2 : writes w geo from s1 s2).
  { destruct (negb (Nat.eqb (punch_name last) (punch_name first))).
    - eapply create_writes; [|exact Hr1|exact E2]. now apply Hf.
    - unfold ret in E2. injection E2 as <- _. apply writes_none. }
  destruct o2 as [[]|e2];
    [|intros H; injection H as <- _; eapply writes_trans; eauto].
  intros H. eapply writes_trans; [exact W1|]. eapply writes_trans; [exact W2|].
  eapply middle_writes; [|exact H].
  intros p Hp. apply Hf. unfold middle_of in Hp. apply filter_In in Hp. tauto.
Qed.

Lemma process_group_writes (emp_no : option string) (d : Date) (rows : list Row)
      (s s' : RState) (o : outcome unit) :
  process_group w geo ((emp_no, d), rows) s = (s', o) ->
  writes w geo (fun e d' p => e = emp_no /\ d' = d /\ In p rows) s s'.
Proof.
  intros H. destruct (skipped_group (store s) emp_no) eqn:Hsk.
  - rewrite (@process_group_skipped w geo s emp_no d rows Hsk) in H.
    injection H as <- _. apply writes_none.
  - destruct (@skipped_or_active _ _ Hsk) as (Ht & row & He & Hs).
    rewrite (@process_group_active w geo s emp_no d rows row Ht He Hs) in H.
    destruct (py_sort rows) as [[|first rest]|e] eqn:Hsort.
    + injection H as <- _. apply writes_none.
    + eapply boundary_writes; [|  |exact H].
      * split; [exact Ht|]. split; [exact He|exact Hs].
      * intros p Hp. repeat split. now apply (py_sort_in _ Hsort).
    + injection H as <- _. apply writes_none.
Qed.

Lemma run_groups_writes (groups : list (GroupKey * list Row)) :
  forall (s s' : RState) (o : outcome unit),
  for_each (process_group w geo) groups s = (s', o) ->
  writes w geo (fun e d p => exists rows, In ((e, d), rows) groups /\ In p rows) s s'.
Proof.
  induction groups as [|[[emp_no d] rows] groups IH]; intros s s' o H; cbn [for_each] in H.
  - unfold ret in H. injection H as <- _. apply writes_none.
  - unfold bind in H.
    destruct (process_group w geo ((emp_no, d), rows) s) as [s1 o1] eqn:E1.
    assert (W1 : writes w geo
              (fun e d0 p => exists rows0, In ((e, d0), rows0) (((emp_no, d), rows) :: groups)
                                           /\ In p rows0) s s1).
    { eapply writes_weaken; [|eapply process_group_writes; exact E1].
      intros e d0 p (-> & -> & Hp). exists rows. split; [now left|exact Hp]. }
    destruct o1 as [[]|e1]; [|injection H as <- _; exact W1].
    eapply writes_trans; [exact W1|].
    eapply writes_weaken; [|eapply IH; exact H].
    intros e d0 p (rows0 & Hin & Hp). exists rows0. split; [now right|exact Hp].
Qed.

(** What a sequence of writes adds: the Checkin Events counted in
    [created], each built from a punch the writes may come from. *)
Lemma writes_added from (s s' : RState) :
  writes w geo from s s' ->
  exists added,
    checkins (store s') = checkins (store s) ++ added
    /\ List.length added + created s = created s'
    /\ Forall (fun c => exists emp_no d punch row lt n,
                 from emp_no d punch
                 /\ resolved (store s) emp_no row
                 /\ get_datetime w d (punch_time punch) = Some (time c)
                 /\ c = with_name (new_checkin w geo (e_name row) (time c) punch lt) n)
              added.
Proof.
  induction 1 as [s|s1 s2 s3 H1 H2 IH].
  - exists []. rewrite app_nil_r. repeat split; auto.
  - destruct IH as (added & Hck & Hlen & Hall).
    pose proof (write_employees H1) as Hemp.
    assert (Hall' : Forall (fun c => exists emp_no d punch row lt n,
                 from emp_no d punch
                 /\ resolved (store s1) emp_no row
                 /\ get_datetime w d (punch_time punch) = Some (time c)
                 /\ c = with_name (new_checkin w geo (e_name row) (time c) punch lt) n)
              added).
    { eapply Forall_impl; [|exact Hall].
      intros c (e & d & p & row & lt & n & Hf & Hr & Hdt & Hc).
      exists e, d, p, row, lt, n.
      split; [exact Hf|]. split; [|split; [exact Hdt|exact Hc]].
      eapply resolved_employees; [|exact Hr]. now symmetry. }
    destruct H1 as [s e row d p dt Hf Hr Hdt Hex|s e row d p lt dt Hf Hr Hdt Hex Hok|s e d p Hf];
      cbn [store created update_punch set_logs checkins insert_checkin] in Hck, Hlen.
    + exists added. split; [exact Hck|]. split; [exact Hlen|exact Hall'].
    + exists (with_name (new_checkin w geo (e_name row) dt p lt) (next_name (store s)) :: added).
      split; [rewrite Hck, <- app_assoc; reflexivity|]. split; [cbn; lia|].
      constructor; [|exact Hall'].
      exists e, d, p, row, lt, (next_name (store s)).
      split; [exact Hf|]. split; [exact Hr|]. split; [exact Hdt|reflexivity].
    + exists added. split; [exact Hck|]. split; [exact Hlen|exact Hall'].
Qed.

(** What a sequence of writes does to the punches. *)
Lemma writes_flags from (s s' : RState) :
  writes w geo from s s' ->
  exists g, flags_only g /\ logs (store s') = map_punches g (logs (store s)).
Proof.
  assert (Hmark : forall n link, flags_only
            (fun p => if Nat.eqb (p_name p) n then mark_synced_linked link p else p)).
  { intros n link p. destruct (Nat.eqb (p_name p) n); cbn; auto 10. }
  assert (Hmark0 : forall n, flags_only
            (fun p => if Nat.eqb (p_name p) n then mark_synced p else p)).
  { intros n p. destruct (Nat.eqb (p_name p) n); cbn; auto 10. }
  assert (Hcomp : forall g1 g2, flags_only g1 -> flags_only g2 ->
            flags_only (fun p => g2 (g1 p))).
  { intros g1 g2 H1 H2 p.
    destruct (H1 p) as (a1 & b1 & c1 & d1 & e1), (H2 (g1 p)) as (a2 & b2 & c2 & d2 & e2).
    repeat split; try congruence.
    destruct e2 as [e2|e2]; [|now right]. rewrite e2. exact e1. }
  induction 1 as [s|s1 s2 s3 H1 H2 IH].
  - exists (fun p => p). split; [intros p; auto 10|]. symmetry. apply map_punches_id.
  - destruct IH as (g2 & G2 & L2).
    assert (Hstep : exists g1, flags_only g1
                               /\ logs (store s2) = map_punches g1 (logs (store s1))).
    { destruct H1; eexists; (split; [|reflexivity]); auto. }
    destruct Hstep as (g1 & G1 & L1).
    exists (fun p => g2 (g1 p)). split; [now apply Hcomp|].
    now rewrite L2, L1, map_punches_compose.
Qed.

End Writes.

Lemma run_writes (w : ReducerWorld) (st st' : Store) (o : outcome (nat * nat)) :
  sync_punches_to_employee_checkin w st = (st', o) ->
  exists c a,
    writes w (get_geolocation (ipinfo w)) (selected st) (mkRState st 0 0) (mkRState st' c a)
    /\ forall r, o = Return r -> r = (c, a).
Proof.
  unfold sync_punches_to_employee_checkin. intros H.
  remember (select_unsynced st) as sel eqn:Hsel in H.
  destruct sel as [|r0 rs].
  { injection H as <- <-. exists 0, 0. split; [apply writes_none|].
    intros r Hr. now injection Hr. }
  rewrite Hsel in H.
  destruct (for_each (process_group w (get_geolocation (ipinfo w)))
                     (group_rows (select_unsynced st)) (mkRState st 0 0))
    as [s o'] eqn:Hrun.
  exists (created s), (already_synced s).
  assert (Hst : st' = store s) by (destruct o'; now injection H as <- _).
  subst st'. split.
  - destruct s as [st1 c1 a1]. cbn [store created already_synced].
    eapply writes_weaken; [|eapply run_groups_writes; exact Hrun].
    intros e d p (rows & Hin & Hp).
    destruct (group_rows_spec (select_unsynced st)) as [Hkeyed _].
    destruct (Hkeyed _ _ Hin) as [_ Hkey]. specialize (Hkey _ Hp).
    injection Hkey as He Hd. split; [|auto].
    eapply group_rows_from; eauto.
  - intros r Hr. destruct o' as [[]|e]; [|subst o; discriminate].
    rewrite Hr in H. now injection H.
Qed.

(** X1: when a run returns, [created] is the number of Checkin Events it
    added, and the events that were stored before are all kept, in front
    of the new ones. *)
Theorem created_counts_inserted (w : ReducerWorld) (st st' : Store) (c a : nat) :
  sync_punches_to_employee_checkin w st = (st', Return (c, a)) ->
  exists added,
    checkins st' = checkins st ++ added /\ List.length added = c.
Proof.
  intros H. destruct (run_writes _ _ H) as (c' & a' & W & Hr).
  specialize (Hr _ eq_refl). injection Hr as <- <-.
  destruct (writes_added W) as (added & Hck & Hlen & _).
  exists added. cbn in Hck, Hlen. split; [exact Hck|lia].
Qed.

Lemma created_counts_inserted_witness :
  exists added,
    checkins (fst (sync_punches_to_employee_checkin Sample.world Sample.four_employees))
    = checkins Sample.four_employees ++ added
    /\ List.length added = 3.
Proof.
  apply (@created_counts_inserted Sample.world Sample.four_employees _ 3 0).
  vm_compute. reflexivity.
Defined.

(** X2: every Checkin Event a run adds, whether the run returns or
    raises, is built from a punch that was unsynced when the run started:
    its employee is the Active Employee that carries the device number of
    the punch's log, its time is [get_datetime] of the log's date and the
    punch's time, its back-links and device id are the row's. *)
Theorem events_from_unsynced_punches (w : ReducerWorld) (st st' : Store)
        (o : outcome (nat * nat)) :
  sync_punches_to_employee_checkin w st = (st', o) ->
  exists added,
    checkins st' = checkins st ++ added
    /\ Forall (fun c => exists punch,
                 In punch (select_unsynced st)
                 /\ built_from w (get_geolocation (ipinfo w)) st punch c)
              added.
Proof.
  intros H. destruct (run_writes _ _ H) as (c' & a' & W & _).
  destruct (writes_added W) as (added & Hck & _ & Hall).
  exists added. split; [exact Hck|].
  eapply Forall_impl; [|exact Hall].
  intros c (e & d & p & row & lt & n & (Hsel & He & Hd) & Hr & Hdt & Hc).
  exists p. split; [exact Hsel|]. exists row, lt, n. subst e d. auto.
Qed.

Lemma events_from_unsynced_punches_witness :
  exists added,
    checkins (fst (sync_punches_to_employee_checkin Sample.world_refusing
                     Sample.four_employees))
    = checkins Sample.four_employees ++ added
    /\ Forall (fun c => exists punch,
                 In punch (select_unsynced Sample.four_employees)
                 /\ built_from Sample.world_refusing
                      (get_geolocation (ipinfo Sample.world_refusing))
                      Sample.four_employees punch c)
              added.
Proof.
  apply (@events_from_unsynced_punches Sample.world_refusing Sample.four_employees _
           (snd (sync_punches_to_employee_checkin Sample.world_refusing
                   Sample.four_employees))).
  now destruct (sync_punches_to_employee_checkin Sample.world_refusing
                  Sample.four_employees).
Defined.

(** X3: the geolocation is resolved once per run: every Checkin Event a
    run adds carries the pair of [get_geolocation] in the coordinate
    columns that exist, and the fallback pair when the provider failed. *)
Theorem one_geolocation_per_run (w : ReducerWorld) (st st' : Store)
        (o : outcome (nat * nat)) :
  sync_punches_to_employee_checkin w st = (st', o) ->
  exists added,
    checkins st' = checkins st ++ added
    /\ forall c, In c added ->
         let geo := get_geolocation (ipinfo w) in
         latitude c = when (checkin_has_latitude (columns w)) (fst geo)
         /\ longitude c = when (checkin_has_longitude (columns w)) (snd geo)
         /\ geo_latitude c = when (checkin_has_geo_latitude (columns w)) (fst geo)
         /\ geo_longitude c = when (checkin_has_geo_longitude (columns w)) (snd geo)
         /\ (ipinfo w = None -> geo = (DEFAULT_LAT, DEFAULT_LON)).
Proof.
  intros H. destruct (run_writes _ _ H) as (c' & a' & W & _).
  destruct (writes_added W) as (added & Hck & _ & Hall).
  exists added. split; [exact Hck|].
  intros c Hc geo. rewrite Forall_forall in Hall.
  destruct (Hall c Hc) as (e & d & p & row & lt & n & _ & _ & _ & ->).
  cbn. repeat split. intros Hnone. unfold geo. now rewrite Hnone.
Qed.

Lemma one_geolocation_per_run_witness :
  exists added,
    checkins (fst (sync_punches_to_employee_checkin Sample.world Sample.four_punches))
    = checkins Sample.four_punches ++ added
    /\ forall c, In c added ->
         let geo := get_geolocation (ipinfo Sample.world) in
         latitude c = when (checkin_has_latitude (columns Sample.world)) (fst geo)
         /\ longitude c = when (checkin_has_longitude (columns Sample.world)) (snd geo)
         /\ geo_latitude c = when (checkin_has_geo_latitude (columns Sample.world)) (fst geo)
         /\ geo_longitude c = when (checkin_has_geo_longitude (columns Sample.world)) (snd geo)
         /\ (ipinfo Sample.world = None -> geo = (DEFAULT_LAT, DEFAULT_LON)).
Proof.
  apply (@one_geolocation_per_run Sample.world Sample.four_punches _
           (snd (sync_punches_to_employee_checkin Sample.world Sample.four_punches))).
  now destruct (sync_punches_to_employee_checkin Sample.world Sample.four_punches).
Defined.

(** X4: a run, whether it returns or raises, leaves the Employees and
    the logs' own fields as they are, keeps every punch (name, time, type
    and device id) and changes nothing of it but the synced flag, which it
    only sets, and the link to a Checkin Event. *)
Theorem reducer_only_flags_punches (w : ReducerWorld) (st st' : Store)
        (o : outcome (nat * nat)) :
  sync_punches_to_employee_checkin w st = (st', o) ->
  employees st' = employees st
  /\ exists g, flags_only g /\ logs st' = map_punches g (logs st).
Proof.
  intros H. destruct (run_writes _ _ H) as (c' & a' & W & _). split.
  - exact (writes_employees W).
  - exact (writes_flags W).
Qed.

Lemma reducer_only_flags_punches_witness :
  let st' := fst (sync_punches_to_employee_checkin Sample.world Sample.four_employees) in
  employees st' = employees Sample.four_employees
  /\ exists g, flags_only g /\ logs st' = map_punches g (logs Sample.four_employees).
Proof.
  apply (@reducer_only_flags_punches Sample.world Sample.four_employees _
           (snd (sync_punches_to_employee_checkin Sample.world Sample.four_employees))).
  now destruct (sync_punches_to_employee_checkin Sample.world Sample.four_employees).
Defined.

(** X5: after a run that returned, every punch of a log whose device
    number resolves to an Active Employee is marked as synced. *)
Theorem returned_run_syncs_resolved (w : ReducerWorld) (st st' : Store) (r : nat * nat)
        (l : AttendanceLog) (p : Punch) :
  sync_punches_to_employee_checkin w st = (st', Return r) ->
  In l (logs st') -> In p (punch_table l) ->
  skipped_group st' (l_employee_no l) = false ->
  coalesce0 (p_synced_to_employee_checkin p) = true.
Proof.
  intros H Hl Hp Hsk.
  destruct (coalesce0 (p_synced_to_employee_checkin p)) eqn:E; [reflexivity|].
  assert (Hrow : In (join_row l p) (unsynced_rows st')).
  { apply unsynced_rows_in. exists l, p. auto. }
  pose proof (@leftovers_skipped w st st' r H _ Hrow) as Hs. cbn in Hs. congruence.
Qed.

Lemma returned_run_syncs_resolved_witness :
  coalesce0 (p_synced_to_employee_checkin
               (mark_synced_linked (Some 13) (Sample.punch_at 10 (hms 8 20 0)))) = true.
Proof.
  apply (@returned_run_syncs_resolved Sample.world Sample.four_employees
           (fst (sync_punches_to_employee_checkin Sample.world Sample.four_employees))
           (3, 0)
           (mkLog 9 (Some "85"%string) Sample.jan15 None
                  [mark_synced_linked (Some 13) (Sample.punch_at 10 (hms 8 20 0))])).
  - vm_compute. reflexivity.
  - vm_compute. auto 10.
  - now left.
  - vm_compute. reflexivity.
Defined.

End ReducerFacts.

Module IngestFacts.
Import Ingest StoreFacts.

(* The lemmas of this module take all their arguments explicitly. *)
Unset Implicit Arguments.

Section DeviceFacts.

Variable w : IngestWorld.
Variables label ip : string.

(** ** The volume ceiling *)

(** C3: when the first answer reports more than 1500 matches, the sync
    of the device raises "Too many records"; the store is as it was and
    the only request posted is the first one (no page was fetched, no
    event processed). *)
Theorem volume_ceiling (fuel : nat) (start_time end_time : string) (st : Store)
        (data : AcsEvent) :
  status_code (post w [] (initial_payload start_time end_time)) = 200%Z ->
  json (post w [] (initial_payload start_time end_time)) = Some data ->
  (1500 < total_of data)%Z ->
  _sync_for_single_device w label ip fuel start_time end_time st
  = Some (mkIState st [initial_payload start_time end_time] 0 0,
          Raise (Thrown (TooManyRecords label (total_of data)))).
Proof.
  intros Hstatus Hjson Htotal. unfold _sync_for_single_device.
  rewrite Hstatus, Hjson. cbn.
  destruct (Z.eqb_spec (total_of data) 0); [lia|].
  destruct (Z.ltb_spec 1500 (total_of data)); [reflexivity|lia].
Qed.

(** ** The page requests *)

Lemma page_request_again (payload : AcsEventCond) (p q : nat) :
  page_request (page_request payload p) q = page_request payload q.
Proof. reflexivity. Qed.

Lemma for_each_sent (events : list Event) : forall (s s' : IState) (o : outcome unit),
  for_each (process_event w ip) events s = (s', o) -> sent s' = sent s.
Proof.
  assert (Hone : forall ev (s s' : IState) o,
            process_event w ip ev s = (s', o) -> sent s' = sent s).
  { intros ev s s' o. unfold process_event.
    destruct (negb (str_truthy (employeeNoString ev))
              || negb (str_truthy (Some match ev_time ev with
                                         | Some t => t | None => ""%string end))).
    { unfold ret. intros H. now injection H as <- _. }
    destruct (strptime w _) as [dt|]; [|unfold raise; intros H; now injection H as <- _].
    unfold bind, gets, modify, ret, raise.
    destruct (get_all (store s) (employeeNoString ev) (fst dt)) as [found|].
    - destruct (get_doc (store s) (l_name found)) as [loaded|];
        [|intros H; now injection H as <- _].
      destruct (negb _); [destruct (save_ok w _ _)|];
        intros H; now injection H as <- _.
    - destruct (save_ok w _ _); intros H; now injection H as <- _. }
  induction events as [|ev events IH]; intros s s' o H; cbn in H.
  - unfold ret in H. now injection H as <- _.
  - unfold bind in H. destruct (process_event w ip ev s) as [s1 [[]|e]] eqn:E.
    + rewrite (IH _ _ _ H). eapply Hone; eauto.
    + injection H as <- _. eapply Hone; eauto.
Qed.

Lemma page_loop_paging (fuel : nat) : forall (payload : AcsEventCond) (position : nat)
      (s s' : IState) (o : outcome unit),
  page_loop w label ip fuel payload position s = Some (s', o) ->
  exists requests,
    sent s' = sent s ++ requests
    /\ paging w payload (sent s) position requests (returned o).
Proof.
  induction fuel as [|fuel IH]; intros payload position s s' o H; [discriminate|].
  cbn [page_loop] in H.
  pose (req := page_request payload position). fold req in H.
  destruct (Z.eqb_spec (status_code (post w (sent s) req)) 200) as [Hst|Hst]; cbn [negb] in H.
  2:{ injection H as <- <-. exists [req]. split; [reflexivity|apply paging_raised]. }
  destruct (json (post w (sent s) req)) as [data|] eqn:Hjson.
  2:{ injection H as <- <-. exists [req]. split; [reflexivity|apply paging_raised]. }
  assert (Hpage : page_of w (sent s) req = Some (events_of data)).
  { unfold page_of. rewrite Hst, Hjson. reflexivity. }
  destruct (events_of data) as [|ev events] eqn:Hev.
  { injection H as <- <-. exists [req]. split; [reflexivity|].
    eapply paging_last; [exact Hpage|]. cbn. unfold batch_size. lia. }
  destruct (for_each (process_event w ip) (ev :: events) _) as [s2 o2] eqn:Hrun.
  pose proof (for_each_sent _ _ _ _ Hrun) as Hsent. cbn [sent] in Hsent.
  destruct o2 as [[]|e].
  2:{ injection H as <- <-. exists [req]. split; [exact Hsent|apply paging_raised]. }
  destruct (Nat.ltb_spec (List.length (ev :: events)) batch_size) as [Hshort|Hfull].
  { injection H as <- <-. exists [req]. split; [exact Hsent|].
    eapply paging_last; [exact Hpage|exact Hshort]. }
  destruct (IH _ _ _ _ _ H) as (requests & Hs' & Hp).
  exists (req :: requests). split.
  - rewrite Hs', Hsent, <- app_assoc. reflexivity.
  - eapply paging_more; [exact Hpage|exact Hfull|].
    rewrite Hsent in Hp. fold req.
    clear - Hp. unfold req in *.
    remember (page_request payload position) as r eqn:Er.
    assert (Heq : forall q, page_request r q = page_request payload q)
      by (intros q; subst r; reflexivity).
    clear Er.
    remember (sent s ++ [r]) as sent0. remember (position + List.length (ev :: events)) as pos0.
    clear Heqsent0 Heqpos0.
    induction Hp as [sn p evs Hpg Hl|sn p evs reqs ret Hpg Hl Hp IHp|sn p];
      rewrite ?Heq in *.
    + eapply paging_last; eauto.
    + eapply paging_more; eauto.
    + apply paging_raised.
Qed.

(** ** Lookups on a store with unique log names *)

Lemma find_split {A} (f : A -> bool) (l : list A) (x : A) :
  find f l = Some x ->
  exists l1 l2, l = l1 ++ x :: l2 /\ f x = true /\ forall y, In y l1 -> f y = false.
Proof.
  induction l as [|a l IH]; cbn; [discriminate|].
  destruct (f a) eqn:E.
  - intros H. injection H as <-. exists [], l. repeat split; auto. intros y [].
  - intros H. destruct (IH H) as (l1 & l2 & -> & Hx & Hl1).
    exists (a :: l1), l2. repeat split; auto. intros y [<-|Hy]; auto.
Qed.

Lemma find_none_all {A} (f : A -> bool) (l : list A) :
  find f l = None -> forall y, In y l -> f y = false.
Proof. intros H y Hy. eapply find_none; eauto. Qed.

Lemma find_app_first {A} (f : A -> bool) (l1 l2 : list A) (x : A) :
  (forall y, In y l1 -> f y = false) -> f x = true ->
  find f (l1 ++ x :: l2) = Some x.
Proof.
  induction l1 as [|a l1 IH]; cbn; intros H Hx.
  - now rewrite Hx.
  - rewrite (H a (or_introl eq_refl)). apply IH; auto.
Qed.

Lemma find_map_same {A} (f : A -> bool) (h : A -> A) (l : list A) :
  (forall x, In x l -> f (h x) = f x) ->
  find f (map h l) = option_map h (find f l).
Proof.
  induction l as [|a l IH]; cbn; intros H; [reflexivity|].
  rewrite (H a (or_introl eq_refl)). destruct (f a); [reflexivity|].
  apply IH. intros x Hx. apply H. now right.
Qed.

Lemma get_all_spec (st : Store) (emp_no : option string) (d : Date) (found : AttendanceLog) :
  get_all st emp_no d = Some found ->
  In found (logs st) /\ l_employee_no found = emp_no /\ l_event_date found = d.
Proof.
  unfold get_all. intros H. apply find_some in H. destruct H as [Hin H].
  apply andb_true_iff in H. destruct H as [H1 H2].
  apply ostr_eqb_eq in H1. apply date_eqb_eq in H2. auto.
Qed.

Lemma names_unique (ls : list AttendanceLog) (a b : AttendanceLog) :
  NoDup (map l_name ls) -> In a ls -> In b ls -> l_name a = l_name b -> a = b.
Proof.
  induction ls as [|x ls IH]; cbn; intros Hnd Ha Hb E; [contradiction|].
  inversion Hnd as [|? ? Hx Hnd']; subst.
  destruct Ha as [<-|Ha], Hb as [<-|Hb]; auto.
  - exfalso. apply Hx. rewrite E. now apply in_map.
  - exfalso. apply Hx. rewrite <- E. now apply in_map.
Qed.

Lemma get_doc_unique (st : Store) (l : AttendanceLog) :
  ingest_wf st -> In l (logs st) -> get_doc st (l_name l) = Some l.
Proof.
  intros [Hnd _] Hl. unfold get_doc.
  destruct (find (fun l0 => Nat.eqb (l_name l0) (l_name l)) (logs st)) as [x|] eqn:E.
  - apply find_some in E. destruct E as [Hx E]. apply Nat.eqb_eq in E.
    f_equal. eapply names_unique; eauto.
  - apply (find_none_all _ _ E _) in Hl. rewrite Nat.eqb_refl in Hl. discriminate.
Qed.

Lemma count_punches_unique (st : Store) (l : AttendanceLog) (t : timedelta) :
  ingest_wf st -> In l (logs st) ->
  count_punches st (l_name l) t = List.length (punches_at t l).
Proof.
  intros [Hnd _] Hl. unfold count_punches.
  destruct (in_split _ _ Hl) as (l1 & l2 & E). rewrite E in *.
  assert (Hother : forall ls, (forall x, In x ls -> l_name x <> l_name l) ->
            flat_map (fun l0 => if Nat.eqb (l_name l0) (l_name l)
                                then filter (fun p => opt_eqb Z.eqb (p_punch_time p) (Some t))
                                            (punch_table l0)
                                else []) ls = []).
  { induction ls as [|x ls IH]; cbn; intros H; [reflexivity|].
    destruct (Nat.eqb_spec (l_name x) (l_name l)) as [Ex|_].
    - exfalso. apply (H x); auto.
    - apply IH. intros y Hy. apply H. now right. }
  rewrite flat_map_app. cbn [flat_map]. rewrite Nat.eqb_refl.
  rewrite map_app in Hnd. cbn [map] in Hnd.
  rewrite !Hother.
  - cbn. now rewrite app_nil_r.
  - intros x Hx Ex. apply NoDup_remove_2 in Hnd. apply Hnd.
    apply in_or_app. right. rewrite <- Ex. now apply in_map.
  - intros x Hx Ex. apply NoDup_remove_2 in Hnd. apply Hnd.
    apply in_or_app. left. rewrite <- Ex. now apply in_map.
Qed.

Lemma existing_punch_found (st : Store) (emp_no : option string) (d : Date)
      (t : timedelta) (found : AttendanceLog) :
  ingest_wf st -> get_all st emp_no d = Some found ->
  existing_punch st emp_no d t = (0 <? List.length (punches_at t found))%nat.
Proof.
  intros Hwf Hget. unfold existing_punch. rewrite Hget.
  destruct (get_all_spec _ _ _ _ Hget) as (Hin & _).
  rewrite (get_doc_unique _ _ Hwf Hin). now rewrite (count_punches_unique _ _ _ Hwf Hin).
Qed.

Lemma at_time_keys (t : timedelta) (l : AttendanceLog) (st : Store) :
  In l (logs st) -> (0 < List.length (punches_at t l))%nat ->
  In (l_employee_no l, l_event_date l, t) (store_keys st).
Proof.
  intros Hl Hpos. unfold store_keys. apply in_flat_map. exists l. split; auto.
  unfold punches_at in Hpos.
  destruct (filter _ (punch_table l)) as [|p ps] eqn:E; [cbn in Hpos; lia|].
  assert (Hp : In p (filter (fun p => opt_eqb Z.eqb (p_punch_time p) (Some t))
                            (punch_table l))) by (rewrite E; now left).
  apply filter_In in Hp. destruct Hp as [Hp Ht].
  apply in_flat_map. exists p. split; auto.
  destruct (p_punch_time p) as [t'|]; cbn in Ht; [|discriminate].
  apply Z.eqb_eq in Ht. subst. now left.
Qed.

Lemma existing_punch_key (st : Store) (emp_no : option string) (d : Date) (t : timedelta) :
  ingest_wf st -> existing_punch st emp_no d t = true ->
  In (emp_no, d, t) (store_keys st).
Proof.
  intros Hwf H.
  destruct (get_all st emp_no d) as [found|] eqn:Hget.
  - rewrite (existing_punch_found _ _ _ _ _ Hwf Hget) in H. apply Nat.ltb_lt in H.
    destruct (get_all_spec _ _ _ _ Hget) as (Hin & <- & <-).
    now apply at_time_keys.
  - unfold existing_punch in H. rewrite Hget in H. discriminate.
Qed.

(** ** One event *)

Lemma event_key_fields (log : Event) (emp_no : option string) (d : Date) (t : timedelta) :
  event_key w log = Some (emp_no, d, t) ->
  employeeNoString log = emp_no
  /\ str_truthy emp_no = true
  /\ exists ts, ev_time log = Some ts /\ str_truthy (Some ts) = true
                /\ strptime w (substring 0 19 ts) = Some (d, t).
Proof.
  unfold event_key. destruct (ev_time log) as [ts|]; [|discriminate].
  destruct (str_truthy (employeeNoString log)) eqn:He; [|discriminate].
  destruct (str_truthy (Some ts)) eqn:Hts; [|discriminate]. cbn [andb].
  destruct (strptime w (substring 0 19 ts)) as [[d' t']|] eqn:Hp; [|discriminate].
  cbn. intros H. injection H as <- <- <-. repeat split; auto.
  exists ts. auto.
Qed.

(** What the loop body does with an event that has a key. *)
Lemma process_event_keyed (log : Event) (s : IState) (emp_no : option string)
      (d : Date) (t : timedelta) :
  ingest_wf (store s) ->
  event_key w log = Some (emp_no, d, t) ->
  process_event w ip log s
  = if existing_punch (store s) emp_no d t
    then (mkIState (store s) (sent s) (count s) (S (skipped s)), Return tt)
    else if save_ok w (store s) (built_doc w ip (store s) emp_no d t)
         then (bump_count s (saved w ip (store s) emp_no d t), Return tt)
         else (s, Return tt).
Proof.
  intros Hwf Hkey.
  destruct (event_key_fields _ _ _ _ Hkey) as (He & Ht & ts & Hts & Htt & Hp).
  unfold process_event. rewrite He, Hts, Ht, Htt, Hp. cbn [negb orb fst snd].
  unfold bind, gets. unfold existing_punch, saved, built_doc.
  destruct (get_all (store s) emp_no d) as [found|] eqn:Hget.
  - destruct (get_all_spec _ _ _ _ Hget) as (Hin & _).
    rewrite (get_doc_unique _ _ Hwf Hin).
    assert (Hname : l_name (if log_has_device_id w then set_device_id found ip else found)
                    = l_name found) by (destruct (log_has_device_id w); reflexivity).
    rewrite Hname.
    destruct (0 <? count_punches (store s) (l_name found) t)%nat; cbn [negb].
    + reflexivity.
    + unfold modify, ret. destruct (save_ok w (store s) _); reflexivity.
  - unfold modify, ret. destruct (save_ok w (store s) _); reflexivity.
Qed.

(** An event without employee number or timestamp is passed over; a
    timestamp that does not parse raises. *)
Lemma process_event_unkeyed (log : Event) (s : IState) :
  event_key w log = None ->
  process_event w ip log s = (s, Return tt)
  \/ process_event w ip log s = (s, Raise ValueError).
Proof.
  unfold event_key, process_event.
  destruct (ev_time log) as [ts|].
  - destruct (str_truthy (employeeNoString log)); cbn; [|now left].
    destruct (negb (String.eqb ts "")); cbn; [|now left].
    destruct (strptime w (substring 0 19 ts)); [discriminate|now right].
  - intros _. left. cbn. now rewrite orb_true_r.
Qed.

(** ** The store after a save *)

Lemma saved_punches (st : Store) (emp_no : option string) (d : Date) (t : timedelta) :
  ingest_wf st ->
  List.length (all_punches (saved w ip st emp_no d t)) = S (List.length (all_punches st)).
Proof.
  intros Hwf. unfold saved, built_doc, all_punches.
  destruct (get_all st emp_no d) as [found|] eqn:Hget.
  - destruct (get_all_spec _ _ _ _ Hget) as (Hin & _).
    destruct Hwf as [Hnd _].
    set (doc := if log_has_device_id w then set_device_id found ip else found).
    assert (Hname : l_name doc = l_name found)
      by (unfold doc; destruct (log_has_device_id w); reflexivity).
    assert (Htable : punch_table doc = punch_table found)
      by (unfold doc; destruct (log_has_device_id w); reflexivity).
    cbn [save_existing logs append_punch l_name]. rewrite Hname.
    destruct (in_split _ _ Hin) as (l1 & l2 & E). rewrite E in *.
    rewrite map_app in Hnd. cbn [map] in Hnd.
    assert (Hkeep : forall ls, (forall x, In x ls -> l_name x <> l_name found) ->
              map (fun l => if Nat.eqb (l_name l) (l_name found)
                            then append_punch doc (new_punch w ip (next_name st) t)
                            else l) ls = ls).
    { induction ls as [|x ls IH]; cbn; intros H; [reflexivity|].
      destruct (Nat.eqb_spec (l_name x) (l_name found)) as [Ex|_].
      - exfalso. apply (H x); auto.
      - f_equal. apply IH. intros y Hy. apply H. now right. }
    rewrite map_app. cbn [map]. rewrite Nat.eqb_refl. rewrite !Hkeep.
    + rewrite !flat_map_app. cbn [flat_map punch_table append_punch].
      rewrite Htable. rewrite !length_app. cbn [List.length]. rewrite ?length_app. cbn [List.length]. lia.
    + intros x Hx Ex. apply NoDup_remove_2 in Hnd. apply Hnd.
      apply in_or_app. right. rewrite <- Ex. now apply in_map.
    + intros x Hx Ex. apply NoDup_remove_2 in Hnd. apply Hnd.
      apply in_or_app. left. rewrite <- Ex. now apply in_map.
  - cbn [save_new logs]. rewrite flat_map_app. cbn. rewrite length_app. cbn. lia.
Qed.

Lemma saved_wf (st : Store) (emp_no : option string) (d : Date) (t : timedelta) :
  ingest_wf st -> ingest_wf (saved w ip st emp_no d t).
Proof.
  intros [Hnd Hlt]. unfold saved, built_doc.
  destruct (get_all st emp_no d) as [found|] eqn:Hget.
  - set (doc := append_punch _ _).
    assert (Hname : l_name doc = l_name found)
      by (unfold doc; destruct (log_has_device_id w); reflexivity).
    assert (Hmap : map l_name (logs (save_existing doc st)) = map l_name (logs st)).
    { unfold save_existing. cbn [logs]. rewrite map_map. apply map_ext_in.
      intros x Hx. destruct (Nat.eqb_spec (l_name x) (l_name doc)) as [E|E]; auto. }
    split.
    + now rewrite Hmap.
    + apply Forall_forall. intros x Hx.
      assert (Hn : In (l_name x) (map l_name (logs st)))
        by (rewrite <- Hmap; now apply in_map).
      apply in_map_iff in Hn. destruct Hn as (y & Ey & Hy).
      rewrite Forall_forall in Hlt. specialize (Hlt y Hy). cbn. lia.
  - unfold ingest_wf, save_new. cbn [logs next_name]. split.
    + rewrite map_app. cbn [map append_punch l_name].
      apply NoDup_snoc; auto.
      intros H. apply in_map_iff in H. destruct H as (y & Ey & Hy).
      rewrite Forall_forall in Hlt. specialize (Hlt y Hy). lia.
    + apply Forall_forall. intros x Hx. apply in_app_or in Hx.
      destruct Hx as [Hx|[<-|[]]]; cbn [append_punch l_name]; [|lia].
      rewrite Forall_forall in Hlt. specialize (Hlt x Hx). lia.
Qed.

(** ** Counting what was persisted *)

Lemma accounted_refl (s : IState) : ingest_wf (store s) -> accounted s s.
Proof. intros H. split; auto. Qed.

Lemma accounted_trans (s1 s2 s3 : IState) :
  accounted s1 s2 -> accounted s2 s3 -> accounted s1 s3.
Proof. intros [W1 E1] [W2 E2]. split; auto. lia. Qed.

Lemma process_event_accounted (log : Event) (s s' : IState) (o : outcome unit) :
  ingest_wf (store s) ->
  process_event w ip log s = (s', o) -> accounted s s'.
Proof.
  intros Hwf H.
  destruct (event_key w log) as [[[emp_no d] t]|] eqn:Hkey.
  - rewrite (process_event_keyed _ _ _ _ _ Hwf Hkey) in H.
    destruct (existing_punch (store s) emp_no d t).
    + injection H as <- _. split; cbn; auto.
    + destruct (save_ok w (store s) _).
      * injection H as <- _. split; cbn.
        -- now apply saved_wf.
        -- rewrite saved_punches by auto. lia.
      * injection H as <- _. now apply accounted_refl.
  - destruct (process_event_unkeyed log s Hkey) as [E|E]; rewrite E in H;
      injection H as <- _; now apply accounted_refl.
Qed.

Lemma for_each_accounted (events : list Event) : forall (s s' : IState) (o : outcome unit),
  ingest_wf (store s) ->
  for_each (process_event w ip) events s = (s', o) -> accounted s s'.
Proof.
  induction events as [|log events IH]; intros s s' o Hwf H; cbn in H.
  - unfold ret in H. injection H as <- _. now apply accounted_refl.
  - unfold bind in H. destruct (process_event w ip log s) as [s1 o1] eqn:E.
    pose proof (process_event_accounted _ _ _ _ Hwf E) as A1.
    destruct o1 as [[]|e].
    + eapply accounted_trans; [exact A1|]. eapply IH; [apply A1|exact H].
    + now injection H as <- _.
Qed.

Lemma page_loop_accounted (fuel : nat) : forall (payload : AcsEventCond) (position : nat)
      (s s' : IState) (o : outcome unit),
  ingest_wf (store s) ->
  page_loop w label ip fuel payload position s = Some (s', o) -> accounted s s'.
Proof.
  induction fuel as [|fuel IH]; intros payload position s s' o Hwf H; [discriminate|].
  cbn [page_loop] in H.
  set (s1 := mkIState (store s) (sent s ++ [page_request payload position])
                      (count s) (skipped s)) in H.
  assert (A1 : accounted s s1) by (split; auto).
  destruct (negb _).
  { injection H as <- _. exact A1. }
  destruct (json _) as [data|].
  2:{ injection H as <- _. exact A1. }
  destruct (events_of data) as [|ev events].
  { injection H as <- _. exact A1. }
  destruct (for_each (process_event w ip) (ev :: events) s1) as [s2 o2] eqn:Hrun.
  pose proof (for_each_accounted _ s1 _ _ Hwf Hrun) as A2.
  destruct o2 as [[]|e].
  2:{ injection H as <- _. exact (accounted_trans _ _ _ A1 A2). }
  destruct (_ <? batch_size)%nat.
  { injection H as <- _. exact (accounted_trans _ _ _ A1 A2). }
  eapply accounted_trans; [exact A1|]. eapply accounted_trans; [exact A2|].
  eapply IH; [apply A2|exact H].
Qed.

(** C9: a device run that returns [(inserted, skipped)] has stored
    exactly [inserted] new punches (log names being unique); an event
    whose save raises leaves the store and both counters as they were, and
    the loop goes on. *)
Theorem inserted_counts_persisted :
  (forall (fuel : nat) (start_time end_time : string) (st : Store) (s : IState)
          (inserted skipped_duplicates : nat),
      ingest_wf st ->
      _sync_for_single_device w label ip fuel start_time end_time st
        = Some (s, Return (inserted, skipped_duplicates)) ->
      List.length (all_punches (store s)) = List.length (all_punches st) + inserted)
  /\ (forall (log : Event) (s : IState) (emp_no : option string) (d : Date) (t : timedelta),
      ingest_wf (store s) ->
      event_key w log = Some (emp_no, d, t) ->
      existing_punch (store s) emp_no d t = false ->
      save_ok w (store s) (built_doc w ip (store s) emp_no d t) = false ->
      process_event w ip log s = (s, Return tt))
  /\ (forall (log : Event) (s : IState) (emp_no : option string) (d : Date) (t : timedelta),
      ingest_wf (store s) ->
      event_key w log = Some (emp_no, d, t) ->
      existing_punch (store s) emp_no d t = false ->
      save_ok w (store s) (built_doc w ip (store s) emp_no d t) = true ->
      exists s',
        process_event w ip log s = (s', Return tt)
        /\ count s' = S (count s) /\ skipped s' = skipped s
        /\ List.length (all_punches (store s')) = S (List.length (all_punches (store s)))).
Proof.
  split; [|split].
  - intros fuel start_time end_time st s inserted skipped_duplicates Hwf H.
    unfold _sync_for_single_device in H.
    destruct (negb _); [discriminate|].
    destruct (json _) as [data|]; [|discriminate].
    destruct (total_of data =? 0)%Z.
    { injection H as <- <- <-. cbn. lia. }
    destruct (1500 <? total_of data)%Z; [discriminate|].
    destruct (page_loop w label ip fuel _ 0 _) as [[s' [[]|e]]|] eqn:Hloop;
      try discriminate.
    injection H as <- <- <-.
    destruct (page_loop_accounted _ _ _ (mkIState st [initial_payload start_time end_time] 0 0)
                _ _ Hwf Hloop) as [_ E].
    cbn in E. lia.
  - intros log s emp_no d t Hwf Hkey Hex Hsave.
    rewrite (process_event_keyed _ _ _ _ _ Hwf Hkey), Hex, Hsave. reflexivity.
  - intros log s emp_no d t Hwf Hkey Hex Hsave.
    rewrite (process_event_keyed _ _ _ _ _ Hwf Hkey), Hex, Hsave.
    eexists. split; [reflexivity|]. cbn. repeat split. now apply saved_punches.
Qed.

(** ** The dedup key *)

Lemma find_app {A} (f : A -> bool) (l1 l2 : list A) :
  find f (l1 ++ l2) = match find f l1 with Some x => Some x | None => find f l2 end.
Proof.
  induction l1 as [|a l1 IH]; cbn; [reflexivity|]. destruct (f a); auto.
Qed.

Lemma same_key_eq emp_no' d' t' emp_no d t :
  same_key emp_no' d' t' emp_no d t = true <-> (emp_no', d', t') = (emp_no, d, t).
Proof.
  unfold same_key. rewrite !andb_true_iff, ostr_eqb_eq,
    date_eqb_eq, Z.eqb_eq.
  split; [intros [[-> ->] ->]; reflexivity|intros H; injection H as -> -> ->; auto].
Qed.

Lemma matches_refl (emp_no : option string) (d : Date) :
  ostr_eqb emp_no emp_no && date_eqb d d = true.
Proof.
  apply andb_true_iff. split; [now apply ostr_eqb_eq|
                               now apply date_eqb_eq].
Qed.

Lemma at_time_append (t' : timedelta) (doc : AttendanceLog) (p : Punch) (t : timedelta) :
  p_punch_time p = Some t ->
  (0 <? List.length (punches_at t' (append_punch doc p)))%nat
  = (0 <? List.length (punches_at t' doc))%nat || (t' =? t)%Z.
Proof.
  intros Hp. unfold punches_at, append_punch. cbn [punch_table].
  rewrite filter_app, length_app. cbn [filter]. rewrite Hp. cbn [opt_eqb].
  rewrite (Z.eqb_sym t t').
  destruct (t' =? t)%Z; cbn [List.length].
  - rewrite orb_true_r. apply Nat.ltb_lt. lia.
  - rewrite orb_false_r. now rewrite Nat.add_0_r.
Qed.

(** After a save for the key [(emp_no, d, t)] the loop finds a punch for
    that key, and for the keys it found one for before, and for no other. *)
Lemma saved_existing (st : Store) (emp_no : option string) (d : Date) (t : timedelta)
      (emp_no' : option string) (d' : Date) (t' : timedelta) :
  ingest_wf st ->
  existing_punch (saved w ip st emp_no d t) emp_no' d' t'
  = existing_punch st emp_no' d' t' || same_key emp_no' d' t' emp_no d t.
Proof.
  intros Hwf. pose proof (saved_wf st emp_no d t Hwf) as Hwf'.
  assert (Hsame : forall b, same_key emp_no' d' t' emp_no d t = true ->
                    (emp_no' = emp_no -> d' = d -> t' = t -> b = true) ->
                    b = b || same_key emp_no' d' t' emp_no d t).
  { intros b Hk Hb. apply same_key_eq in Hk. injection Hk as -> -> ->.
    rewrite Hb by reflexivity. reflexivity. }
  unfold saved in *. unfold built_doc in *.
  destruct (get_all st emp_no d) as [found|] eqn:Hget.
  - destruct (get_all_spec _ _ _ _ Hget) as (Hin & Hemp & Hdate).
    set (doc := if log_has_device_id w then set_device_id found ip else found) in *.
    set (newp := new_punch w ip (next_name st) t) in *.
    assert (Hdoc : l_name doc = l_name found /\ l_employee_no doc = l_employee_no found
                   /\ l_event_date doc = l_event_date found
                   /\ punch_table doc = punch_table found)
      by (unfold doc; destruct (log_has_device_id w); cbn; auto).
    destruct Hdoc as (Dn & De & Dd & Dt).
    set (h := fun l => if Nat.eqb (l_name l) (l_name (append_punch doc newp))
                       then append_punch doc newp else l).
    assert (Hget' : get_all (save_existing (append_punch doc newp) st) emp_no' d'
                    = option_map h (get_all st emp_no' d')).
    { unfold get_all, save_existing. cbn [logs]. apply find_map_same.
      intros x Hx. unfold h. cbv beta. cbn [append_punch l_name].
      destruct (Nat.eqb_spec (l_name x) (l_name doc)) as [E|E]; [|reflexivity].
      assert (x = found) as -> by (destruct Hwf as [Hnd _]; eapply names_unique; eauto;
                                   congruence).
      unfold append_punch. cbn [l_employee_no l_event_date]. now rewrite De, Dd. }
    destruct (get_all st emp_no' d') as [f'|] eqn:Hget0.
    + cbn [option_map] in Hget'.
      rewrite (existing_punch_found _ _ _ t' _ Hwf' Hget').
      rewrite (existing_punch_found _ _ _ t' _ Hwf Hget0).
      destruct (get_all_spec _ _ _ _ Hget0) as (Hin0 & Hemp0 & Hdate0).
      unfold h. cbn [append_punch l_name].
      destruct (Nat.eqb_spec (l_name f') (l_name doc)) as [E|E].
      * assert (f' = found) as -> by (destruct Hwf as [Hnd _]; eapply names_unique; eauto;
                                      congruence).
        change (mkLog (l_name doc) (l_employee_no doc) (l_event_date doc) (l_device_id doc)
                      (punch_table doc ++ [newp])) with (append_punch doc newp).
        rewrite (at_time_append t' doc newp t eq_refl).
        unfold punches_at. rewrite Dt.
        assert (Hk : ostr_eqb emp_no' emp_no && date_eqb d' d = true)
          by (rewrite <- Hemp0, <- Hdate0, Hemp, Hdate; apply matches_refl).
        unfold same_key. now rewrite Hk.
      * destruct (same_key emp_no' d' t' emp_no d t) eqn:Hk; [|now rewrite orb_false_r].
        exfalso. apply same_key_eq in Hk. injection Hk as -> -> ->.
        rewrite Hget in Hget0. injection Hget0 as ->. congruence.
    + cbn [option_map] in Hget'. unfold existing_punch at 1 2. rewrite Hget', Hget0.
      destruct (same_key emp_no' d' t' emp_no d t) eqn:Hk; [|reflexivity].
      exfalso. apply same_key_eq in Hk. injection Hk as -> -> ->. congruence.
  - set (doc := mkLog (next_name st) emp_no d _ []) in *.
    set (newp := new_punch w ip (S (next_name st)) t) in *.
    assert (Hget' : get_all (save_new (append_punch doc newp) st) emp_no' d'
                    = match get_all st emp_no' d' with
                      | Some x => Some x
                      | None => if ostr_eqb emp_no emp_no' && date_eqb d d'
                                then Some (append_punch doc newp) else None
                      end).
    { unfold get_all, save_new. cbn [logs]. rewrite find_app. cbn [find].
      reflexivity. }
    destruct (get_all st emp_no' d') as [f'|] eqn:Hget0.
    + rewrite (existing_punch_found _ _ _ t' _ Hwf' Hget').
      rewrite (existing_punch_found _ _ _ t' _ Hwf Hget0).
      destruct (same_key emp_no' d' t' emp_no d t) eqn:Hk; [|now rewrite orb_false_r].
      exfalso. apply same_key_eq in Hk. injection Hk as -> -> ->. congruence.
    + destruct (ostr_eqb emp_no emp_no' && date_eqb d d') eqn:Hm.
      * rewrite (existing_punch_found _ _ _ t' _ Hwf' Hget').
        rewrite (at_time_append t' doc newp t eq_refl).
        unfold existing_punch. rewrite Hget0. cbn.
        apply andb_true_iff in Hm. destruct Hm as [H1 H2].
        apply ostr_eqb_eq in H1. apply date_eqb_eq in H2.
        subst. unfold same_key. now rewrite matches_refl.
      * unfold existing_punch at 1 2. rewrite Hget', Hget0. cbn.
        destruct (same_key emp_no' d' t' emp_no d t) eqn:Hk; [|reflexivity].
        exfalso. apply same_key_eq in Hk. injection Hk as -> -> ->.
        rewrite matches_refl in Hm. discriminate.
Qed.

Lemma same_key_refl (emp_no : option string) (d : Date) (t : timedelta) :
  same_key emp_no d t emp_no d t = true.
Proof. now apply same_key_eq. Qed.

(** C2 (as amended): the time of day of an event is read from the first
    19 characters of its timestamp, that is to the second.  Of two events
    of one employee and date that are processed one after the other (the
    saves going through), both end up stored; when their times of day are
    equal (as for timestamps that differ in fractions of a second only)
    the second event stores nothing and is counted in [skipped]; when they
    differ, and the second time was not stored before, the second event is
    inserted as a punch of its own. *)
Theorem dedup_by_time_of_day (log1 log2 : Event) (s : IState)
        (emp_no : option string) (d : Date) (t1 t2 : timedelta) :
  ingest_wf (store s) ->
  event_key w log1 = Some (emp_no, d, t1) ->
  event_key w log2 = Some (emp_no, d, t2) ->
  (forall st doc, save_ok w st doc = true) ->
  (forall e ts ts', ts <> ""%string -> ts' <> ""%string ->
     substring 0 19 ts = substring 0 19 ts' ->
     event_key w (mkEvent e (Some ts)) = event_key w (mkEvent e (Some ts')))
  /\ exists s1 s2,
       process_event w ip log1 s = (s1, Return tt)
       /\ process_event w ip log2 s1 = (s2, Return tt)
       /\ existing_punch (store s2) emp_no d t1 = true
       /\ existing_punch (store s2) emp_no d t2 = true
       /\ (t1 = t2 ->
           store s2 = store s1 /\ count s2 = count s1 /\ skipped s2 = S (skipped s1))
       /\ (t1 <> t2 -> existing_punch (store s) emp_no d t2 = false ->
           count s2 = S (count s1) /\ skipped s2 = skipped s1
           /\ List.length (all_punches (store s2))
              = S (List.length (all_punches (store s1)))).
Proof.
  intros Hwf Hk1 Hk2 Hok. split.
  { intros e ts ts' Hts Hts' Hsub. unfold event_key. cbn [ev_time employeeNoString].
    assert (Ht : forall x, x <> ""%string -> str_truthy (Some x) = true).
    { intros x Hx. cbn. apply negb_true_iff. now apply String.eqb_neq. }
    now rewrite (Ht _ Hts), (Ht _ Hts'), Hsub. }
  rewrite (process_event_keyed log1 s _ _ _ Hwf Hk1). rewrite Hok.
  set (st1 := saved w ip (store s) emp_no d t1).
  assert (Hst1 : ingest_wf st1) by now apply saved_wf.
  assert (Hfirst : exists s1,
    (if existing_punch (store s) emp_no d t1
     then (mkIState (store s) (sent s) (count s) (S (skipped s)), Return tt)
     else (bump_count s st1, Return tt)) = (s1, Return tt)
    /\ ingest_wf (store s1)
    /\ existing_punch (store s1) emp_no d t1 = true
    /\ (t1 <> t2 -> existing_punch (store s) emp_no d t2 = false ->
        existing_punch (store s1) emp_no d t2 = false)).
  { destruct (existing_punch (store s) emp_no d t1) eqn:E1.
    - eexists. split; [reflexivity|]. cbn. auto.
    - eexists. split; [reflexivity|]. cbn [store bump_count]. split; [exact Hst1|].
      unfold st1. split.
      + rewrite saved_existing by exact Hwf. rewrite same_key_refl. apply orb_true_r.
      + intros Hne E2. rewrite saved_existing by exact Hwf. rewrite E2. cbn.
        destruct (same_key emp_no d t2 emp_no d t1) eqn:Hk; [|reflexivity].
        apply same_key_eq in Hk. congruence. }
  destruct Hfirst as (s1 & -> & Hwf1 & Hex1 & Hother).
  exists s1. rewrite (process_event_keyed log2 s1 _ _ _ Hwf1 Hk2). rewrite Hok.
  destruct (existing_punch (store s1) emp_no d t2) eqn:E2.
  - eexists. split; [reflexivity|]. split; [reflexivity|]. cbn.
    split; [exact Hex1|]. split; [exact E2|]. split; [auto|].
    intros Hne Hfresh. specialize (Hother Hne Hfresh). congruence.
  - eexists. split; [reflexivity|]. split; [reflexivity|]. cbn [store bump_count count skipped].
    split; [|split; [|split]].
    + rewrite saved_existing by exact Hwf1. now rewrite Hex1.
    + rewrite saved_existing by exact Hwf1. rewrite same_key_refl. apply orb_true_r.
    + intros ->. congruence.
    + intros _ _. repeat split. now apply saved_punches.
Qed.

(** ** Pages of fresh events *)

Lemma saved_keys (st : Store) (emp_no : option string) (d : Date) (t : timedelta)
      (k : option string * Date * timedelta) :
  In k (store_keys (saved w ip st emp_no d t)) ->
  k = (emp_no, d, t) \/ In k (store_keys st).
Proof.
  assert (Hdoc : forall (doc : AttendanceLog) (n : Name) (p : Punch) (t' : timedelta),
            In p (punch_table (append_punch doc (new_punch w ip n t))) ->
            p_punch_time p = Some t' -> In p (punch_table doc) \/ t' = t).
  { intros doc n p t' Hp Ht. cbn in Hp. apply in_app_or in Hp.
    destruct Hp as [Hp|[<-|[]]]; [now left|]. cbn in Ht. right. congruence. }
  assert (Hkey : forall l p t', In p (punch_table l) -> p_punch_time p = Some t' ->
            In l (logs st) -> In (l_employee_no l, l_event_date l, t') (store_keys st)).
  { intros l p t' Hp Ht Hl. unfold store_keys. apply in_flat_map. exists l. split; auto.
    apply in_flat_map. exists p. split; auto. rewrite Ht. now left. }
  unfold store_keys at 1. intros H. apply in_flat_map in H.
  destruct H as (l' & Hl' & H). apply in_flat_map in H. destruct H as (p & Hp & H).
  destruct (p_punch_time p) as [t'|] eqn:Ht; [|destruct H].
  destruct H as [<-|[]].
  unfold saved, built_doc in Hl'.
  destruct (get_all st emp_no d) as [found|] eqn:Hget.
  - destruct (get_all_spec _ _ _ _ Hget) as (Hin & Hemp & Hdate).
    cbn [save_existing logs] in Hl'. apply in_map_iff in Hl'.
    destruct Hl' as (x & Hx & Hxin).
    destruct (Nat.eqb (l_name x) _).
    + assert (Hf : forall doc, l_employee_no doc = emp_no -> l_event_date doc = d ->
                   punch_table doc = punch_table found ->
                   forall l, l = append_punch doc (new_punch w ip (next_name st) t) ->
                   In p (punch_table l) ->
                   (l_employee_no l, l_event_date l, t') = (emp_no, d, t)
                   \/ In (l_employee_no l, l_event_date l, t') (store_keys st)).
      { intros doc He Hd Htab l -> Hp'. cbn [append_punch l_employee_no l_event_date].
        destruct (Hdoc _ _ _ _ Hp' Ht) as [Hp0| ->].
        - right. rewrite He, Hd, <- Hemp, <- Hdate. rewrite Htab in Hp0.
          eapply Hkey; eauto.
        - left. now rewrite He, Hd. }
      destruct (log_has_device_id w).
      * apply (Hf (set_device_id found ip)); auto.
      * apply (Hf found); auto.
    + subst l'. right. eapply Hkey; eauto.
  - cbn [save_new logs] in Hl'. apply in_app_or in Hl'. destruct Hl' as [Hl'|[<-|[]]].
    + right. eapply Hkey; eauto.
    + left. cbn in Hp |- *. destruct Hp as [<-|[]]. cbn in Ht. injection Ht as ->.
      reflexivity.
Qed.

Lemma for_each_fresh (events : list Event) : forall s : IState,
  ingest_wf (store s) ->
  (forall st doc, save_ok w st doc = true) ->
  well_formed w events -> distinct w events -> fresh w events (store s) ->
  exists s',
    for_each (process_event w ip) events s = (s', Return tt)
    /\ count s' = count s + List.length events
    /\ skipped s' = skipped s
    /\ ingest_wf (store s')
    /\ forall k, In k (store_keys (store s')) ->
         In (Some k) (map (event_key w) events) \/ In k (store_keys (store s)).
Proof.
  induction events as [|ev events IH]; intros s Hwf Hok Hwell Hdist Hfresh.
  - exists s. cbn. unfold ret. split; [reflexivity|]. split; [lia|].
    split; [reflexivity|]. split; [exact Hwf|]. intros k Hk. now right.
  - inversion Hwell as [|? ? Hev Hwell']; subst.
    inversion Hdist as [|? ? Hnew Hdist']; subst.
    destruct (event_key w ev) as [[[emp_no d] t]|] eqn:Hkey; [|congruence].
    assert (Hex : existing_punch (store s) emp_no d t = false).
    { destruct (existing_punch (store s) emp_no d t) eqn:E; [|reflexivity].
      exfalso. apply (Hfresh ev (emp_no, d, t)); [now left|exact Hkey|].
      now apply existing_punch_key. }
    cbn [for_each]. unfold bind at 1.
    rewrite (process_event_keyed ev s _ _ _ Hwf Hkey), Hex, Hok.
    set (s1 := bump_count s (saved w ip (store s) emp_no d t)).
    destruct (IH s1) as (s' & Hrun & Hc & Hs & Hwf' & Hkeys); auto.
    + cbn. now apply saved_wf.
    + intros ev' k' Hin' Hk' Hstored. cbn [s1 bump_count store] in Hstored.
      apply saved_keys in Hstored. destruct Hstored as [->|Hstored].
      * apply Hnew. rewrite <- Hk'. now apply in_map.
      * apply (Hfresh ev' k'); auto. now right.
    + exists s'. rewrite Hrun. split; [reflexivity|]. split; [cbn in Hc; cbn; lia|].
      split; [exact Hs|]. split; [exact Hwf'|].
      intros k Hk. destruct (Hkeys k Hk) as [H|H].
      * left. now right.
      * cbn [s1 bump_count store] in H. apply saved_keys in H.
        destruct H as [->|H]; [left; now left|now right].
Qed.

Lemma fresh_after (a b : list Event) (s s2 : IState) :
  distinct w (a ++ b) -> fresh w (a ++ b) (store s) ->
  (forall k, In k (store_keys (store s2)) ->
     In (Some k) (map (event_key w) a) \/ In k (store_keys (store s))) ->
  fresh w b (store s2).
Proof.
  intros Hdist Hfresh Hkeys ev k Hev Hk Hin.
  destruct (Hkeys k Hin) as [H|H].
  - unfold distinct in Hdist. rewrite map_app in Hdist.
    apply (NoDup_app_disjoint _ _ (Some k) Hdist H).
    rewrite <- Hk. now apply in_map.
  - apply (Hfresh ev k); auto. apply in_or_app. now right.
Qed.

Lemma served_page (evs : list Event) (sent0 : list AcsEventCond)
      (payload : AcsEventCond) (position : nat) :
  serves w evs ->
  post w sent0 (page_request payload position)
  = mkResponse 200 (Some (mkAcsEvent (Some (Z.of_nat (List.length evs)))
                                     (Some (firstn batch_size (skipn position evs))))).
Proof. intros H. now rewrite H. Qed.

(** A device that serves full pages and then a shorter one. *)
Lemma loop_serves (evs : list Event) (Hserve : serves w evs)
      (Hok : forall st doc, save_ok w st doc = true) (full : list (list Event)) :
  forall (final : list Event) (fuel : nat) (payload : AcsEventCond) (position : nat)
         (s : IState),
  Forall (fun p => List.length p = batch_size) full ->
  List.length final < batch_size ->
  skipn position evs = List.concat full ++ final ->
  List.length full < fuel ->
  ingest_wf (store s) ->
  well_formed w (List.concat full ++ final) ->
  distinct w (List.concat full ++ final) ->
  fresh w (List.concat full ++ final) (store s) ->
  exists s',
    page_loop w label ip fuel payload position s = Some (s', Return tt)
    /\ count s' = count s + List.length (List.concat full ++ final)
    /\ skipped s' = skipped s
    /\ sent s' = sent s ++ map (fun i => page_request payload (position + batch_size * i))
                               (seq 0 (S (List.length full)))
    /\ ingest_wf (store s').
Proof.
  induction full as [|p full IH];
    intros final fuel payload position s Hfull Hfinal Hskip Hfuel Hwf Hwell Hdist Hfresh;
    (destruct fuel as [|fuel]; [cbn in Hfuel; lia|]);
    cbn [page_loop]; rewrite (served_page evs _ _ _ Hserve);
    cbn [status_code json negb Z.eqb Pos.eqb]; unfold events_of; cbn [InfoList];
    rewrite Hskip;
    set (s1 := mkIState (store s) (sent s ++ [page_request payload position])
                        (count s) (skipped s)).
  - cbn [List.concat] in *. change (@nil Event ++ final) with final in *.
    rewrite firstn_all2 by lia.
    replace (map _ (seq 0 (S (List.length (@nil (list Event))))))
      with [page_request payload position]
      by (cbn; now rewrite ?Nat.mul_0_r, ?Nat.add_0_r).
    destruct final as [|ev final].
    + exists s1. split; [reflexivity|]. split; [cbn; lia|]. split; [reflexivity|].
      split; [reflexivity|exact Hwf].
    + destruct (for_each_fresh (ev :: final) s1 Hwf Hok Hwell Hdist Hfresh)
        as (s2 & Hrun & Hc & Hs & Hwf2 & _).
      rewrite Hrun. apply Nat.ltb_lt in Hfinal. rewrite Hfinal.
      exists s2. split; [reflexivity|]. split; [exact Hc|]. split; [exact Hs|].
      split; [|exact Hwf2]. exact (for_each_sent _ _ _ _ Hrun).
  - inversion Hfull as [|? ? Hp Hfull']; subst.
    cbn [List.concat] in *.
    rewrite <- (app_assoc p) in Hskip, Hwell, Hdist, Hfresh |- *.
    rewrite firstn_app, (firstn_all2 p) by lia.
    rewrite Hp, Nat.sub_diag, firstn_O, app_nil_r.
    destruct p as [|ev p']; [discriminate|].
    unfold well_formed in Hwell. apply Forall_app in Hwell. destruct Hwell as [Hwell1 Hwell2].
    assert (Hdist1 : distinct w (ev :: p')).
    { unfold distinct in *. rewrite map_app in Hdist. now apply NoDup_app_remove_r in Hdist. }
    assert (Hdist2 : distinct w (List.concat full ++ final)).
    { unfold distinct in *. rewrite map_app in Hdist. now apply NoDup_app_remove_l in Hdist. }
    assert (Hfresh1 : fresh w (ev :: p') (store s1)).
    { intros e k He. apply Hfresh. apply in_or_app. now left. }
    destruct (for_each_fresh (ev :: p') s1 Hwf Hok Hwell1 Hdist1 Hfresh1)
      as (s2 & Hrun & Hc & Hs & Hwf2 & Hkeys).
    rewrite Hrun. rewrite Hp.
    replace (batch_size <? batch_size)%nat with false by (symmetry; apply Nat.ltb_irrefl).
    destruct (IH final fuel (page_request payload position) (position + batch_size) s2)
      as (s' & Hloop & Hc' & Hs' & Hsent' & Hwf'); auto.
    + rewrite Nat.add_comm, <- skipn_skipn, Hskip.
      rewrite skipn_app, (skipn_all2 (ev :: p')) by lia.
      now rewrite Hp, Nat.sub_diag, skipn_O.
    + cbn in Hfuel. lia.
    + eapply fresh_after; eauto.
    + exists s'. split; [exact Hloop|]. split.
      { rewrite Hc', Hc. cbn [count s1]. rewrite !length_app. lia. }
      split; [rewrite Hs', Hs; reflexivity|]. split; [|exact Hwf'].
      rewrite Hsent', (for_each_sent _ _ _ _ Hrun). cbn [sent s1].
      rewrite <- app_assoc. f_equal.
      change (seq 0 (S (List.length ((ev :: p') :: full))))
        with (0 :: seq 1 (S (List.length full))).
      cbn [map]. rewrite Nat.mul_0_r, Nat.add_0_r.
      change ([page_request payload position] ++ ?l)
        with (page_request payload position :: l).
      f_equal. rewrite <- seq_shift, map_map. apply map_ext. intros i.
      change (page_request (page_request payload position) ?q) with (page_request payload q).
      f_equal. lia.
Qed.

(** ** Pagination *)

Lemma sum_of_pages (full : list (list Event)) (final : list Event) :
  list_sum (map (@List.length Event) (full ++ [final]))
  = List.length (List.concat full ++ final).
Proof.
  induction full as [|p full IH].
  - cbn. lia.
  - change (list_sum (map (@List.length Event) ((p :: full) ++ [final])))
      with (List.length p + list_sum (map (@List.length Event) (full ++ [final]))).
    rewrite IH. cbn [List.concat]. rewrite <- app_assoc, !length_app. lia.
Qed.

(** C4 (as amended): after the first request (which only reads the
    number of matches) the sync asks for pages of 30 events from position
    0; a page of 30 events or more is followed by the request at the
    position advanced by the number of events it returned, and the sync
    returns at the first page with fewer (or zero) events.  A device that
    serves full pages and then a shorter one, at least one and at most 1500
    events in all, each with an employee number and a timestamp that
    parses, whose keys (employee number, date, time of day to the second)
    differ from one another and are not stored yet, with saves that go
    through and unique log names, yields as many inserted punches as the
    pages have events, stores that many punches more and skips none.  A
    device that reports zero matches yields (0, 0). *)
Theorem pagination :
  (forall (fuel : nat) (start_time end_time : string) (st : Store) (s : IState)
          (o : outcome (nat * nat)),
      _sync_for_single_device w label ip fuel start_time end_time st = Some (s, o) ->
      let first := initial_payload start_time end_time in
      sent s = [first]
      \/ exists requests,
           sent s = first :: requests
           /\ paging w first [first] 0 requests (returned o))
  /\ (forall (full : list (list Event)) (final : list Event) (fuel : nat)
             (start_time end_time : string) (st : Store),
      let evs := List.concat full ++ final in
      let first := initial_payload start_time end_time in
      serves w evs ->
      Forall (fun page => List.length page = batch_size) full ->
      List.length final < batch_size ->
      evs <> [] ->
      List.length evs <= 1500 ->
      List.length full < fuel ->
      ingest_wf st ->
      (forall st doc, save_ok w st doc = true) ->
      well_formed w evs -> distinct w evs -> fresh w evs st ->
      exists s,
        _sync_for_single_device w label ip fuel start_time end_time st
        = Some (s, Return (list_sum (map (@List.length Event) (full ++ [final])), 0))
        /\ sent s = first :: map (fun i => page_request first (batch_size * i))
                                 (seq 0 (S (List.length full)))
        /\ List.length (all_punches (store s))
           = List.length (all_punches st)
             + list_sum (map (@List.length Event) (full ++ [final])))
  /\ (forall (fuel : nat) (start_time end_time : string) (st : Store) (data : AcsEvent),
      status_code (post w [] (initial_payload start_time end_time)) = 200%Z ->
      json (post w [] (initial_payload start_time end_time)) = Some data ->
      total_of data = 0%Z ->
      _sync_for_single_device w label ip fuel start_time end_time st
      = Some (mkIState st [initial_payload start_time end_time] 0 0, Return (0, 0))).
Proof.
  split; [|split].
  - intros fuel start_time end_time st s o H first.
    unfold _sync_for_single_device in H. fold first in H.
    destruct (negb _); [injection H as <- _; now left|].
    destruct (json _) as [data|]; [|injection H as <- _; now left].
    destruct (total_of data =? 0)%Z; [injection H as <- _; now left|].
    destruct (1500 <? total_of data)%Z; [injection H as <- _; now left|].
    destruct (page_loop w label ip fuel first 0 _) as [[s' o']|] eqn:Hloop; [|discriminate].
    destruct (page_loop_paging _ _ _ _ _ _ Hloop) as (requests & Hsent & Hpaging).
    cbn [sent] in Hsent, Hpaging. right. exists requests.
    destruct o' as [[]|e]; injection H as <- <-; auto.
  - intros full final fuel start_time end_time st evs first Hserve Hfull Hfinal Hne Hmax
           Hfuel Hwf Hok Hwell Hdist Hfresh.
    rewrite sum_of_pages. fold evs.
    unfold _sync_for_single_device. fold first. rewrite Hserve.
    cbn [status_code json negb Z.eqb Pos.eqb]. unfold total_of. cbn [totalMatches].
    destruct (Z.eqb_spec (Z.of_nat (List.length evs)) 0) as [E|_].
    { destruct evs; [congruence|cbn in E; lia]. }
    destruct (Z.ltb_spec 1500 (Z.of_nat (List.length evs))) as [E|_]; [lia|].
    destruct (loop_serves evs Hserve Hok full final fuel first 0
                (mkIState st [first] 0 0))
      as (s & Hloop & Hc & Hs & Hsent & _); auto.
    rewrite Hloop. exists s. cbn in Hc, Hs. fold evs in Hc. rewrite Hc, Hs.
    split; [reflexivity|]. split; [exact Hsent|].
    destruct (page_loop_accounted _ _ _ (mkIState st [first] 0 0) _ _ Hwf Hloop) as [_ E].
    cbn in E. lia.
  - intros fuel start_time end_time st data Hstatus Hjson Htotal.
    unfold _sync_for_single_device. rewrite Hstatus, Hjson, Htotal. reflexivity.
Qed.

End DeviceFacts.
(** The log of employee 8 cannot be saved: of the three events two are
    inserted, none is skipped, and two punches are stored. *)
Lemma inserted_counts_persisted_witness :
  let w := Sample.ingest_world_failing (Sample.device_of Sample.three_events) in
  exists s,
    _sync_for_single_device w "Main" "10.0.0.1" 5 "2024-01-15T00:00:00+08:00"
      "2024-01-15T23:59:59+08:00" Sample.empty_store
    = Some (s, Return (2, 0))
    /\ List.length (all_punches (store s)) = 2.
Proof.
  intros w.
  destruct (inserted_counts_persisted w "Main" "10.0.0.1") as [Hrun _].
  destruct (_sync_for_single_device w "Main" "10.0.0.1" 5 "2024-01-15T00:00:00+08:00"
              "2024-01-15T23:59:59+08:00" Sample.empty_store)
    as [[s o]|] eqn:E.
  - assert (Ho : o = Return (2, 0)).
    { assert (H : option_map snd (Some (s, o)) = Some (Return (2, 0)))
        by (rewrite <- E; vm_compute; reflexivity).
      cbn in H. now injection H. }
    subst o. exists s. split; [reflexivity|].
    rewrite (Hrun 5 "2024-01-15T00:00:00+08:00"%string "2024-01-15T23:59:59+08:00"%string
               Sample.empty_store s 2 0); [reflexivity| |exact E].
    split; [constructor|constructor].
  - vm_compute in E. discriminate.
Defined.

(** A device that reports 1501 matches: the sync fails and the store is
    as it was. *)
Lemma volume_ceiling_witness :
  _sync_for_single_device (Sample.ingest_world (Sample.device_reporting 1501))
    "Main" "10.0.0.1" 60 "2024-01-15T00:00:00+08:00" "2024-01-15T23:59:59+08:00"
    Sample.empty_store
  = Some (mkIState Sample.empty_store
            [initial_payload "2024-01-15T00:00:00+08:00" "2024-01-15T23:59:59+08:00"] 0 0,
          Raise (Thrown (TooManyRecords "Main" 1501))).
Proof.
  apply (volume_ceiling (Sample.ingest_world (Sample.device_reporting 1501))
           "Main" "10.0.0.1" 60 "2024-01-15T00:00:00+08:00" "2024-01-15T23:59:59+08:00"
           Sample.empty_store (mkAcsEvent (Some 1501%Z) (Some []))).
  - reflexivity.
  - reflexivity.
  - cbn. lia.
Defined.

(** Two events of employee 7 at 08:00:00.100 and 08:00:00.900: the second
    one is skipped as a duplicate and one punch is stored. *)
Lemma dedup_by_time_of_day_witness :
  let w := Sample.ingest_world (Sample.device_of Sample.close_events) in
  let log1 := Sample.event_at "7" "2024-01-15T08:00:00.100+05:00" in
  let log2 := Sample.event_at "7" "2024-01-15T08:00:00.900+05:00" in
  exists s1 s2,
    process_event w "10.0.0.1" log1 (mkIState Sample.empty_store [] 0 0) = (s1, Return tt)
    /\ process_event w "10.0.0.1" log2 s1 = (s2, Return tt)
    /\ store s2 = store s1 /\ count s2 = count s1 /\ skipped s2 = S (skipped s1)
    /\ List.length (all_punches (store s2)) = 1.
Proof.
  intros w log1 log2.
  destruct (dedup_by_time_of_day w "10.0.0.1" log1 log2
              (mkIState Sample.empty_store [] 0 0)
              (Some "7"%string) Sample.jan15 (hms 8 0 0) (hms 8 0 0))
    as (_ & s1 & s2 & H1 & H2 & _ & _ & Hsame & _).
  - split; constructor.
  - vm_compute. reflexivity.
  - vm_compute. reflexivity.
  - reflexivity.
  - exists s1, s2. destruct (Hsame eq_refl) as (Hst & Hc & Hs).
    split; [exact H1|]. split; [exact H2|]. split; [exact Hst|].
    split; [exact Hc|]. split; [exact Hs|].
    rewrite Hst. apply (f_equal (fun r => List.length (all_punches (store (fst r))))) in H1.
    cbn [fst] in H1. rewrite <- H1. vm_compute. reflexivity.
Defined.

(** C2 as stated fails: the two events above differ in fractions of a
    second only and are not both kept; one punch is stored. *)
Lemma fractions_of_a_second_collapse :
  ~ (forall (w : IngestWorld) (ip : string) (log1 log2 : Event) (s : IState)
            (emp_no ts1 ts2 : string),
       ingest_wf (store s) ->
       employeeNoString log1 = Some emp_no -> employeeNoString log2 = Some emp_no ->
       emp_no <> ""%string ->
       ev_time log1 = Some ts1 -> ev_time log2 = Some ts2 ->
       ts1 <> ts2 ->
       substring 0 19 ts1 = substring 0 19 ts2 ->
       strptime w (substring 0 19 ts1) <> None ->
       (forall st doc, save_ok w st doc = true) ->
       exists s1 s2,
         process_event w ip log1 s = (s1, Return tt)
         /\ process_event w ip log2 s1 = (s2, Return tt)
         /\ List.length (all_punches (store s2))
            = List.length (all_punches (store s)) + 2).
Proof.
  intros H.
  destruct (H (Sample.ingest_world (Sample.device_of Sample.close_events)) "10.0.0.1"%string
              (Sample.event_at "7" "2024-01-15T08:00:00.100+05:00")
              (Sample.event_at "7" "2024-01-15T08:00:00.900+05:00")
              (mkIState Sample.empty_store [] 0 0)
              "7"%string "2024-01-15T08:00:00.100+05:00"%string
              "2024-01-15T08:00:00.900+05:00"%string)
    as (s1 & s2 & H1 & H2 & Hlen).
  - split; constructor.
  - reflexivity.
  - reflexivity.
  - discriminate.
  - reflexivity.
  - reflexivity.
  - apply String.eqb_neq. vm_compute. reflexivity.
  - vm_compute. reflexivity.
  - vm_compute. discriminate.
  - reflexivity.
  - vm_compute in H1. injection H1 as <-.
    vm_compute in H2. injection H2 as <-.
    vm_compute in Hlen. discriminate.
Qed.

(** The three events of the sample device, run through the whole sync:
    two punches inserted, one duplicate skipped. *)
Example close_events_synced :
  option_map snd
    (_sync_for_single_device (Sample.ingest_world (Sample.device_of Sample.close_events))
       "Main" "10.0.0.1" 5 "2024-01-15T00:00:00+08:00" "2024-01-15T23:59:59+08:00"
       Sample.empty_store)
  = Some (Return (2, 1)).
Proof. vm_compute. reflexivity. Qed.

(** A device with 32 events serves a page of 30 and a page of 2: the sync
    posts the first request and the page requests at 0 and 30, inserts 32
    punches and skips none. *)
Lemma pagination_witness :
  let page1 := map Sample.event_no (seq 0 30) in
  let page2 := map Sample.event_no (seq 30 2) in
  let w := Sample.ingest_world (Sample.device_of (page1 ++ page2)) in
  let first := initial_payload "2024-01-15T00:00:00+08:00" "2024-01-15T23:59:59+08:00" in
  exists s,
    _sync_for_single_device w "Main" "10.0.0.1" 2 "2024-01-15T00:00:00+08:00"
      "2024-01-15T23:59:59+08:00" Sample.empty_store
    = Some (s, Return (32, 0))
    /\ sent s = [first; page_request first 0; page_request first 30]
    /\ List.length (all_punches (store s)) = 32.
Proof.
  intros page1 page2 w first.
  destruct (pagination w "Main" "10.0.0.1") as (_ & Hpages & _).
  destruct (Hpages [page1] page2 2 "2024-01-15T00:00:00+08:00"%string
              "2024-01-15T23:59:59+08:00"%string Sample.empty_store)
    as (s & Hrun & Hsent & Hlen).
  - intros sent0 payload. unfold w, Sample.ingest_world, Sample.device_of.
    cbn [post List.concat]. now rewrite app_nil_r.
  - repeat constructor.
  - cbn. unfold batch_size. lia.
  - discriminate.
  - cbn. lia.
  - cbn. lia.
  - split; constructor.
  - reflexivity.
  - apply Forall_forall. intros ev Hev. vm_compute in Hev.
    repeat (destruct Hev as [<-|Hev]; [vm_compute; discriminate|]). destruct Hev.
  - unfold distinct. vm_compute.
    repeat (constructor; [cbn; intuition discriminate|]). constructor.
  - intros ev k _ _ [].
  - exists s. split; [exact Hrun|]. split; [exact Hsent|]. exact Hlen.
Defined.

(** C4, as first stated: events that are distinct and well-formed do
    not give a punch each.  The three events of [Sample.close_events] differ
    from one another, each has an employee number and a timestamp that
    parses, they fit in one short page and every save goes through; two of
    them fall in the same second, and the sync inserts 2 punches and skips
    1, not 3. *)
Lemma distinct_events_share_a_key :
  ~ (forall (w : IngestWorld) (label ip : string) (full : list (list Event))
            (final : list Event) (fuel : nat) (start_time end_time : string)
            (st : Store),
       let evs := List.concat full ++ final in
       serves w evs ->
       Forall (fun page => List.length page = batch_size) full ->
       List.length final < batch_size ->
       List.length full < fuel ->
       List.length evs <= 1500 ->
       ingest_wf st ->
       (forall st doc, save_ok w st doc = true) ->
       NoDup evs -> well_formed w evs ->
       exists s inserted skipped_duplicates,
         _sync_for_single_device w label ip fuel start_time end_time st
         = Some (s, Return (inserted, skipped_duplicates))
         /\ (inserted = list_sum (map (@List.length Event) (full ++ [final]))
             \/ List.length (all_punches (store s))
                = List.length (all_punches st)
                  + list_sum (map (@List.length Event) (full ++ [final])))).
Proof.
  intros H.
  destruct (H (Sample.ingest_world (Sample.device_of Sample.close_events))
              "Main"%string "10.0.0.1"%string [] Sample.close_events 5
              "2024-01-15T00:00:00+08:00"%string "2024-01-15T23:59:59+08:00"%string
              Sample.empty_store)
    as (s & inserted & skipped_duplicates & Hrun & Hcount).
  - intros sent0 payload. reflexivity.
  - constructor.
  - cbn. unfold batch_size. lia.
  - cbn. lia.
  - cbn. lia.
  - split; constructor.
  - reflexivity.
  - repeat constructor; cbn; intuition discriminate.
  - repeat constructor; vm_compute; discriminate.
  - vm_compute in Hrun. injection Hrun as <- <- _.
    vm_compute in Hcount. destruct Hcount as [E|E]; discriminate.
Qed.

(** ** A device sync as a sequence of saves *)

Lemma for_each_app {S A} (body : A -> M S unit) (a b : list A) : forall s : S,
  for_each body (a ++ b) s
  = match for_each body a s with
    | (s1, Return _) => for_each body b s1
    | (s1, Raise e) => (s1, Raise e)
    end.
Proof.
  induction a as [|x a IH]; intros s.
  - change (@nil A ++ b) with b. reflexivity.
  - rewrite <- app_comm_cons. cbn [for_each]. unfold bind.
    destruct (body x s) as [s0 [[]|e]]; [apply IH|reflexivity].
Qed.

Lemma Forall2_map_in {A} (R : A -> A -> Prop) (h : A -> A) (l : list A) :
  (forall x, In x l -> R x (h x)) -> Forall2 R l (map h l).
Proof.
  induction l as [|x l IH]; intros H; cbn; constructor.
  - apply H. now left.
  - apply IH. intros y Hy. apply H. now right.
Qed.

Lemma kept_refl (l : AttendanceLog) : kept l l.
Proof.
  split; [reflexivity|]. split; [reflexivity|]. split; [reflexivity|].
  exists []. split; [now rewrite app_nil_r|constructor].
Qed.

Lemma kept_trans (a b c : AttendanceLog) : kept a b -> kept b c -> kept a c.
Proof.
  intros (n1 & e1 & d1 & m1 & p1 & f1) (n2 & e2 & d2 & m2 & p2 & f2).
  split; [congruence|]. split; [congruence|]. split; [congruence|].
  exists (m1 ++ m2). split; [rewrite p2, p1; now rewrite app_assoc|].
  apply Forall_app. now split.
Qed.

Lemma kept_ingest_only (a b : AttendanceLog) :
  kept a b ->
  str_truthy (l_employee_no a) = true /\ Forall ingest_punch (punch_table a) ->
  str_truthy (l_employee_no b) = true /\ Forall ingest_punch (punch_table b).
Proof.
  intros (_ & e & _ & m & p & f) [Ha Hp]. split; [now rewrite e|].
  rewrite p. apply Forall_app. now split.
Qed.

Lemma Forall2_kept_refl (l : list AttendanceLog) : Forall2 kept l l.
Proof. induction l; constructor; auto using kept_refl. Qed.

Lemma Forall2_kept_trans (a : list AttendanceLog) : forall b c,
  Forall2 kept a b -> Forall2 kept b c -> Forall2 kept a c.
Proof.
  induction a as [|x a IH]; intros b c H1 H2; inversion H1; subst; inversion H2; subst;
    constructor.
  - eapply kept_trans; eauto.
  - eapply IH; eauto.
Qed.

Lemma Forall2_kept_ingest_only (a : list AttendanceLog) : forall b,
  Forall2 kept a b ->
  Forall (fun l => str_truthy (l_employee_no l) = true
                   /\ Forall ingest_punch (punch_table l)) a ->
  Forall (fun l => str_truthy (l_employee_no l) = true
                   /\ Forall ingest_punch (punch_table l)) b.
Proof.
  induction a as [|x a IH]; intros b H1 H2; inversion H1; subst; constructor.
  - inversion H2; subst. eapply kept_ingest_only; eauto.
  - inversion H2; subst. now apply IH.
Qed.

Lemma extends_refl (st : Store) : extends st st.
Proof.
  split; [reflexivity|]. split; [reflexivity|].
  exists (logs st), []. split; [now rewrite app_nil_r|].
  split; [apply Forall2_kept_refl|constructor].
Qed.

Lemma extends_trans (a b c : Store) : extends a b -> extends b c -> extends a c.
Proof.
  intros (e1 & c1 & o1 & n1 & l1 & k1 & f1) (e2 & c2 & o2 & n2 & l2 & k2 & f2).
  split; [congruence|]. split; [congruence|].
  rewrite l1 in k2. apply Forall2_app_inv_l in k2.
  destruct k2 as (o2a & o2b & ka & kb & ->).
  exists o2a, (o2b ++ n2). split; [now rewrite l2, app_assoc|]. split.
  - eapply Forall2_kept_trans; eauto.
  - apply Forall_app. split; [|exact f2].
    eapply Forall2_kept_ingest_only; eauto.
Qed.

Section IngestRun.

Variable w : IngestWorld.
Variables label ip : string.

Lemma new_punch_ingest (n : Name) (t : timedelta) : ingest_punch (new_punch w ip n t).
Proof. unfold ingest_punch, new_punch. cbn. repeat split. discriminate. Qed.

Lemma saved_extends (st : Store) (emp_no : option string) (d : Date) (t : timedelta) :
  ingest_wf st -> str_truthy emp_no = true ->
  extends st (saved w ip st emp_no d t).
Proof.
  intros Hwf Ht. unfold saved, built_doc.
  destruct (get_all st emp_no d) as [found|] eqn:Hget.
  - destruct (get_all_spec _ _ _ _ Hget) as (Hin & He & Hd).
    split; [reflexivity|]. split; [reflexivity|].
    eexists _, []. split; [cbn [save_existing logs]; now rewrite app_nil_r|].
    split; [|constructor].
    apply Forall2_map_in. intros l Hl.
    destruct (Nat.eqb (l_name l) _) eqn:En; [|apply kept_refl].
    apply Nat.eqb_eq in En.
    assert (l = found) as ->.
    { destruct Hwf as [Hnd _]. apply (names_unique _ _ _ Hnd Hl Hin).
      rewrite En. now destruct (log_has_device_id w). }
    split; [now destruct (log_has_device_id w)|].
    split; [now destruct (log_has_device_id w)|].
    split; [now destruct (log_has_device_id w)|].
    exists [new_punch w ip (next_name st) t].
    split; [now destruct (log_has_device_id w)|].
    constructor; [apply new_punch_ingest|constructor].
  - split; [reflexivity|]. split; [reflexivity|].
    eexists (logs st), [_]. split; [reflexivity|].
    split; [apply Forall2_kept_refl|].
    constructor; [|constructor]. cbn. split; [exact Ht|].
    constructor; [apply new_punch_ingest|constructor].
Qed.

Lemma saves_trans (a b c : Store) : saves w ip a b -> saves w ip b c -> saves w ip a c.
Proof.
  induction 1 as [st|st e d t st' Ht Hex Hok _ IH]; intros H; [exact H|].
  eapply saves_step; eauto.
Qed.

Lemma saves_extends (st st' : Store) :
  saves w ip st st' -> ingest_wf st -> extends st st' /\ ingest_wf st'.
Proof.
  induction 1 as [st|st e d t st' Ht Hex Hok _ IH]; intros Hwf.
  - split; [apply extends_refl|exact Hwf].
  - destruct (IH (saved_wf w ip _ _ _ _ Hwf)) as [He Hwf'].
    split; [|exact Hwf'].
    eapply extends_trans; [|exact He]. now apply saved_extends.
Qed.

Lemma process_event_saves (log : Event) (s s' : IState) (o : outcome unit) :
  ingest_wf (store s) ->
  process_event w ip log s = (s', o) ->
  saves w ip (store s) (store s') /\ ingest_wf (store s').
Proof.
  intros Hwf H.
  destruct (event_key w log) as [[[emp_no d] t]|] eqn:Hkey.
  - rewrite (process_event_keyed w ip _ _ _ _ _ Hwf Hkey) in H.
    destruct (event_key_fields w _ _ _ _ Hkey) as (_ & Ht & _).
    destruct (existing_punch (store s) emp_no d t) eqn:Hex.
    + injection H as <- _. split; [apply saves_none|exact Hwf].
    + destruct (save_ok w (store s) _) eqn:Hok.
      * injection H as <- _. cbn [bump_count store]. split.
        -- eapply saves_step; eauto. apply saves_none.
        -- now apply saved_wf.
      * injection H as <- _. split; [apply saves_none|exact Hwf].
  - destruct (process_event_unkeyed w ip log s Hkey) as [E|E]; rewrite E in H;
      injection H as <- _; (split; [apply saves_none|exact Hwf]).
Qed.

Lemma for_each_saves (events : list Event) : forall (s s' : IState) (o : outcome unit),
  ingest_wf (store s) ->
  for_each (process_event w ip) events s = (s', o) ->
  saves w ip (store s) (store s') /\ ingest_wf (store s').
Proof.
  induction events as [|log events IH]; intros s s' o Hwf H; cbn [for_each] in H.
  - unfold ret in H. injection H as <- _. split; [apply saves_none|exact Hwf].
  - unfold bind in H. destruct (process_event w ip log s) as [s1 o1] eqn:E.
    destruct (process_event_saves _ _ _ _ Hwf E) as [S1 W1].
    destruct o1 as [[]|e].
    + destruct (IH _ _ _ W1 H) as [S2 W2]. split; [|exact W2].
      eapply saves_trans; eauto.
    + injection H as <- _. now split.
Qed.

Lemma page_loop_saves (fuel : nat) : forall (payload : AcsEventCond) (position : nat)
      (s s' : IState) (o : outcome unit),
  ingest_wf (store s) ->
  page_loop w label ip fuel payload position s = Some (s', o) ->
  saves w ip (store s) (store s') /\ ingest_wf (store s').
Proof.
  induction fuel as [|fuel IH]; intros payload position s s' o Hwf H; [discriminate|].
  cbn [page_loop] in H.
  set (s1 := mkIState (store s) (sent s ++ [page_request payload position])
                      (count s) (skipped s)) in H.
  assert (A1 : saves w ip (store s) (store s1) /\ ingest_wf (store s1))
    by (split; [apply saves_none|exact Hwf]).
  destruct (negb _).
  { injection H as <- _. exact A1. }
  destruct (json _) as [data|].
  2:{ injection H as <- _. exact A1. }
  destruct (events_of data) as [|ev events].
  { injection H as <- _. exact A1. }
  destruct (for_each (process_event w ip) (ev :: events) s1) as [s2 o2] eqn:Hrun.
  destruct (for_each_saves _ s1 _ _ Hwf Hrun) as [S2 W2].
  destruct o2 as [[]|e].
  2:{ injection H as <- _. now split. }
  destruct (_ <? batch_size)%nat.
  { injection H as <- _. now split. }
  destruct (IH _ _ _ _ _ W2 H) as [S3 W3]. split; [|exact W3].
  eapply saves_trans; eauto.
Qed.

Lemma sync_saves (fuel : nat) (start_time end_time : string) (st : Store) (s : IState)
      (o : outcome (nat * nat)) :
  ingest_wf st ->
  _sync_for_single_device w label ip fuel start_time end_time st = Some (s, o) ->
  saves w ip st (store s) /\ ingest_wf (store s).
Proof.
  intros Hwf H. unfold _sync_for_single_device in H.
  assert (A0 : saves w ip st st /\ ingest_wf st) by (split; [apply saves_none|exact Hwf]).
  destruct (negb _).
  { injection H as <- _. exact A0. }
  destruct (json _) as [data|].
  2:{ injection H as <- _. exact A0. }
  destruct (total_of data =? 0)%Z.
  { injection H as <- _. exact A0. }
  destruct (1500 <? total_of data)%Z.
  { injection H as <- _. exact A0. }
  destruct (page_loop _ _ _ _ _ _ _) as [[s1 o1]|] eqn:Hloop; [|discriminate].
  pose proof (page_loop_saves _ _ _ (mkIState st _ 0 0) _ _ Hwf Hloop) as A1.
  destruct o1 as [[]|e]; injection H as <- _; exact A1.
Qed.

(** X6: a device sync only adds to the store.  Whether it returns or
    raises, the Employees and the Checkin Events are the same, every log
    is still there with its name, employee number and date and with its
    punches as they were, in front of the punches added; the punches added
    are device punches with a time, not synced and without Checkin Event,
    and a new log has an employee number. *)
Theorem device_sync_only_adds (fuel : nat) (start_time end_time : string) (st : Store)
        (s : IState) (o : outcome (nat * nat)) :
  ingest_wf st ->
  _sync_for_single_device w label ip fuel start_time end_time st = Some (s, o) ->
  extends st (store s).
Proof.
  intros Hwf H. destruct (sync_saves _ _ _ _ _ _ Hwf H) as [Hs _].
  now apply saves_extends.
Qed.

(** ** The keys of the store *)

Lemma saved_keeps_keys (st : Store) (emp_no : option string) (d : Date) (t : timedelta) :
  ingest_wf st -> existing_punch st emp_no d t = false ->
  one_log_per_day st -> no_repeated_time st ->
  one_log_per_day (saved w ip st emp_no d t)
  /\ no_repeated_time (saved w ip st emp_no d t).
Proof.
  intros Hwf Hex Hone Htimes.
  pose proof Hex as Hex'. unfold saved, built_doc.
  destruct (get_all st emp_no d) as [found|] eqn:Hget.
  - destruct (get_all_spec _ _ _ _ Hget) as (Hin & He & Hd).
    rewrite (existing_punch_found _ _ _ _ _ Hwf Hget) in Hex'.
    set (doc := append_punch _ _).
    assert (Hname : l_name doc = l_name found)
      by (unfold doc; destruct (log_has_device_id w); reflexivity).
    assert (Hkey : (l_employee_no doc, l_event_date doc)
                   = (l_employee_no found, l_event_date found))
      by (unfold doc; destruct (log_has_device_id w); reflexivity).
    assert (Htable : punch_table doc
                     = punch_table found ++ [new_punch w ip (next_name st) t])
      by (unfold doc; destruct (log_has_device_id w); reflexivity).
    assert (Hsame : forall l, In l (logs st) ->
              Nat.eqb (l_name l) (l_name doc) = true -> l = found).
    { intros l Hl En. apply Nat.eqb_eq in En. destruct Hwf as [Hnd _].
      apply (names_unique _ _ _ Hnd Hl Hin). congruence. }
    split.
    + unfold one_log_per_day, save_existing. cbn [logs]. rewrite map_map.
      rewrite (map_ext_in _ (fun l => (l_employee_no l, l_event_date l))); [exact Hone|].
      intros l Hl. destruct (Nat.eqb (l_name l) (l_name doc)) eqn:En; [|reflexivity].
      rewrite (Hsame l Hl En). exact Hkey.
    + unfold no_repeated_time, save_existing. cbn [logs].
      apply Forall_forall. intros l' Hl'. apply in_map_iff in Hl'.
      destruct Hl' as (l & <- & Hl).
      unfold no_repeated_time in Htimes. rewrite Forall_forall in Htimes.
      destruct (Nat.eqb (l_name l) (l_name doc)) eqn:En; [|now apply Htimes].
      rewrite Htable, map_app. cbn [map new_punch p_punch_time].
      apply NoDup_snoc; [now apply Htimes|].
      intros Hin'. apply in_map_iff in Hin'. destruct Hin' as (p & Ep & Hp).
      assert (Hf : In p (punches_at t found)).
      { unfold punches_at. apply filter_In. split; [exact Hp|].
        rewrite Ep. cbn. apply Z.eqb_refl. }
      destruct (punches_at t found); [destruct Hf|discriminate].
  - split.
    + unfold one_log_per_day, save_new. cbn [logs]. rewrite map_app.
      cbn [map append_punch l_employee_no l_event_date].
      apply NoDup_snoc; [exact Hone|].
      intros Hin. apply in_map_iff in Hin. destruct Hin as (l & El & Hl).
      unfold get_all in Hget. pose proof (find_none_all _ _ Hget l Hl) as Hf.
      cbn in Hf. injection El as E1 E2.
      assert (ostr_eqb (l_employee_no l) emp_no = true) by now apply ostr_eqb_eq.
      assert (date_eqb (l_event_date l) d = true) by now apply date_eqb_eq.
      rewrite H, H0 in Hf. discriminate.
    + unfold no_repeated_time, save_new. cbn [logs].
      apply Forall_app. split; [exact Htimes|].
      constructor; [|constructor]. cbn. constructor; [intros []|constructor].
Qed.

Lemma saves_keep_keys (st st' : Store) :
  saves w ip st st' -> ingest_wf st ->
  one_log_per_day st -> no_repeated_time st ->
  one_log_per_day st' /\ no_repeated_time st'.
Proof.
  induction 1 as [st|st e d t st' Ht Hex Hok _ IH]; intros Hwf Hone Htimes.
  - now split.
  - destruct (saved_keeps_keys _ _ _ _ Hwf Hex Hone Htimes) as [H1 H2].
    apply IH; auto. now apply saved_wf.
Qed.

(** X7: a device sync keeps the keys of the store: when log names are
    unique, there is at most one log for an employee number and a date and
    no log holds two punches of the same time, before a device sync, the
    same is true after it, whether it returns or raises. *)
Theorem device_sync_keeps_keys (fuel : nat) (start_time end_time : string) (st : Store)
        (s : IState) (o : outcome (nat * nat)) :
  ingest_wf st -> one_log_per_day st -> no_repeated_time st ->
  _sync_for_single_device w label ip fuel start_time end_time st = Some (s, o) ->
  ingest_wf (store s) /\ one_log_per_day (store s) /\ no_repeated_time (store s).
Proof.
  intros Hwf Hone Htimes H. destruct (sync_saves _ _ _ _ _ _ Hwf H) as [Hs Hwf'].
  split; [exact Hwf'|]. now apply (saves_keep_keys _ _ Hs).
Qed.

(** ** Paging is transparent *)

Lemma process_event_with_sent (log : Event) (s : IState) (snt : list AcsEventCond) :
  process_event w ip log (with_sent s snt)
  = (with_sent (fst (process_event w ip log s)) snt, snd (process_event w ip log s)).
Proof.
  unfold process_event, with_sent.
  destruct (negb (str_truthy (employeeNoString log)) || _); [reflexivity|].
  destruct (strptime w _) as [[d t]|]; [|reflexivity].
  unfold bind, gets, modify, ret, raise. cbn [store fst snd].
  destruct (get_all (store s) (employeeNoString log) d) as [found|].
  - destruct (get_doc (store s) (l_name found)) as [loaded|]; [|reflexivity].
    destruct (negb _); [|reflexivity].
    destruct (save_ok w (store s) _); reflexivity.
  - destruct (save_ok w (store s) _); reflexivity.
Qed.

Lemma for_each_with_sent (events : list Event) (snt : list AcsEventCond) :
  forall (s s' : IState) (o : outcome unit),
  for_each (process_event w ip) events s = (s', o) ->
  for_each (process_event w ip) events (with_sent s snt) = (with_sent s' snt, o).
Proof.
  induction events as [|log events IH]; intros s s' o H; cbn [for_each] in *.
  - unfold ret in *. now injection H as <- <-.
  - unfold bind in *. rewrite process_event_with_sent.
    destruct (process_event w ip log s) as [s1 [[]|e]]; cbn [fst snd].
    + now apply IH.
    + now injection H as <- <-.
Qed.

Lemma with_sent_same (s : IState) : with_sent s (sent s) = s.
Proof. now destruct s. Qed.

Lemma loop_is_for_each (evs : list Event) (Hserve : serves w evs)
      (full : list (list Event)) :
  forall (final : list Event) (fuel : nat) (payload : AcsEventCond) (position : nat)
         (s s' : IState),
  Forall (fun p => List.length p = batch_size) full ->
  List.length final < batch_size ->
  skipn position evs = List.concat full ++ final ->
  List.length full < fuel ->
  for_each (process_event w ip) (List.concat full ++ final) s = (s', Return tt) ->
  page_loop w label ip fuel payload position s
  = Some (with_sent s'
            (sent s ++ map (fun i => page_request payload (position + batch_size * i))
                           (seq 0 (S (List.length full)))),
          Return tt).
Proof.
  induction full as [|p full IH];
    intros final fuel payload position s s' Hfull Hfinal Hskip Hfuel Hrun;
    (destruct fuel as [|fuel]; [cbn in Hfuel; lia|]);
    cbn [page_loop]; rewrite (served_page w evs _ _ _ Hserve);
    cbn [status_code json negb Z.eqb Pos.eqb]; unfold events_of; cbn [InfoList];
    rewrite Hskip;
    change (mkIState (store s) (sent s ++ [page_request payload position])
                     (count s) (skipped s))
      with (with_sent s (sent s ++ [page_request payload position])).
  - cbn [List.concat] in *. change (@nil Event ++ final) with final in *.
    rewrite firstn_all2 by lia.
    replace (map _ (seq 0 (S (List.length (@nil (list Event))))))
      with [page_request payload position]
      by (cbn; now rewrite ?Nat.mul_0_r, ?Nat.add_0_r).
    destruct final as [|ev final].
    + cbn [for_each] in Hrun. unfold ret in Hrun. now injection Hrun as <-.
    + rewrite (for_each_with_sent _ _ _ _ _ Hrun).
      apply Nat.ltb_lt in Hfinal. now rewrite Hfinal.
  - inversion Hfull as [|? ? Hp Hfull']; subst.
    cbn [List.concat] in *.
    rewrite <- (app_assoc p) in Hskip, Hrun |- *.
    rewrite firstn_app, (firstn_all2 p) by lia.
    rewrite Hp, Nat.sub_diag, firstn_O, app_nil_r.
    destruct p as [|ev p']; [discriminate|].
    rewrite for_each_app in Hrun.
    destruct (for_each (process_event w ip) (ev :: p') s) as [sa [[]|e]] eqn:Ha;
      [|discriminate].
    rewrite (for_each_with_sent _ _ _ _ _ Ha). rewrite Hp.
    replace (batch_size <? batch_size)%nat with false by (symmetry; apply Nat.ltb_irrefl).
    rewrite (IH final fuel (page_request payload position) (position + batch_size)
                (with_sent sa (sent s ++ [page_request payload position]))
                (with_sent s' (sent s ++ [page_request payload position]))); auto.
    + f_equal. f_equal. unfold with_sent. cbn [store sent count skipped]. f_equal.
      rewrite <- app_assoc. f_equal.
      change (seq 0 (S (List.length ((ev :: p') :: full))))
        with (0 :: seq 1 (S (List.length full))).
      cbn [map]. rewrite Nat.mul_0_r, Nat.add_0_r.
      change ([page_request payload position] ++ ?l)
        with (page_request payload position :: l).
      f_equal. rewrite <- seq_shift, map_map. apply map_ext. intros i.
      rewrite page_request_again. f_equal. lia.
    + rewrite Nat.add_comm, <- skipn_skipn, Hskip.
      rewrite skipn_app, (skipn_all2 (ev :: p')) by lia.
      now rewrite Hp, Nat.sub_diag, skipn_O.
    + cbn in Hfuel. lia.
    + now apply for_each_with_sent.
Qed.

(** The first request of a device that serves [evs], not empty and not
    above the ceiling, leads to the page loop. *)
Lemma sync_serving (evs : list Event) (fuel : nat) (start_time end_time : string)
      (st : Store) :
  serves w evs -> evs <> [] -> List.length evs <= 1500 ->
  _sync_for_single_device w label ip fuel start_time end_time st
  = match page_loop w label ip fuel (initial_payload start_time end_time) 0
            (mkIState st [initial_payload start_time end_time] 0 0) with
    | None => None
    | Some (s, Return _) => Some (s, Return (count s, skipped s))
    | Some (s, Raise e) => Some (s, Raise e)
    end.
Proof.
  intros Hserve Hne Hlen. unfold _sync_for_single_device. cbv zeta.
  rewrite !Hserve.
  cbn [status_code json negb Z.eqb Pos.eqb]. unfold total_of. cbn [totalMatches].
  replace (Z.of_nat (List.length evs) =? 0)%Z with false
    by (symmetry; apply Z.eqb_neq; destruct evs; [congruence|cbn [List.length]; lia]).
  replace (1500 <? Z.of_nat (List.length evs))%Z with false
    by (symmetry; apply Z.ltb_ge; lia).
  reflexivity.
Qed.

(** X8: paging is transparent.  Over a device that holds at least one
    and no more than 1500 events and serves them in full pages and then a
    shorter one, a device sync whose event loop returns gives the store and
    the two counters of the loop body run over all the events in the order
    of the device. *)
Theorem paging_is_transparent (full : list (list Event)) (final : list Event)
        (fuel : nat) (start_time end_time : string) (st : Store) (s' : IState) :
  serves w (List.concat full ++ final) ->
  Forall (fun page => List.length page = batch_size) full ->
  List.length final < batch_size ->
  List.concat full ++ final <> [] ->
  List.length (List.concat full ++ final) <= 1500 ->
  List.length full < fuel ->
  for_each (process_event w ip) (List.concat full ++ final) (mkIState st [] 0 0)
  = (s', Return tt) ->
  exists s,
    _sync_for_single_device w label ip fuel start_time end_time st
    = Some (s, Return (count s', skipped s'))
    /\ store s = store s'.
Proof.
  intros Hserve Hfull Hfinal Hne Hlen Hfuel Hrun.
  rewrite (sync_serving _ fuel start_time end_time st Hserve Hne Hlen).
  pose proof (for_each_with_sent _ [initial_payload start_time end_time] _ _ _ Hrun) as Hrun'.
  rewrite (loop_is_for_each _ Hserve full final fuel _ 0 _ _ Hfull Hfinal eq_refl Hfuel Hrun').
  eexists. split; reflexivity.
Qed.

(** ** A second sync *)

Lemma for_each_keyed (Hok : forall st doc, save_ok w st doc = true)
      (events : list Event) : forall s : IState,
  ingest_wf (store s) -> well_formed w events ->
  exists s',
    for_each (process_event w ip) events s = (s', Return tt)
    /\ count s' + skipped s' = count s + skipped s + List.length events
    /\ ingest_wf (store s')
    /\ (forall e d t, existing_punch (store s) e d t = true ->
                      existing_punch (store s') e d t = true)
    /\ all_stored w events (store s').
Proof.
  induction events as [|ev events IH]; intros s Hwf Hwell.
  - exists s. split; [reflexivity|]. split; [cbn; lia|]. split; [exact Hwf|].
    split; [auto|]. intros ev e d t [].
  - inversion Hwell as [|? ? Hev Hwell']; subst.
    destruct (event_key w ev) as [[[e d] t]|] eqn:Hkey; [|congruence].
    cbn [for_each]. unfold bind.
    rewrite (process_event_keyed w ip _ _ _ _ _ Hwf Hkey).
    destruct (existing_punch (store s) e d t) eqn:Hex.
    + destruct (IH (mkIState (store s) (sent s) (count s) (S (skipped s))) Hwf Hwell')
        as (s' & Hrun & Hc & Hwf' & Hmono & Hall).
      exists s'. split; [exact Hrun|]. split; [cbn in Hc |- *; lia|].
      split; [exact Hwf'|]. split; [exact Hmono|].
      intros ev' e' d' t' [<-|Hin] Hk.
      * rewrite Hkey in Hk. injection Hk as <- <- <-. now apply Hmono.
      * eapply Hall; eauto.
    + rewrite Hok.
      destruct (IH (bump_count s (saved w ip (store s) e d t))) as
          (s' & Hrun & Hc & Hwf' & Hmono & Hall);
        [now apply saved_wf|exact Hwell'|].
      exists s'. split; [exact Hrun|]. split; [cbn in Hc |- *; lia|].
      split; [exact Hwf'|]. split.
      * intros e' d' t' He. apply Hmono. cbn [bump_count store].
        rewrite saved_existing by exact Hwf. now rewrite He.
      * intros ev' e' d' t' [<-|Hin] Hk.
        -- rewrite Hkey in Hk. injection Hk as <- <- <-. apply Hmono.
           cbn [bump_count store]. rewrite saved_existing by exact Hwf.
           rewrite same_key_refl. apply orb_true_r.
        -- eapply Hall; eauto.
Qed.

Lemma for_each_stored (events : list Event) : forall s : IState,
  ingest_wf (store s) -> well_formed w events -> all_stored w events (store s) ->
  for_each (process_event w ip) events s
  = (mkIState (store s) (sent s) (count s) (skipped s + List.length events), Return tt).
Proof.
  induction events as [|ev events IH]; intros s Hwf Hwell Hall.
  - cbn. unfold ret. rewrite Nat.add_0_r. now destruct s.
  - inversion Hwell as [|? ? Hev Hwell']; subst.
    destruct (event_key w ev) as [[[e d] t]|] eqn:Hkey; [|congruence].
    cbn [for_each]. unfold bind.
    rewrite (process_event_keyed w ip _ _ _ _ _ Hwf Hkey).
    rewrite (Hall ev e d t (or_introl eq_refl) Hkey).
    rewrite IH; [|exact Hwf|exact Hwell'|].
    + cbn [store sent count skipped List.length]. do 2 f_equal. lia.
    + intros ev' e' d' t' Hin. apply Hall. now right.
Qed.

(** X9: a device sync can be repeated.  Over a device that holds no
    more than 1500 events and serves them in full pages and then a shorter
    one, each event with an employee number and a timestamp that parses,
    with every save going through and unique log names, a sync returns
    counters that add up to the number of events; a second sync over the
    same device inserts nothing, skips every event and leaves the store as
    the first one left it. *)
Theorem second_sync_skips_all (full : list (list Event)) (final : list Event)
        (fuel : nat) (start_time end_time : string) (st : Store) :
  serves w (List.concat full ++ final) ->
  Forall (fun page => List.length page = batch_size) full ->
  List.length final < batch_size ->
  List.length (List.concat full ++ final) <= 1500 ->
  List.length full < fuel ->
  ingest_wf st ->
  (forall st doc, save_ok w st doc = true) ->
  well_formed w (List.concat full ++ final) ->
  exists s1 s2 inserted skipped_duplicates,
    _sync_for_single_device w label ip fuel start_time end_time st
    = Some (s1, Return (inserted, skipped_duplicates))
    /\ inserted + skipped_duplicates = List.length (List.concat full ++ final)
    /\ _sync_for_single_device w label ip fuel start_time end_time (store s1)
       = Some (s2, Return (0, List.length (List.concat full ++ final)))
    /\ store s2 = store s1.
Proof.
  intros Hserve Hfull Hfinal Hlen Hfuel Hwf Hok Hwell.
  set (evs := List.concat full ++ final) in *.
  set (first := initial_payload start_time end_time).
  destruct evs as [|ev0 evs0] eqn:Hevs.
  { exists (mkIState st [first] 0 0), (mkIState st [first] 0 0), 0, 0.
    assert (Hrun : forall st0, _sync_for_single_device w label ip fuel start_time end_time st0
                   = Some (mkIState st0 [first] 0 0, Return (0, 0))).
    { intros st0. unfold _sync_for_single_device. cbv zeta. rewrite !Hserve.
      reflexivity. }
    split; [apply Hrun|]. split; [reflexivity|]. split; [apply Hrun|reflexivity]. }
  rewrite <- Hevs in *.
  assert (Hne : evs <> []) by (rewrite Hevs; discriminate).
  destruct (for_each_keyed Hok evs (mkIState st [first] 0 0) Hwf Hwell)
    as (sa & Hrun & Hc & Hwfa & _ & Hall).
  pose proof (for_each_stored evs (mkIState (store sa) [first] 0 0) Hwfa Hwell Hall) as Hrun2.
  exists (with_sent sa ([first] ++ map (fun i => page_request first (0 + batch_size * i))
                                       (seq 0 (S (List.length full))))).
  eexists. exists (count sa), (skipped sa).
  split; [|split; [cbn in Hc; lia|]].
  - rewrite (sync_serving _ fuel start_time end_time st Hserve Hne Hlen).
    fold first.
    now rewrite (loop_is_for_each _ Hserve full final fuel first 0 _ _
                   Hfull Hfinal eq_refl Hfuel Hrun).
  - cbn [with_sent store].
    rewrite (sync_serving _ fuel start_time end_time (store sa) Hserve Hne Hlen).
    fold first.
    rewrite (loop_is_for_each _ Hserve full final fuel first 0 _ _
               Hfull Hfinal eq_refl Hfuel Hrun2).
    cbn [with_sent store sent count skipped]. split; reflexivity.
Qed.

(** ** A timestamp that does not parse *)

Lemma process_event_unparsable (log : Event) (s : IState) :
  unparsable w log -> process_event w ip log s = (s, Raise ValueError).
Proof.
  intros (He & ts & Hts & Ht & Hparse). unfold process_event.
  rewrite Hts, He, Ht, Hparse. reflexivity.
Qed.

(** X10: one timestamp that does not parse ends the device sync.  When
    a page holds, after the events [before], an event with an employee
    number and a timestamp of which the first 19 characters do not parse,
    the page loop raises ValueError in the state the events [before] led
    to: the events after it are not processed, no further page is asked
    for, and the counters are not returned. *)
Theorem unparsable_timestamp_aborts (fuel : nat) (payload : AcsEventCond)
        (position : nat) (s s1 : IState) (before after : list Event) (ev : Event) :
  page_of w (sent s) (page_request payload position) = Some (before ++ ev :: after) ->
  unparsable w ev ->
  for_each (process_event w ip) before
    (with_sent s (sent s ++ [page_request payload position])) = (s1, Return tt) ->
  page_loop w label ip (S fuel) payload position s = Some (s1, Raise ValueError)
  /\ sent s1 = sent s ++ [page_request payload position].
Proof.
  intros Hpage Hbad Hrun. split.
  - cbn [page_loop]. unfold page_of in Hpage.
    destruct (status_code _ =? 200)%Z; [|discriminate]. cbn [negb].
    destruct (json _) as [data|]; [|discriminate]. injection Hpage as Hev.
    rewrite Hev.
    change (mkIState (store s) (sent s ++ [page_request payload position])
                     (count s) (skipped s))
      with (with_sent s (sent s ++ [page_request payload position])).
    rewrite for_each_app, Hrun. cbn [for_each]. unfold bind.
    rewrite (process_event_unparsable ev s1 Hbad).
    destruct before; reflexivity.
  - now rewrite (for_each_sent w ip _ _ _ _ Hrun).
Qed.

Lemma sync_accounted (fuel : nat) (start_time end_time : string) (st : Store) (s : IState)
      (inserted skipped_duplicates : nat) :
  ingest_wf st ->
  _sync_for_single_device w label ip fuel start_time end_time st
  = Some (s, Return (inserted, skipped_duplicates)) ->
  List.length (all_punches (store s)) = List.length (all_punches st) + inserted.
Proof.
  intros Hwf H. unfold _sync_for_single_device in H.
  destruct (negb _); [discriminate|].
  destruct (json _) as [data|]; [|discriminate].
  destruct (total_of data =? 0)%Z.
  { injection H as <- <- _. cbn. lia. }
  destruct (1500 <? total_of data)%Z; [discriminate|].
  destruct (page_loop _ _ _ _ _ _ _) as [[s1 o1]|] eqn:Hloop; [|discriminate].
  destruct (page_loop_accounted w label ip _ _ _ (mkIState st _ 0 0) _ _ Hwf Hloop)
    as [_ E].
  destruct o1 as [[]|e]; [|discriminate]. injection H as <- <- _. cbn in E. lia.
Qed.

End IngestRun.

Lemma device_sync_only_adds_witness :
  let w := Sample.ingest_world (Sample.device_of Sample.three_events) in
  exists s o,
    _sync_for_single_device w "Main" "10.0.0.1" 5 "2024-01-15T00:00:00+08:00"
      "2024-01-15T23:59:59+08:00" Sample.four_punches = Some (s, o)
    /\ extends Sample.four_punches (store s).
Proof.
  intros w. eexists. eexists. split; [vm_compute; reflexivity|].
  apply (device_sync_only_adds w "Main" "10.0.0.1" 5 "2024-01-15T00:00:00+08:00"
           "2024-01-15T23:59:59+08:00" Sample.four_punches _ (Return (1, 2))).
  - split; [repeat constructor; cbn; intuition lia|repeat constructor; cbn; lia].
  - vm_compute. reflexivity.
Defined.

Lemma device_sync_keeps_keys_witness :
  let w := Sample.ingest_world (Sample.device_of Sample.three_events) in
  exists s o,
    _sync_for_single_device w "Main" "10.0.0.1" 5 "2024-01-15T00:00:00+08:00"
      "2024-01-15T23:59:59+08:00" Sample.four_punches = Some (s, o)
    /\ ingest_wf (store s) /\ one_log_per_day (store s) /\ no_repeated_time (store s).
Proof.
  intros w. eexists. eexists. split; [vm_compute; reflexivity|].
  apply (device_sync_keeps_keys w "Main" "10.0.0.1" 5 "2024-01-15T00:00:00+08:00"
           "2024-01-15T23:59:59+08:00" Sample.four_punches _ (Return (1, 2))).
  - split; [repeat constructor; cbn; intuition lia|repeat constructor; cbn; lia].
  - repeat constructor. cbn. tauto.
  - repeat constructor; cbn; intuition discriminate.
  - vm_compute. reflexivity.
Defined.

Lemma paging_is_transparent_witness :
  let w := Sample.ingest_world
             (Sample.device_of (List.concat [Sample.first_page] ++ Sample.second_page)) in
  let looped := fst (for_each (process_event w "10.0.0.1")
                       (List.concat [Sample.first_page] ++ Sample.second_page)
                       (mkIState Sample.empty_store [] 0 0)) in
  exists s,
    _sync_for_single_device w "Main" "10.0.0.1" 2 "2024-01-15T00:00:00+08:00"
      "2024-01-15T23:59:59+08:00" Sample.empty_store
    = Some (s, Return (31, 1))
    /\ store s = store looped.
Proof.
  intros w looped.
  apply (paging_is_transparent w "Main" "10.0.0.1" [Sample.first_page] Sample.second_page
           2 "2024-01-15T00:00:00+08:00" "2024-01-15T23:59:59+08:00" Sample.empty_store
           looped).
  - intros snt payload. reflexivity.
  - repeat constructor.
  - unfold batch_size. cbn. lia.
  - discriminate.
  - cbn. lia.
  - cbn. lia.
  - vm_compute. reflexivity.
Defined.

Lemma second_sync_skips_all_witness :
  let w := Sample.ingest_world
             (Sample.device_of (List.concat [Sample.first_page] ++ Sample.second_page)) in
  exists s1 s2 inserted skipped_duplicates,
    _sync_for_single_device w "Main" "10.0.0.1" 2 "2024-01-15T00:00:00+08:00"
      "2024-01-15T23:59:59+08:00" Sample.empty_store
    = Some (s1, Return (inserted, skipped_duplicates))
    /\ inserted + skipped_duplicates = 32
    /\ _sync_for_single_device w "Main" "10.0.0.1" 2 "2024-01-15T00:00:00+08:00"
         "2024-01-15T23:59:59+08:00" (store s1)
       = Some (s2, Return (0, 32))
    /\ store s2 = store s1.
Proof.
  intros w.
  apply (second_sync_skips_all w "Main" "10.0.0.1" [Sample.first_page] Sample.second_page
           2 "2024-01-15T00:00:00+08:00" "2024-01-15T23:59:59+08:00" Sample.empty_store).
  - intros snt payload. reflexivity.
  - repeat constructor.
  - unfold batch_size. cbn. lia.
  - cbn. lia.
  - cbn. lia.
  - split; constructor.
  - reflexivity.
  - apply Forall_forall. intros ev Hev. vm_compute in Hev.
    repeat (destruct Hev as [<-|Hev]; [vm_compute; discriminate|]). destruct Hev.
Defined.

Lemma unparsable_timestamp_aborts_witness :
  let w := Sample.ingest_world (Sample.device_of Sample.events_with_garbage) in
  let payload := initial_payload "2024-01-15T00:00:00+08:00" "2024-01-15T23:59:59+08:00" in
  let s1 := fst (process_event w "10.0.0.1"
                   (Sample.event_at "7" "2024-01-15T08:00:00+05:00")
                   (mkIState Sample.empty_store [payload; page_request payload 0] 0 0)) in
  page_loop w "Main" "10.0.0.1" 1 payload 0 (mkIState Sample.empty_store [payload] 0 0)
  = Some (s1, Raise ValueError)
  /\ sent s1 = [payload] ++ [page_request payload 0].
Proof.
  intros w payload s1.
  apply (unparsable_timestamp_aborts w "Main" "10.0.0.1" 0 payload 0
           (mkIState Sample.empty_store [payload] 0 0) s1
           [Sample.event_at "7" "2024-01-15T08:00:00+05:00"]
           [Sample.event_at "7" "2024-01-15T17:30:00+05:00"]
           (Sample.event_at "8" "yesterday")).
  - vm_compute. reflexivity.
  - split; [reflexivity|]. exists "yesterday"%string.
    split; [reflexivity|]. split; reflexivity.
  - vm_compute. reflexivity.
Defined.

End IngestFacts.

(* --------------------------------------------------------------------- *)
(** * The device pass *)
(* --------------------------------------------------------------------- *)

Module DevicePassFacts.
Import Ingest DevicePass StoreFacts IngestFacts.

(* The lemmas of this module take all their arguments explicitly. *)
Unset Implicit Arguments.

(** ** The device configurations *)

Lemma device_rows_spec (pw : PassWorld) (settings : SettingsDoc) (rows : list DeviceRow) :
  forall devices cfgs,
  device_rows pw settings rows devices = Ok cfgs ->
  exists new,
    cfgs = devices ++ new
    /\ Forall2 (config_of pw settings) (filter configured rows) new
    /\ forall d, In d rows -> is_active d = true -> row_password pw d <> None.
Proof.
  induction rows as [|d rows IH]; intros devices cfgs H; cbn [device_rows] in H.
  - injection H as <-. exists []. split; [now rewrite app_nil_r|].
    split; [constructor|intros d []].
  - cbn [filter]. unfold configured at 1.
    destruct (is_active d) eqn:Ha; cbn [andb].
    + destruct (row_password pw d) as [pwd|] eqn:Hp; [|discriminate].
      destruct (str_truthy (ip_address d)) eqn:Hip.
      * destruct (IH _ _ H) as (new & -> & Hall & Hpw).
        eexists (_ :: new). split; [rewrite <- app_assoc; reflexivity|]. split.
        -- constructor; [|exact Hall].
           unfold config_of, Reducer.str_or. cbn.
           split; [reflexivity|]. split; [|split; [reflexivity|exact Hp]].
           destruct (ip_address d); [reflexivity|discriminate].
        -- intros d' [<-|Hd] Hact; [congruence|now apply Hpw].
      * destruct (IH _ _ H) as (new & -> & Hall & Hpw).
        exists new. split; [reflexivity|]. split; [exact Hall|].
        intros d' [<-|Hd] Hact; [congruence|now apply Hpw].
    + destruct (IH _ _ H) as (new & -> & Hall & Hpw).
      exists new. split; [reflexivity|]. split; [exact Hall|].
      intros d' [<-|Hd] Hact; [congruence|now apply Hpw].
Qed.

Lemma device_rows_password (pw : PassWorld) (settings : SettingsDoc)
      (rows : list DeviceRow) (d : DeviceRow) :
  In d rows -> is_active d = true -> row_password pw d = None ->
  forall devices, device_rows pw settings rows devices = Err PasswordError.
Proof.
  intros Hin Ha Hp. induction rows as [|d0 rows IH]; [destruct Hin|].
  intros devices. cbn [device_rows].
  destruct Hin as [->|Hin].
  - now rewrite Ha, Hp.
  - destruct (is_active d0); [|now apply IH].
    destruct (row_password pw d0); [|reflexivity].
    destruct (str_truthy (ip_address d0)); now apply IH.
Qed.

(** X11: the configurations [_get_device_configs] returns are those of
    the active rows of the table that have an IP, in the order of the
    table, each with the label of the row or else its IP, the user name of
    the row or else that of the settings, and the password of the row; only
    when no row gives one, the single "Main Device" of the IP of the
    settings, if that is set; otherwise none. *)
Theorem configs_of_settings (pw : PassWorld) (settings : SettingsDoc) (cfgs : list Config) :
  _get_device_configs pw settings = Ok cfgs ->
  let rows := filter configured (DevicePass.devices settings) in
  (rows <> [] -> Forall2 (config_of pw settings) rows cfgs)
  /\ (rows = [] -> str_truthy (ip settings) = true ->
        exists pwd, main_password pw = Some pwd
                    /\ cfgs = [mkConfig "Main Device" (text (ip settings))
                                        (username settings) pwd])
  /\ (rows = [] -> str_truthy (ip settings) = false -> cfgs = []).
Proof.
  intros H rows. unfold _get_device_configs in H.
  destruct (device_rows pw settings (DevicePass.devices settings) [])
    as [devices|f] eqn:Hrows; [|discriminate].
  destruct (device_rows_spec _ _ _ _ _ Hrows) as (new & Hd & Hall & _).
  rewrite app_nil_l in Hd. subst new. fold rows in Hall.
  destruct devices as [|cfg devices].
  - inversion Hall as [Hnil|]; subst. split; [congruence|].
    destruct (str_truthy (ip settings)).
    + destruct (main_password pw) as [pwd|]; [|discriminate].
      injection H as <-. split; [|discriminate].
      intros _ _. exists pwd. split; reflexivity.
    + injection H as <-. split; [discriminate|reflexivity].
  - injection H as <-. split; [intros _; exact Hall|].
    inversion Hall; subst. split; intros Hr; congruence.
Qed.

Lemma configs_of_settings_witness :
  let pw := Sample.pass_world in
  let rows := filter configured (DevicePass.devices Sample.two_devices) in
  (rows <> [] -> Forall2 (config_of pw Sample.two_devices) rows
                         [mkConfig "Entrance" "10.0.0.1" (Some "admin"%string) "pw-entrance";
                          mkConfig "10.0.0.2" "10.0.0.2" (Some "guard"%string) "pw-2"])
  /\ (rows = [] -> str_truthy (ip Sample.two_devices) = true ->
        exists pwd, main_password pw = Some pwd
                    /\ [mkConfig "Entrance" "10.0.0.1" (Some "admin"%string) "pw-entrance";
                        mkConfig "10.0.0.2" "10.0.0.2" (Some "guard"%string) "pw-2"]
                       = [mkConfig "Main Device" (text (ip Sample.two_devices))
                                   (username Sample.two_devices) pwd])
  /\ (rows = [] -> str_truthy (ip Sample.two_devices) = false ->
        [mkConfig "Entrance" "10.0.0.1" (Some "admin"%string) "pw-entrance";
         mkConfig "10.0.0.2" "10.0.0.2" (Some "guard"%string) "pw-2"] = []).
Proof.
  apply (configs_of_settings Sample.pass_world Sample.two_devices).
  vm_compute. reflexivity.
Defined.

(** X12: the password of an active row is read before its IP is looked
    at: an active row of which the password cannot be read makes
    [_get_device_configs] fail, whether or not the row has an IP and
    whatever the other rows are. *)
Theorem password_read_before_ip (pw : PassWorld) (settings : SettingsDoc) (d : DeviceRow) :
  In d (DevicePass.devices settings) -> is_active d = true -> row_password pw d = None ->
  _get_device_configs pw settings = Err PasswordError.
Proof.
  intros Hin Ha Hp. unfold _get_device_configs.
  now rewrite (device_rows_password pw settings _ d Hin Ha Hp).
Qed.

Lemma password_read_before_ip_witness :
  _get_device_configs Sample.pass_world Sample.row_without_ip = Err PasswordError.
Proof.
  apply (password_read_before_ip Sample.pass_world Sample.row_without_ip
           (mkDeviceRow (Some "Spare"%string) None None true)).
  - right. left. reflexivity.
  - reflexivity.
  - reflexivity.
Defined.

(** ** The loop over the devices *)

Lemma sync_devices_app (pw : PassWorld) (fuel : nat) (start_time end_time : string)
      (a b : list Config) : forall (st : Store) (c k : nat),
  sync_devices pw fuel start_time end_time (a ++ b) st c k
  = match sync_devices pw fuel start_time end_time a st c k with
    | Some (st1, Ok (c1, k1)) => sync_devices pw fuel start_time end_time b st1 c1 k1
    | other => other
    end.
Proof.
  induction a as [|cfg a IH]; intros st c k.
  - reflexivity.
  - rewrite <- app_comm_cons. cbn [sync_devices].
    destruct (_sync_for_single_device _ _ _ _ _ _ _) as [[s [[c1 k1]|e]]|];
      [apply IH|reflexivity|reflexivity].
Qed.

(** X13: the first device that raises ends the pass: the devices after
    it in the list are not contacted and the totals are not returned. *)
Theorem failing_device_stops_pass (pw : PassWorld) (fuel : nat)
        (start_time end_time : string) (before after : list Config) (cfg : Config)
        (st st1 : Store) (c k c1 k1 : nat) (s : IState) (e : exn) :
  sync_devices pw fuel start_time end_time before st c k = Some (st1, Ok (c1, k1)) ->
  _sync_for_single_device (device_world pw cfg) (cfg_label cfg) (cfg_ip cfg)
    fuel start_time end_time st1 = Some (s, Raise e) ->
  sync_devices pw fuel start_time end_time (before ++ cfg :: after) st c k
  = Some (store s, Err (Raised e)).
Proof.
  intros Hb Hcfg. rewrite sync_devices_app, Hb. cbn [sync_devices]. now rewrite Hcfg.
Qed.

Lemma failing_device_stops_pass_witness :
  sync_devices Sample.pass_world 5 "2024-01-15T00:00:00+08:00" "2024-01-15T23:59:59+08:00"
    ([mkConfig "Entrance" "10.0.0.1" (Some "admin"%string) "pw-entrance"]
     ++ mkConfig "10.0.0.2" "10.0.0.2" (Some "guard"%string) "pw-2"
     :: [mkConfig "Entrance" "10.0.0.1" (Some "admin"%string) "pw-entrance"])
    Sample.empty_store 0 0
  = Some (store (mkIState
                   (fst (Sample.after_entrance))
                   [initial_payload "2024-01-15T00:00:00+08:00" "2024-01-15T23:59:59+08:00"]
                   0 0),
          Err (Raised (Thrown (HTTPStatusError "10.0.0.2" 401)))).
Proof.
  apply (failing_device_stops_pass Sample.pass_world 5 "2024-01-15T00:00:00+08:00"
           "2024-01-15T23:59:59+08:00"
           [mkConfig "Entrance" "10.0.0.1" (Some "admin"%string) "pw-entrance"]
           [mkConfig "Entrance" "10.0.0.1" (Some "admin"%string) "pw-entrance"]
           (mkConfig "10.0.0.2" "10.0.0.2" (Some "guard"%string) "pw-2")
           Sample.empty_store (fst Sample.after_entrance) 0 0 3 0).
  - vm_compute. reflexivity.
  - vm_compute. reflexivity.
Defined.

Lemma all_punches_map_punches (g : Punch -> Punch) (ls : list AttendanceLog) :
  List.length (flat_map punch_table (Reducer.map_punches g ls))
  = List.length (flat_map punch_table ls).
Proof.
  induction ls as [|l ls IH]; [reflexivity|].
  cbn [Reducer.map_punches map flat_map punch_table].
  rewrite !length_app, length_map. f_equal. exact IH.
Qed.

Lemma sync_devices_adds (pw : PassWorld) (fuel : nat) (start_time end_time : string)
      (configs : list Config) : forall (st st' : Store) (c k : nat) (r : result (nat * nat)),
  ingest_wf st ->
  sync_devices pw fuel start_time end_time configs st c k = Some (st', r) ->
  ingest_wf st' /\ extends st st'
  /\ (forall f, r = Err f -> exists e, f = Raised e)
  /\ (forall c' k', r = Ok (c', k') ->
        List.length (all_punches st') + c = List.length (all_punches st) + c').
Proof.
  induction configs as [|cfg configs IH]; intros st st' c k r Hwf H; cbn [sync_devices] in H.
  - injection H as <- <-. split; [exact Hwf|]. split; [apply extends_refl|].
    split; [discriminate|]. intros c' k' E. injection E as <- _. reflexivity.
  - destruct (_sync_for_single_device _ _ _ _ _ _ _) as [[s o]|] eqn:Hdev; [|discriminate].
    destruct (sync_saves _ _ _ _ _ _ _ _ _ Hwf Hdev) as [Hs Hwf1].
    destruct (saves_extends _ _ _ _ Hs Hwf) as [Hext _].
    destruct o as [[c1 k1]|e].
    + pose proof (sync_accounted _ _ _ _ _ _ _ _ _ _ Hwf Hdev) as Hacc.
      destruct (IH _ _ _ _ _ Hwf1 H) as (Hwf' & Hext' & Herr & Hok).
      split; [exact Hwf'|]. split; [eapply extends_trans; eauto|].
      split; [exact Herr|].
      intros c' k' E. specialize (Hok c' k' E). lia.
    + injection H as <- <-. split; [exact Hwf1|]. split; [exact Hext|].
      split; [intros f E; injection E as <-; now exists e|discriminate].
Qed.

Lemma device_pass_frame (pw : PassWorld) (fuel : nat) (settings : SettingsDoc)
        (st st' : Store) (r : result (nat * nat)) :
  ingest_wf st ->
  sync_attendance_device_only pw fuel settings st = Some (st', r) ->
  ingest_wf st' /\ extends st st'
  /\ forall total_count total_skipped, r = Ok (total_count, total_skipped) ->
       List.length (all_punches st') = List.length (all_punches st) + total_count.
Proof.
  intros Hwf H. unfold sync_attendance_device_only in H.
  assert (Hsame : forall f, Some (st, @Err (nat * nat) f) = Some (st', r) ->
            ingest_wf st' /\ extends st st'
            /\ forall total_count total_skipped, r = Ok (total_count, total_skipped) ->
                 List.length (all_punches st')
                 = List.length (all_punches st) + total_count).
  { intros f E. injection E as <- <-. split; [exact Hwf|].
    split; [apply extends_refl|discriminate]. }
  destruct (to_device_time pw (start_date_and_time settings)) as [start_time|];
    [|exact (Hsame _ H)].
  destruct (to_device_time pw (end_date_and_time settings)) as [end_time|];
    [|exact (Hsame _ H)].
  destruct (_get_device_configs pw settings) as [[|cfg cfgs]|f];
    [exact (Hsame _ H)| |exact (Hsame _ H)].
  destruct (sync_devices_adds _ _ _ _ _ _ _ _ _ _ Hwf H) as (Hwf' & Hext & _ & Hok).
  split; [exact Hwf'|]. split; [exact Hext|].
  intros c' k' E. specialize (Hok c' k' E). lia.
Qed.

(** X14: the device pass only adds to the store, and its first total
    counts what it added.  Whatever its outcome, the Employees and the
    Checkin Events are the same and every log and punch is kept; when it
    returns, the number of punches stored has grown by [total_count]. *)
Theorem device_pass_counts_punches (pw : PassWorld) (fuel : nat) (settings : SettingsDoc)
        (st st' : Store) (r : result (nat * nat)) :
  ingest_wf st ->
  sync_attendance_device_only pw fuel settings st = Some (st', r) ->
  extends st st'
  /\ forall total_count total_skipped, r = Ok (total_count, total_skipped) ->
       List.length (all_punches st') = List.length (all_punches st) + total_count.
Proof.
  intros Hwf H. destruct (device_pass_frame pw fuel settings st st' r Hwf H) as (_ & He & Hc).
  now split.
Qed.

Lemma device_pass_counts_punches_witness :
  let st' := fst Sample.after_entrance in
  extends Sample.empty_store st'
  /\ forall total_count total_skipped,
       @Ok (nat * nat) (3, 0) = Ok (total_count, total_skipped) ->
       List.length (all_punches st') = List.length (all_punches Sample.empty_store)
                                       + total_count.
Proof.
  apply (device_pass_counts_punches Sample.pass_world 5 Sample.one_device
           Sample.empty_store (fst Sample.after_entrance) (Ok (3, 0))).
  - split; constructor.
  - vm_compute. reflexivity.
Defined.

(** X15: the pass fails with "No device configured" exactly when both
    dates convert, every active row of the table has a password that can be
    read and no IP, and the settings have no IP; the store is then as it
    was and no device has been contacted. *)
Theorem no_device_configured (pw : PassWorld) (fuel : nat) (settings : SettingsDoc)
        (st st' : Store) :
  ingest_wf st ->
  sync_attendance_device_only pw fuel settings st = Some (st', Err NoDeviceConfigured)
  <-> (st' = st
       /\ to_device_time pw (start_date_and_time settings) <> None
       /\ to_device_time pw (end_date_and_time settings) <> None
       /\ (forall d, In d (DevicePass.devices settings) -> is_active d = true ->
             row_password pw d <> None /\ str_truthy (ip_address d) = false)
       /\ str_truthy (ip settings) = false).
Proof.
  intros Hwf. unfold sync_attendance_device_only. split.
  - intros H.
    destruct (to_device_time pw (start_date_and_time settings)) as [start_time|];
      [|discriminate].
    destruct (to_device_time pw (end_date_and_time settings)) as [end_time|];
      [|discriminate].
    destruct (_get_device_configs pw settings) as [[|cfg cfgs]|f] eqn:Hcfg.
    + injection H as <-. split; [reflexivity|]. split; [discriminate|].
      split; [discriminate|].
      unfold _get_device_configs in Hcfg.
      destruct (device_rows pw settings (DevicePass.devices settings) [])
        as [devices|f] eqn:Hrows; [|discriminate].
      destruct (device_rows_spec _ _ _ _ _ Hrows) as (new & Hd & Hall & Hpw).
      rewrite app_nil_l in Hd. subst new.
      destruct devices as [|cfg devices]; [|discriminate].
      inversion Hall as [Hnil|]; subst. symmetry in Hnil.
      assert (Hip : str_truthy (ip settings) = false).
      { destruct (str_truthy (ip settings)); [|reflexivity].
        destruct (main_password pw); discriminate. }
      split; [|exact Hip].
      intros d Hd Ha. split; [now apply Hpw|].
      destruct (str_truthy (ip_address d)) eqn:Hipd; [|reflexivity].
      assert (Hin : In d (filter configured (DevicePass.devices settings))).
      { apply filter_In. split; [exact Hd|]. unfold configured. now rewrite Ha, Hipd. }
      rewrite Hnil in Hin. destruct Hin.
    + destruct (sync_devices_adds _ _ _ _ _ _ _ _ _ _ Hwf H) as (_ & _ & Herr & _).
      destruct (Herr _ eq_refl) as (e & He). discriminate.
    + injection H as <- ->. exfalso.
      unfold _get_device_configs in Hcfg.
      destruct (device_rows pw settings (DevicePass.devices settings) [])
        as [devices|f] eqn:Hrows.
      * destruct devices; [|discriminate].
        destruct (str_truthy (ip settings)); [|discriminate].
        destruct (main_password pw); discriminate.
      * injection Hcfg as ->. clear -Hrows.
        revert Hrows. generalize (@nil Config).
        induction (DevicePass.devices settings) as [|d rows IH]; intros acc H;
          cbn [device_rows] in H; [discriminate|].
        destruct (is_active d); [|now apply (IH acc)].
        destruct (row_password pw d); [|discriminate].
        destruct (str_truthy (ip_address d)); eapply IH; exact H.
  - intros (-> & Hs & He & Hrows & Hip).
    destruct (to_device_time pw (start_date_and_time settings)); [|congruence].
    destruct (to_device_time pw (end_date_and_time settings)); [|congruence].
    assert (Hcfg : forall acc, device_rows pw settings (DevicePass.devices settings) acc
                               = Ok acc).
    { induction (DevicePass.devices settings) as [|d rows IH]; intros acc;
        cbn [device_rows]; [reflexivity|].
      destruct (is_active d) eqn:Ha.
      - destruct (Hrows d (or_introl eq_refl) Ha) as [Hp Hipd].
        destruct (row_password pw d); [|congruence]. rewrite Hipd.
        apply IH. intros d' Hd'. apply Hrows. now right.
      - apply IH. intros d' Hd'. apply Hrows. now right. }
    unfold _get_device_configs. rewrite Hcfg, Hip. reflexivity.
Qed.

Lemma no_device_configured_witness :
  sync_attendance_device_only Sample.pass_world 5 Sample.no_device Sample.empty_store
  = Some (Sample.empty_store, Err NoDeviceConfigured).
Proof.
  apply (no_device_configured Sample.pass_world 5 Sample.no_device Sample.empty_store
           Sample.empty_store).
  - split; constructor.
  - split; [reflexivity|]. split; [discriminate|]. split; [discriminate|].
    split; [|reflexivity].
    intros d [<-|[]] _. split; [discriminate|reflexivity].
Defined.

(** ** Device pass and reducer *)

(** X16: [sync_attendance] runs the reducer only after a device pass
    that returned.  When the device pass fails, so does [sync_attendance],
    in the same store and with no Checkin Event added; when
    [sync_attendance] returns, the punches stored have grown by the first
    total of the device pass and the Checkin Events by [created]. *)
Theorem sync_attendance_composes (rw : Reducer.ReducerWorld) (pw : PassWorld) (fuel : nat)
        (settings : SettingsDoc) (st : Store) :
  ingest_wf st ->
  (forall st1 f,
     sync_attendance_device_only pw fuel settings st = Some (st1, Err f) ->
     sync_attendance rw pw fuel settings st = Some (st1, Err f)
     /\ checkins st1 = checkins st)
  /\ (forall st2 total_count total_skipped created already_synced,
        sync_attendance rw pw fuel settings st
        = Some (st2, Ok ((total_count, total_skipped), (created, already_synced))) ->
        List.length (all_punches st2) = List.length (all_punches st) + total_count
        /\ exists added, checkins st2 = checkins st ++ added
                         /\ List.length added = created).
Proof.
  intros Hwf. split.
  - intros st1 f H. unfold sync_attendance. rewrite H. split; [reflexivity|].
    destruct (device_pass_frame pw fuel settings st st1 _ Hwf H) as (_ & (_ & Hc & _) & _).
    exact Hc.
  - intros st2 c k created already H. unfold sync_attendance in H.
    destruct (sync_attendance_device_only pw fuel settings st) as [[st1 [[c1 k1]|f]]|]
      eqn:Hpass; [|discriminate|discriminate].
    destruct (Reducer.sync_punches_to_employee_checkin rw st1) as [st2' [[cr al]|e]] eqn:Hred;
      [|discriminate].
    injection H as <- <- <- <- <-.
    destruct (device_pass_frame pw fuel settings st st1 _ Hwf Hpass)
      as (_ & (_ & Hc & _) & Hn).
    specialize (Hn c1 k1 eq_refl).
    destruct (@ReducerFacts.run_writes rw st1 st2' _ Hred) as (c' & a' & W & Hr).
    specialize (Hr _ eq_refl). injection Hr as <- <-.
    destruct (@ReducerFacts.writes_added _ _ _ _ _ W) as (added & Hck & Hlen & _).
    destruct (@ReducerFacts.writes_flags _ _ _ _ _ W) as (g & _ & Hlogs).
    cbn [Reducer.store Reducer.created] in Hck, Hlen, Hlogs.
    split.
    + rewrite <- Hn. unfold all_punches. rewrite Hlogs.
      apply all_punches_map_punches.
    + exists added. rewrite Hck, Hc. split; [reflexivity|lia].
Qed.

Lemma sync_attendance_composes_witness :
  (exists st1,
     sync_attendance_device_only Sample.pass_world 5 Sample.two_devices Sample.staff_store
     = Some (st1, Err (Raised (Thrown (HTTPStatusError "10.0.0.2" 401))))
     /\ sync_attendance Sample.world Sample.pass_world 5 Sample.two_devices
          Sample.staff_store
        = Some (st1, Err (Raised (Thrown (HTTPStatusError "10.0.0.2" 401))))
     /\ List.length (all_punches st1) = 3
     /\ checkins st1 = checkins Sample.staff_store)
  /\ (exists st2,
        sync_attendance Sample.world Sample.pass_world 5 Sample.one_device
          Sample.staff_store
        = Some (st2, Ok ((3, 0), (3, 0)))
        /\ List.length (all_punches st2)
           = List.length (all_punches Sample.staff_store) + 3
        /\ exists added, checkins st2 = checkins Sample.staff_store ++ added
                         /\ List.length added = 3).
Proof.
  assert (Hwf : ingest_wf Sample.staff_store) by (split; constructor).
  split.
  - destruct (sync_attendance_composes Sample.world Sample.pass_world 5 Sample.two_devices
                Sample.staff_store Hwf) as [Hfail _].
    eexists. split; [vm_compute; reflexivity|].
    split; [|split; [vm_compute; reflexivity|]]; eapply Hfail; vm_compute; reflexivity.
  - destruct (sync_attendance_composes Sample.world Sample.pass_world 5 Sample.one_device
                Sample.staff_store Hwf) as [_ Hok].
    eexists. split; [vm_compute; reflexivity|].
    eapply Hok. vm_compute. reflexivity.
Defined.

(** ** What the reducer finds after a device pass *)

Lemma insert_sorted_length {A} (leb : A -> A -> bool) (x : A) (l : list A) :
  List.length (Reducer.insert_sorted leb x l) = S (List.length l).
Proof.
  induction l as [|y l IH]; [reflexivity|]. cbn [Reducer.insert_sorted].
  destruct (leb x y); [reflexivity|]. cbn [List.length]. now rewrite IH.
Qed.

Lemma order_by_length {A} (leb : A -> A -> bool) (l : list A) :
  List.length (Reducer.order_by leb l) = List.length l.
Proof.
  induction l as [|x l IH]; [reflexivity|]. unfold Reducer.order_by in *.
  cbn [fold_right]. now rewrite insert_sorted_length, IH.
Qed.

Lemma unsynced_of_ingest (more : list Punch) :
  Forall ingest_punch more ->
  filter (fun p => negb (coalesce0 (p_synced_to_employee_checkin p))) more = more.
Proof.
  induction 1 as [|p more (_ & Hs & _) _ IH]; [reflexivity|].
  cbn [filter]. rewrite Hs. cbn. now rewrite IH.
Qed.

Lemma unsynced_rows_cons (l : AttendanceLog) (ls : list AttendanceLog) (es : list Employee)
      (cs : list EmployeeCheckin) (n : Name) :
  List.length (Reducer.unsynced_rows (mkStore (l :: ls) es cs n))
  = List.length (filter (fun p => negb (coalesce0 (p_synced_to_employee_checkin p)))
                        (punch_table l))
    + List.length (Reducer.unsynced_rows (mkStore ls es cs n)).
Proof.
  unfold Reducer.unsynced_rows. cbn [logs flat_map].
  now rewrite length_app, length_map.
Qed.

Lemma extends_unsynced (news : list AttendanceLog) :
  Forall (fun l => str_truthy (l_employee_no l) = true
                   /\ Forall ingest_punch (punch_table l)) news ->
  forall (ls olds : list AttendanceLog) (es : list Employee) (cs : list EmployeeCheckin)
         (n n' : Name),
  Forall2 kept ls olds ->
  List.length (Reducer.unsynced_rows (mkStore (olds ++ news) es cs n'))
  + List.length (flat_map punch_table ls)
  = List.length (Reducer.unsynced_rows (mkStore ls es cs n))
    + List.length (flat_map punch_table (olds ++ news)).
Proof.
  intros Hnews ls olds es cs n n' Hkept.
  induction Hkept as [|l l' ls olds (_ & _ & _ & more & Hmore & Hing) _ IH].
  - rewrite app_nil_l. clear -Hnews.
    induction Hnews as [|l news [_ Hing] _ IH]; [reflexivity|].
    rewrite unsynced_rows_cons. cbn [flat_map]. rewrite length_app.
    rewrite (unsynced_of_ingest _ Hing).
    change (Reducer.unsynced_rows {| logs := []; employees := es; checkins := cs;
                                     next_name := n |}) with (@nil Reducer.Row) in *.
    cbn [List.length flat_map] in *. lia.
  - rewrite <- app_comm_cons, !unsynced_rows_cons. cbn [flat_map].
    rewrite !length_app, Hmore, filter_app, !length_app.
    rewrite (unsynced_of_ingest _ Hing). lia.
Qed.

(** X21: what a device pass inserts waits for the reducer.  When the
    pass returns, the query of the reducer for unsynced punches has as many
    more rows as the pass counts as inserted. *)
Theorem inserted_punches_await_reducer (pw : PassWorld) (fuel : nat)
        (settings : SettingsDoc) (st st' : Store) (total_count total_skipped : nat) :
  ingest_wf st ->
  sync_attendance_device_only pw fuel settings st
  = Some (st', Ok (total_count, total_skipped)) ->
  List.length (Reducer.select_unsynced st')
  = List.length (Reducer.select_unsynced st) + total_count.
Proof.
  intros Hwf H.
  destruct (device_pass_frame pw fuel settings st st' _ Hwf H)
    as (_ & (He & Hc & olds & news & Hl & Hkept & Hnews) & Hn).
  specialize (Hn _ _ eq_refl).
  unfold Reducer.select_unsynced. rewrite !order_by_length.
  pose proof (extends_unsynced news Hnews (logs st) olds (employees st) (checkins st)
                (next_name st) (next_name st') Hkept) as E.
  unfold all_punches in Hn. rewrite Hl in Hn.
  replace (mkStore (olds ++ news) (employees st) (checkins st) (next_name st'))
    with st' in E by (destruct st'; cbn in *; congruence).
  replace (mkStore (logs st) (employees st) (checkins st) (next_name st))
    with st in E by (now destruct st).
  lia.
Qed.

Lemma inserted_punches_await_reducer_witness :
  List.length (Reducer.select_unsynced (fst Sample.after_entrance))
  = List.length (Reducer.select_unsynced Sample.empty_store) + 3.
Proof.
  apply (inserted_punches_await_reducer Sample.pass_world 5 Sample.one_device
           Sample.empty_store (fst Sample.after_entrance) 3 0).
  - split; constructor.
  - vm_compute. reflexivity.
Defined.

End DevicePassFacts.

